(** * Continuous camera capture: a model of [capture-continuous.cpp]

    The program drives one ZWO ASI camera: it parses its command line,
    opens the first camera, and then loops { start exposure, poll until
    done, fetch the frame, name it after the wall clock, write it, pace }
    until SIGINT or SIGTERM clears [keep_running].

    The model is a shallow embedding.  Pure parts (file-name formatting,
    the command-line scan, the unit conversion of the exposure time) are
    plain functions.  The effectful part runs in a small monad that threads
    the trace of observable actions; everything outside the program (the
    camera driver, the clock, the file system, the arrival of signals) is an
    environment queried at the current tick, the tick being the number of
    actions performed so far.  Loops that the source does not bound take
    fuel. *)

From Stdlib Require Import ZArith List String Ascii Bool Lia.
From Stdlib Require Import DecimalString SpecFloat.
From Stdlib Require QArith Lqa.
Import ListNotations.

Local Open Scope Z_scope.
Local Open Scope string_scope.

(** ** Machine integers *)

(** A signed [w]-bit integer is a [Z]; [wrap w] is the two's-complement
    reduction applied by a narrowing conversion or an overflowing
    operation. *)
Definition wrap (w : Z) (z : Z) : Z := (z + 2 ^ (w - 1)) mod 2 ^ w - 2 ^ (w - 1).

Definition to_int : Z -> Z := wrap 32.
Definition to_long : Z -> Z := wrap 64.

Definition in_int (z : Z) : Prop := - 2 ^ 31 <= z < 2 ^ 31.
Definition in_long (z : Z) : Prop := - 2 ^ 63 <= z < 2 ^ 63.

(** ** Formatted output: the part of [std::ostream] the program uses *)

Module IOStream.

Record ostream : Type := mk_ostream
  { os_buf : string;     (* characters written so far *)
    os_fill : ascii;     (* fill character, sticky *)
    os_width : nat }.    (* field width, reset by every formatted insertion *)

Definition empty : ostream :=
  {| os_buf := ""; os_fill := " "%char; os_width := 0 |}.

Fixpoint replicate (n : nat) (c : ascii) : string :=
  match n with
  | O => ""
  | S n' => String c (replicate n' c)
  end.

(** Default adjustment is to the right: the fill goes in front, and a field
    wider than the width is never cut. *)
Definition pad_left (w : nat) (c : ascii) (s : string) : string :=
  replicate (w - String.length s) c ++ s.

Definition setfill (c : ascii) (os : ostream) : ostream :=
  {| os_buf := os_buf os; os_fill := c; os_width := os_width os |}.

Definition setw (n : nat) (os : ostream) : ostream :=
  {| os_buf := os_buf os; os_fill := os_fill os; os_width := n |}.

Definition put_string (s : string) (os : ostream) : ostream :=
  {| os_buf := os_buf os ++ pad_left (os_width os) (os_fill os) s;
     os_fill := os_fill os;
     os_width := 0%nat |}.

(** Decimal text of an integer, with a leading minus sign when negative. *)
Definition string_of_Z (z : Z) : string := NilZero.string_of_int (Z.to_int z).

Definition put_int (z : Z) : ostream -> ostream := put_string (string_of_Z z).

End IOStream.

Import IOStream.

Notation "os << m" := (m os) (at level 40, left associativity, only parsing).

(** ** Identity generator: [make_filename_from_time] *)

(** The fields of [struct timeval] and [struct tm] that the program reads. *)
Record timeval : Type := mk_timeval { tv_sec : Z; tv_usec : Z }.

Record tm : Type := mk_tm
  { tm_sec : Z; tm_min : Z; tm_hour : Z; tm_mday : Z; tm_mon : Z; tm_year : Z }.

(** The [stringstream] built by [make_filename_from_time] once the clock has
    been sampled into [tv] and broken down into [ltm]. *)
Definition filename_stream (tv : timeval) (ltm : tm) : ostream :=
  empty << put_string "exposure-"
        << put_int (to_int (1900 + tm_year ltm))
        << setfill "0" << setw 2 << put_int (to_int (1 + tm_mon ltm))
        << setw 2 << put_int (tm_mday ltm) << put_string "-"
        << setw 2 << put_int (tm_hour ltm)
        << setw 2 << put_int (tm_min ltm)
        << setw 2 << put_int (tm_sec ltm) << put_string "-"
        << setfill "0" << setw 3 << put_int (to_long (Z.quot (tv_usec tv) 1000))
        << put_string ".bin".

Definition filename_of (tv : timeval) (ltm : tm) : string :=
  os_buf (filename_stream tv ltm).

(** The name is a part fixed by the calendar second followed by the
    millisecond field and the suffix. *)
Definition date_part (ltm : tm) : string :=
  os_buf (empty << put_string "exposure-"
        << put_int (to_int (1900 + tm_year ltm))
        << setfill "0" << setw 2 << put_int (to_int (1 + tm_mon ltm))
        << setw 2 << put_int (tm_mday ltm) << put_string "-"
        << setw 2 << put_int (tm_hour ltm)
        << setw 2 << put_int (tm_min ltm)
        << setw 2 << put_int (tm_sec ltm) << put_string "-").

(** The form the specification gives for the name, field by field:
    [exposure-YYYYMMDD-HHMMSS-mmm.bin].  [fixed_width k n] is the text of
    [n] on exactly [k] decimal digits, leading zeros included. *)
Definition digit_char (d : Z) : ascii := ascii_of_nat (48 + Z.to_nat d).

Fixpoint fixed_width (k : nat) (n : Z) : string :=
  match k with
  | O => ""
  | S k' => String (digit_char ((n / 10 ^ Z.of_nat k') mod 10)) (fixed_width k' n)
  end.

Definition exposure_name_form (year mon day hour min sec ms : Z) : string :=
  "exposure-" ++ fixed_width 4 year ++ fixed_width 2 mon ++ fixed_width 2 day
  ++ "-" ++ fixed_width 2 hour ++ fixed_width 2 min ++ fixed_width 2 sec
  ++ "-" ++ fixed_width 3 ms ++ ".bin".

(** A broken-down time as [localtime] delivers it for a four-digit year, and
    a [timeval] as [gettimeofday] delivers it. *)
Definition tm_in_range (ltm : tm) : Prop :=
  0 <= tm_sec ltm <= 60 /\ 0 <= tm_min ltm <= 59 /\ 0 <= tm_hour ltm <= 23 /\
  1 <= tm_mday ltm <= 31 /\ 0 <= tm_mon ltm <= 11 /\
  1000 <= 1900 + tm_year ltm <= 9999.

Definition timeval_in_range (tv : timeval) : Prop := 0 <= tv_usec tv < 1000000.

(** The millisecond field that gets printed. *)
Definition millis (tv : timeval) : Z := Z.quot (tv_usec tv) 1000.

(** Integers [lo, lo + n), for checks by enumeration. *)
Definition Z_range (lo n : Z) : list Z :=
  map (fun i => lo + Z.of_nat i) (seq 0 (Z.to_nat n)).

(** ** Command line *)

(** A C++ [double] is an IEEE 754 binary64 value. *)
Definition double : Type := spec_float.
Definition dmul : double -> double -> double := SFmul 53 1024.
Definition dadd : double -> double -> double := SFadd 53 1024.
Definition dlt : double -> double -> bool := SFltb.
Definition dle : double -> double -> bool := SFleb.
Definition is_double (x : double) : bool := valid_binary 53 1024 x.

Definition d_0_0 : double := S754_zero false.
Definition d_0_1 : double := S754_finite false 7205759403792794 (-56).
Definition d_1_0 : double := S754_finite false 4503599627370496 (-52).
Definition d_1_5 : double := S754_finite false 6755399441055744 (-52).
Definition d_1e6 : double := S754_finite false 8589934592000000 (-33).
Definition d_1e13 : double := S754_finite false 5120000000000000 (-9).

Record Config : Type := mk_Config
  { output_dir : string;
    exposure_seconds : double;
    gain_value : Z;
    interval_seconds : double }.

Definition default_config : Config :=
  {| output_dir := ".";
     exposure_seconds := d_1_0;
     gain_value := 100;
     interval_seconds := d_1_5 |}.

Definition set_output_dir (v : string) (c : Config) : Config :=
  {| output_dir := v; exposure_seconds := exposure_seconds c;
     gain_value := gain_value c; interval_seconds := interval_seconds c |}.
Definition set_exposure_seconds (v : double) (c : Config) : Config :=
  {| output_dir := output_dir c; exposure_seconds := v;
     gain_value := gain_value c; interval_seconds := interval_seconds c |}.
Definition set_gain_value (v : Z) (c : Config) : Config :=
  {| output_dir := output_dir c; exposure_seconds := exposure_seconds c;
     gain_value := v; interval_seconds := interval_seconds c |}.
Definition set_interval_seconds (v : double) (c : Config) : Config :=
  {| output_dir := output_dir c; exposure_seconds := exposure_seconds c;
     gain_value := gain_value c; interval_seconds := v |}.

Section CommandLine.

(** [std::stod] and [std::stoi] belong to the C++ library, not to the
    program: they are parameters.  [None] stands for the exception they
    throw on text that is not a number or is out of range. *)
Variable stod : string -> option double.
Variable stoi : string -> option Z.

(** The scan of [argv[1..argc-1]].  [a :: v :: rest'] is the case
    [i + 1 < argc]: a recognized flag takes [v] and the index moves two
    places ([++i] in the branch, [++i] in the loop header); anything else
    moves one place.  With [a] last, [i + 1 < argc] is false in every
    branch and nothing is assigned.  [None]: a conversion threw. *)
Fixpoint parse_args (cfg : Config) (args : list string) : option Config :=
  match args with
  | [] => Some cfg
  | a :: rest =>
    match rest with
    | [] => parse_args cfg rest
    | v :: rest' =>
      if a =? "--output-dir" then parse_args (set_output_dir v cfg) rest'
      else if a =? "--exposure-time" then
        match stod v with
        | Some d => parse_args (set_exposure_seconds d cfg) rest'
        | None => None
        end
      else if a =? "--gain" then
        match stoi v with
        | Some g => parse_args (set_gain_value g cfg) rest'
        | None => None
        end
      else if a =? "--interval" then
        match stod v with
        | Some d => parse_args (set_interval_seconds d cfg) rest'
        | None => None
        end
      else parse_args cfg rest
    end
  end.

End CommandLine.

Definition recognized (a : string) : bool :=
  (a =? "--output-dir") || (a =? "--exposure-time") || (a =? "--gain")
  || (a =? "--interval").

(** Where the scan stands after [args]: [true] when the loop index ends
    exactly past the last element having treated each element either as a
    flag with its value or as a lone word, and the last element was not a
    recognized flag left without a value. *)
Fixpoint scan_complete (args : list string) : bool :=
  match args with
  | [] => true
  | a :: rest =>
    match rest with
    | [] => negb (recognized a)
    | _ :: rest' => if recognized a then scan_complete rest' else scan_complete rest
    end
  end.

(** [true] when the scan of [args] meets [flag] in flag position with a
    value after it. *)
Fixpoint assigns (flag : string) (args : list string) : bool :=
  match args with
  | [] => false
  | a :: rest =>
    match rest with
    | [] => false
    | _ :: rest' =>
      if recognized a then (a =? flag) || assigns flag rest' else assigns flag rest
    end
  end.

(** What a flag stands for in the configuration, and what its value text
    [v] becomes. *)
Inductive Setting : Type :=
| Directory (path : string)
| Seconds (d : double)
| Gain (g : Z).

Definition setting_of (flag : string) (c : Config) : option Setting :=
  if flag =? "--output-dir" then Some (Directory (output_dir c))
  else if flag =? "--exposure-time" then Some (Seconds (exposure_seconds c))
  else if flag =? "--gain" then Some (Gain (gain_value c))
  else if flag =? "--interval" then Some (Seconds (interval_seconds c))
  else None.

Definition converted (stod : string -> option double) (stoi : string -> option Z)
  (flag v : string) : option Setting :=
  if flag =? "--output-dir" then Some (Directory v)
  else if flag =? "--exposure-time" then option_map Seconds (stod v)
  else if flag =? "--gain" then option_map Gain (stoi v)
  else if flag =? "--interval" then option_map Seconds (stod v)
  else None.

(** [true] when every value that the scan of [args] hands to [stod] or
    [stoi] is accepted: no conversion throws. *)
Fixpoint accepted (stod : string -> option double) (stoi : string -> option Z)
  (args : list string) : bool :=
  match args with
  | [] => true
  | a :: rest =>
    match rest with
    | [] => true
    | v :: rest' =>
      if recognized a then
        match converted stod stoi a v with
        | Some _ => accepted stod stoi rest'
        | None => false
        end
      else accepted stod stoi rest
    end
  end.

(** The reading of the claim by occurrences, whatever their position: the
    argument that follows the last occurrence of the word [flag]. *)
Fixpoint value_after_last_occurrence (flag : string) (args : list string) : option string :=
  match args with
  | [] => None
  | a :: rest =>
    match value_after_last_occurrence flag rest with
    | Some v => Some v
    | None => if (a =? flag)%string then hd_error rest else None
    end
  end.

Local Open Scope list_scope.
Local Open Scope Z_scope.

(** ** The camera driver, as the program sees it *)

(** Modelled from the spec: the vendor header [ASICamera2.h], which declares
    the types and calls of the driver, is included by an absolute path and
    is missing from the source tree.  The names are those the program uses.
    The sensor contract of the specification says that every call is
    synchronous and may fail, that the status poll answers working, success
    or failed (and speaks of any other terminal status, here
    [ASI_EXP_IDLE]), and that a camera is described by its id, its maximal
    width and height and its bit depth. *)
Inductive ASI_ERROR_CODE : Type :=
| ASI_SUCCESS
| ASI_ERROR (code : nat).    (* any other value of the enumeration *)

Inductive ASI_BOOL : Type := ASI_FALSE | ASI_TRUE.

Inductive ASI_IMG_TYPE : Type := ASI_IMG_RAW8 | ASI_IMG_RAW16.

Inductive ASI_CONTROL_TYPE : Type := ASI_GAIN | ASI_EXPOSURE.

Inductive ASI_EXPOSURE_STATUS : Type :=
| ASI_EXP_IDLE
| ASI_EXP_WORKING
| ASI_EXP_SUCCESS
| ASI_EXP_FAILED.

Record ASI_CAMERA_INFO : Type := mk_ASI_CAMERA_INFO
  { CameraID : Z;
    MaxHeight : Z;
    MaxWidth : Z;
    BitDepth : Z }.

Definition succeeded (r : ASI_ERROR_CODE) : bool :=
  match r with ASI_SUCCESS => true | ASI_ERROR _ => false end.

(** ** Observable actions *)

Inductive Signal : Type := SIGINT | SIGTERM.

Inductive Stream : Type := Cout | Cerr.

(** What one output statement inserts before its [endl]. *)
Inductive Piece : Type :=
| Text (s : string)
| Int (z : Z)
| Real (d : double).

Inductive Event : Type :=
| EvSignal (sig : Signal)                      (* signal(sig, signal_handler) *)
| EvPrint (to : Stream) (line : list Piece)
| EvGetNumOfConnectedCameras (r : Z)
| EvGetCameraProperty (index : Z) (r : ASI_ERROR_CODE) (info : ASI_CAMERA_INFO)
| EvOpenCamera (id : Z) (r : ASI_ERROR_CODE)
| EvInitCamera (id : Z) (r : ASI_ERROR_CODE)
| EvSetROIFormat (id width height bin : Z) (img_type : ASI_IMG_TYPE)
| EvSetControlValue (id : Z) (control : ASI_CONTROL_TYPE) (value : Z) (auto : ASI_BOOL)
| EvStartExposure (id : Z) (is_dark : ASI_BOOL) (r : ASI_ERROR_CODE)
| EvGetExpStatus (id : Z) (status : ASI_EXPOSURE_STATUS)
| EvGetDataAfterExp (id : Z) (size : Z) (r : ASI_ERROR_CODE)
| EvCloseCamera (id : Z)
| EvKeepRunning (value : bool)                 (* one read of the flag *)
| EvSleep (milliseconds : Z)
| EvGetTimeOfDay (tv : timeval)
| EvOpenFile (path : string) (ok : bool)
| EvWrite (path : string) (count : Z)
| EvCloseFile (path : string).

Definition Trace : Type := list Event.

(** ** The environment *)

(** Every answer the program receives from outside.  An answer is indexed
    by the tick at which it is asked for, so any sequence of answers can be
    described.  [env_sigint] and [env_sigterm] give the tick before which
    the first signal of that kind is delivered. *)
Record Env : Type := mk_Env
  { env_stod : string -> option double;
    env_stoi : string -> option Z;
    env_sigint : option nat;
    env_sigterm : option nat;
    env_num_cameras : nat -> Z;
    env_camera_property : nat -> ASI_ERROR_CODE * ASI_CAMERA_INFO;
    env_open_camera : nat -> ASI_ERROR_CODE;
    env_init_camera : nat -> ASI_ERROR_CODE;
    env_start_exposure : nat -> ASI_ERROR_CODE;
    env_exp_status : nat -> ASI_EXPOSURE_STATUS;
    env_get_data : nat -> ASI_ERROR_CODE;
    env_memory : Z -> bool;            (* can that many bytes be allocated *)
    env_clock : nat -> timeval;
    env_localtime : Z -> option tm;    (* [None]: a null pointer *)
    env_open_file : nat -> string -> bool }.

Definition delivered (at_tick : option nat) (now : nat) : bool :=
  match at_tick with
  | Some s => (s <=? now)%nat
  | None => false
  end.

(** [signal_handler] has run by tick [now]: [keep_running] is 0. *)
Definition shutdown_requested (env : Env) (now : nat) : bool :=
  delivered (env_sigint env) now || delivered (env_sigterm env) now.

(** ** The monad *)

Inductive Abnormal : Type :=
| Uncaught_exception      (* std::terminate *)
| Undefined_behaviour
| Killed_by (sig : Signal).   (* default disposition, no handler yet *)

Inductive Result (A : Type) : Type :=
| Ret (a : A) (t : Trace)
| Abort (why : Abnormal) (t : Trace)
| OutOfFuel.

Arguments Ret {A} a t.
Arguments Abort {A} why t.
Arguments OutOfFuel {A}.

Definition M (A : Type) : Type := Env -> Trace -> Result A.

Definition ret {A : Type} (a : A) : M A := fun _ t => Ret a t.

Definition bind {A B : Type} (m : M A) (k : A -> M B) : M B :=
  fun env t =>
    match m env t with
    | Ret a t' => k a env t'
    | Abort why t' => Abort why t'
    | OutOfFuel => OutOfFuel
    end.

Notation "x <- m ;; k" := (bind m (fun x => k))
  (at level 100, m at next level, right associativity).
Notation "m ;;; k" := (bind m (fun _ => k))
  (at level 100, right associativity).

Definition abort {A : Type} (why : Abnormal) : M A := fun _ t => Abort why t.
Definition out_of_fuel {A : Type} : M A := fun _ _ => OutOfFuel.

(** Perform one action: ask the environment at the current tick and record
    the action with its answer. *)
Definition act {A : Type} (answer : Env -> nat -> A) (ev : A -> Event) : M A :=
  fun env t => let a := answer env (List.length t) in Ret a (t ++ [ev a]).

Definition emit (ev : Event) : M unit := act (fun _ _ => tt) (fun _ => ev).

(** *** The actions of the program *)

(** [signal(sig, signal_handler)].  If [sig] reached the process before this
    call, the default disposition has already ended the process.  The end
    is observed at the call for [sig] itself: a SIGTERM that arrives before
    the first call shows after the record of that call, where the process
    has in fact ended before it.  [handlers_installed] excludes both. *)
Definition pending (env : Env) (sig : Signal) : option nat :=
  match sig with SIGINT => env_sigint env | SIGTERM => env_sigterm env end.

Definition signal (sig : Signal) : M unit :=
  fun env t =>
    if delivered (pending env sig) (List.length t)
    then Abort (Killed_by sig) t
    else emit (EvSignal sig) env t.

Definition keep_running : M bool :=
  act (fun env now => negb (shutdown_requested env now)) EvKeepRunning.

Definition print (to : Stream) (line : list Piece) : M unit := emit (EvPrint to line).
Definition cout : list Piece -> M unit := print Cout.
Definition cerr : list Piece -> M unit := print Cerr.

Definition ASIGetNumOfConnectedCameras : M Z :=
  act env_num_cameras EvGetNumOfConnectedCameras.

Definition ASIGetCameraProperty (index : Z) : M (ASI_ERROR_CODE * ASI_CAMERA_INFO) :=
  act env_camera_property (fun a => EvGetCameraProperty index (fst a) (snd a)).

Definition ASIOpenCamera (id : Z) : M ASI_ERROR_CODE :=
  act env_open_camera (EvOpenCamera id).

Definition ASIInitCamera (id : Z) : M ASI_ERROR_CODE :=
  act env_init_camera (EvInitCamera id).

(** The results of the next two calls are not looked at by the program. *)
Definition ASISetROIFormat (id width height bin : Z) (t : ASI_IMG_TYPE) : M unit :=
  emit (EvSetROIFormat id width height bin t).

Definition ASISetControlValue (id : Z) (c : ASI_CONTROL_TYPE) (v : Z) (auto : ASI_BOOL)
  : M unit :=
  emit (EvSetControlValue id c v auto).

Definition ASIStartExposure (id : Z) (is_dark : ASI_BOOL) : M ASI_ERROR_CODE :=
  act env_start_exposure (EvStartExposure id is_dark).

(** The status the call leaves in [exp_status]; its own result is dropped. *)
Definition ASIGetExpStatus (id : Z) : M ASI_EXPOSURE_STATUS :=
  act env_exp_status (EvGetExpStatus id).

Definition ASIGetDataAfterExp (id : Z) (size : Z) : M ASI_ERROR_CODE :=
  act env_get_data (EvGetDataAfterExp id size).

Definition ASICloseCamera (id : Z) : M unit := emit (EvCloseCamera id).

Definition sleep_for (milliseconds : Z) : M unit := emit (EvSleep milliseconds).

Definition gettimeofday : M timeval := act env_clock EvGetTimeOfDay.

Definition open_file (path : string) : M bool :=
  act (fun env now => env_open_file env now path) (EvOpenFile path).

Definition write_file (path : string) (count : Z) : M unit := emit (EvWrite path count).

Definition close_file (path : string) : M unit := emit (EvCloseFile path).

(** ** Conversions used by [main] *)

(** Integer part of a [double], toward zero.  [None] for NaN and the
    infinities. *)
Definition truncate (x : double) : option Z :=
  match x with
  | S754_zero _ => Some 0
  | S754_finite s m e =>
    let a := Z.shiftl (Zpos m) e in Some (if s then - a else a)
  | S754_infinity _ => None
  | S754_nan => None
  end.

(** The cast [(long) x].  It is defined only when the integer part fits a
    [long]; [None] is undefined behaviour. *)
Definition double_to_long (x : double) : option Z :=
  match truncate x with
  | Some z => if (- 2 ^ 63 <=? z) && (z <? 2 ^ 63) then Some z else None
  | None => None
  end.

(** [(long)(exposure_seconds * 1e6)] *)
Definition exposure_microseconds (exposure_seconds : double) : option Z :=
  double_to_long (dmul exposure_seconds d_1e6).

Definition bytes_per_pixel_of (bit_depth : Z) : Z := if bit_depth >? 8 then 2 else 1.

Definition img_type_of (bit_depth : Z) : ASI_IMG_TYPE :=
  if bit_depth >? 8 then ASI_IMG_RAW16 else ASI_IMG_RAW8.

(** [(long)width * (long)height * bytes_per_pixel] *)
Definition image_size_of (width height bytes_per_pixel : Z) : Z :=
  to_long (to_long (width * height) * bytes_per_pixel).

(** [vector<unsigned char> asi_image(image_size)]: a negative size, read as
    a [size_t], is above [max_size()], and the constructor throws; so does
    an allocation the system cannot serve. *)
Definition vector_alloc (size : Z) : M unit :=
  fun env t =>
    if (size <? 0) || negb (env_memory env size)
    then Abort Uncaught_exception t
    else Ret tt t.

(** [localtime(&tv.tv_sec)], dereferenced right away. *)
Definition localtime (sec : Z) : M tm :=
  fun env t =>
    match env_localtime env sec with
    | Some ltm => Ret ltm t
    | None => Abort Undefined_behaviour t
    end.

Definition make_filename_from_time : M string :=
  tv <- gettimeofday ;;
  ltm <- localtime (tv_sec tv) ;;
  ret (filename_of tv ltm).

(** ** The capture loop *)

Definition newline : string := String (ascii_of_nat 10) "".

(** [do { ASIGetExpStatus; sleep 10 ms } while (exp_status == ASI_EXP_WORKING
    && keep_running)]: the flag is read only when the status is still
    [ASI_EXP_WORKING]. *)
Fixpoint wait_exposure (fuel : nat) (id : Z) : M ASI_EXPOSURE_STATUS :=
  match fuel with
  | O => out_of_fuel
  | S fuel' =>
    exp_status <- ASIGetExpStatus id ;;
    sleep_for 10 ;;;
    match exp_status with
    | ASI_EXP_WORKING =>
      running <- keep_running ;;
      if running then wait_exposure fuel' id else ret exp_status
    | _ => ret exp_status
    end
  end.

(** [while (waited < interval_seconds && keep_running) { sleep 100 ms;
    waited += 0.1; }] *)
Fixpoint pace (fuel : nat) (interval_seconds waited : double) : M unit :=
  match fuel with
  | O => out_of_fuel
  | S fuel' =>
    if dlt waited interval_seconds then
      running <- keep_running ;;
      if running then
        sleep_for 100 ;;;
        pace fuel' interval_seconds (dadd waited d_0_1)
      else ret tt
    else ret tt
  end.

Inductive LoopControl : Type :=
| Break       (* leave the loop *)
| Continue.   (* back to the loop condition: [continue], or the end of the body *)

(** The body of [while (keep_running)]. *)
Definition capture_iteration (fuel : nat) (cfg : Config) (id image_size : Z)
  : M LoopControl :=
  started <- ASIStartExposure id ASI_FALSE ;;
  if negb (succeeded started) then
    cerr [Text "Error starting exposure"] ;;;
    ret Break
  else
    exp_status <- wait_exposure fuel id ;;
    running <- keep_running ;;
    if negb running then ret Break
    else
      match exp_status with
      | ASI_EXP_SUCCESS =>
        fetched <- ASIGetDataAfterExp id image_size ;;
        if negb (succeeded fetched) then
          cerr [Text "Error retrieving image data"] ;;;
          ret Continue
        else
          filename <- make_filename_from_time ;;
          let fullpath := (output_dir cfg ++ "/" ++ filename)%string in
          opened <- open_file fullpath ;;
          if negb opened then
            cerr [Text "Error opening file for writing: "; Text fullpath] ;;;
            ret Continue
          else
            write_file fullpath image_size ;;;
            close_file fullpath ;;;
            cout [Text "✓ Saved "; Text fullpath] ;;;
            pace fuel (interval_seconds cfg) d_0_0 ;;;
            ret Continue
      | _ =>
        cerr [Text "Exposure failed, skipping frame"] ;;;
        ret Continue
      end.

Fixpoint capture_loop (fuel : nat) (cfg : Config) (id image_size : Z) : M unit :=
  match fuel with
  | O => out_of_fuel
  | S fuel' =>
    running <- keep_running ;;
    if running then
      control <- capture_iteration fuel' cfg id image_size ;;
      match control with
      | Break => ret tt
      | Continue => capture_loop fuel' cfg id image_size
      end
    else ret tt
  end.

(** From the loop to [return 0]. *)
Definition capture_and_close (fuel : nat) (cfg : Config) (id image_size : Z) : M Z :=
  capture_loop fuel cfg id image_size ;;;
  cout [Text (newline ++ "Stopping capture...")%string] ;;;
  ASICloseCamera id ;;;
  cout [Text "Camera closed. Exiting."] ;;;
  ret 0.

(** ** [main] *)

(** Opening and initializing, joined by [||]: the camera is initialized only
    if it opened.  The result is the value of the whole condition. *)
Definition open_or_init_failed (id : Z) : M bool :=
  opened <- ASIOpenCamera id ;;
  if negb (succeeded opened) then ret true
  else
    initialized <- ASIInitCamera id ;;
    ret (negb (succeeded initialized)).

(** [args] is [argv[1]] to [argv[argc-1]]. *)
Definition main (fuel : nat) (args : list string) : M Z :=
  fun env =>
  match parse_args (env_stod env) (env_stoi env) default_config args with
  | None => abort Uncaught_exception env
  | Some cfg =>
   (signal SIGINT ;;;
    signal SIGTERM ;;;
    cout [Text "Starting continuous ZWO ASICamera capture..."] ;;;
    cout [Text "Output directory: "; Text (output_dir cfg)] ;;;
    cout [Text "Exposure time: "; Real (exposure_seconds cfg); Text " s"] ;;;
    cout [Text "Gain: "; Int (gain_value cfg)] ;;;
    cout [Text "Interval: "; Real (interval_seconds cfg); Text " s"] ;;;
    connected_cameras <- ASIGetNumOfConnectedCameras ;;
    if connected_cameras <? 1 then
      cerr [Text "No cameras connected!"] ;;;
      ret 1
    else
      property <- ASIGetCameraProperty 0 ;;
      let camera_info := snd property in
      if negb (succeeded (fst property)) then
        cerr [Text "Error retrieving camera properties!"] ;;;
        ret 1
      else
        let width := to_int (MaxWidth camera_info) in
        let height := to_int (MaxHeight camera_info) in
        let bytes_per_pixel := bytes_per_pixel_of (BitDepth camera_info) in
        let image_size := image_size_of width height bytes_per_pixel in
        failed <- open_or_init_failed (CameraID camera_info) ;;
        if (failed : bool) then
          cerr [Text "Error initializing camera"] ;;;
          ret 1
        else
          ASISetROIFormat (CameraID camera_info) width height 1
                          (img_type_of (BitDepth camera_info)) ;;;
          match exposure_microseconds (exposure_seconds cfg) with
          | None => abort Undefined_behaviour
          | Some exposure_us =>
            ASISetControlValue (CameraID camera_info) ASI_EXPOSURE exposure_us ASI_FALSE ;;;
            ASISetControlValue (CameraID camera_info) ASI_GAIN (gain_value cfg) ASI_FALSE ;;;
            vector_alloc image_size ;;;
            cout [Text "Camera initialized. Beginning capture loop..."] ;;;
            capture_and_close fuel cfg (CameraID camera_info) image_size
          end) env
  end.

(** ** Vocabulary for statements about traces *)

(** The trace a run ends with, if it ends. *)
Definition trace_of {A : Type} (r : Result A) : option Trace :=
  match r with
  | Ret _ t => Some t
  | Abort _ t => Some t
  | OutOfFuel => None
  end.

(** [k] rounds of the status poll that found the exposure still under way
    and the flag still clear. *)
Fixpoint polling (id : Z) (k : nat) : Trace :=
  match k with
  | O => []
  | S k' =>
    EvGetExpStatus id ASI_EXP_WORKING :: EvSleep 10 :: EvKeepRunning true
      :: polling id k'
  end.

(** The last round of the poll, which delivered [status]. *)
Definition last_poll (id : Z) (status : ASI_EXPOSURE_STATUS) : Trace :=
  EvGetExpStatus id status :: EvSleep 10
    :: match status with
       | ASI_EXP_WORKING => [EvKeepRunning false]
       | _ => []
       end.

(** [k] slices of the pacing wait, and the value of [waited] after them. *)
Fixpoint pacing (k : nat) : Trace :=
  match k with
  | O => []
  | S k' => EvKeepRunning true :: EvSleep 100 :: pacing k'
  end.

Fixpoint waited_after (k : nat) (waited : double) : double :=
  match k with
  | O => waited
  | S k' => waited_after k' (dadd waited d_0_1)
  end.

(** [m * 2^e] lies within half a unit of its last place of [M * 2^E]. *)
Definition within_half_ulp (M E m e : Z) : Prop :=
  E <= e /\ 2 * Z.abs (m * 2 ^ (e - E) - M) <= 2 ^ (e - E).

(** [shr_rep M n r]: the record [r] holds [M] shifted right by [n] places,
    with the position of the lost bits against half a unit. *)
Definition shr_rep (M n : Z) (r : shr_record) : Prop :=
  shr_m r = M / 2 ^ n /\
  match loc_of_shr_record r with
  | loc_Exact => M mod 2 ^ n = 0
  | loc_Inexact c => M mod 2 ^ n <> 0 /\ (2 * (M mod 2 ^ n) ?= 2 ^ n) = c
  end.

Definition is_trigger (e : Event) : bool :=
  match e with EvStartExposure _ _ _ => true | _ => false end.

Definition is_fetch (e : Event) : bool :=
  match e with EvGetDataAfterExp _ _ _ => true | _ => false end.

Definition is_file_event (e : Event) : bool :=
  match e with
  | EvOpenFile _ _ | EvWrite _ _ | EvCloseFile _ => true
  | _ => false
  end.


Definition is_exposure_control (e : Event) : bool :=
  match e with EvSetControlValue _ ASI_EXPOSURE _ _ => true | _ => false end.

Definition is_camera_close (e : Event) : bool :=
  match e with EvCloseCamera _ => true | _ => false end.

Definition is_camera_open (e : Event) : bool :=
  match e with EvOpenCamera _ ASI_SUCCESS => true | _ => false end.

Definition count (p : Event -> bool) (t : Trace) : nat := List.length (filter p t).

(** Every file action of a trace belongs either to an open that failed or
    to a complete open, write of [size] bytes, close on one path. *)
Inductive files_wf (size : Z) : Trace -> Prop :=
| files_wf_nil : files_wf size []
| files_wf_other e t :
    is_file_event e = false -> files_wf size t -> files_wf size (e :: t)
| files_wf_refused path t :
    files_wf size t -> files_wf size (EvOpenFile path false :: t)
| files_wf_saved path t :
    files_wf size t ->
    files_wf size (EvOpenFile path true :: EvWrite path size :: EvCloseFile path :: t).

Definition is_write (e : Event) : bool :=
  match e with EvWrite _ _ => true | _ => false end.


(** ** The exits of the loop body *)

Definition fullpath_of (cfg : Config) (tv : timeval) (ltm : tm) : string :=
  (output_dir cfg ++ "/" ++ filename_of tv ltm)%string.

Definition saved_line (fullpath : string) : Event :=
  EvPrint Cout [Text "✓ Saved "; Text fullpath].

(** Each way one run of the body can end, with the trace it leaves.  [t] is
    the trace when the body is entered; [t_w] the trace when the status
    poll returns. *)
Inductive iteration_outcome (fuel : nat) (cfg : Config) (id size : Z) (env : Env)
  (t : Trace) : Result LoopControl -> Prop :=
| start_failed r :
    env_start_exposure env (List.length t) = r -> succeeded r = false ->
    iteration_outcome fuel cfg id size env t
      (Ret Break (t ++ [EvStartExposure id ASI_FALSE r;
                        EvPrint Cerr [Text "Error starting exposure"]]))
| poll_unfinished :
    wait_exposure fuel id env (t ++ [EvStartExposure id ASI_FALSE ASI_SUCCESS])
      = OutOfFuel ->
    iteration_outcome fuel cfg id size env t OutOfFuel
| interrupted status t_w :
    wait_exposure fuel id env (t ++ [EvStartExposure id ASI_FALSE ASI_SUCCESS])
      = Ret status t_w ->
    shutdown_requested env (List.length t_w) = true ->
    iteration_outcome fuel cfg id size env t (Ret Break (t_w ++ [EvKeepRunning false]))
| exposure_failed status t_w :
    wait_exposure fuel id env (t ++ [EvStartExposure id ASI_FALSE ASI_SUCCESS])
      = Ret status t_w ->
    shutdown_requested env (List.length t_w) = false ->
    status <> ASI_EXP_SUCCESS ->
    iteration_outcome fuel cfg id size env t
      (Ret Continue (t_w ++ [EvKeepRunning true;
                             EvPrint Cerr [Text "Exposure failed, skipping frame"]]))
| fetch_failed t_w r :
    wait_exposure fuel id env (t ++ [EvStartExposure id ASI_FALSE ASI_SUCCESS])
      = Ret ASI_EXP_SUCCESS t_w ->
    shutdown_requested env (List.length t_w) = false ->
    succeeded r = false ->
    iteration_outcome fuel cfg id size env t
      (Ret Continue (t_w ++ [EvKeepRunning true; EvGetDataAfterExp id size r;
                             EvPrint Cerr [Text "Error retrieving image data"]]))
| no_local_time t_w tv :
    wait_exposure fuel id env (t ++ [EvStartExposure id ASI_FALSE ASI_SUCCESS])
      = Ret ASI_EXP_SUCCESS t_w ->
    shutdown_requested env (List.length t_w) = false ->
    env_localtime env (tv_sec tv) = None ->
    iteration_outcome fuel cfg id size env t
      (Abort Undefined_behaviour
             (t_w ++ [EvKeepRunning true; EvGetDataAfterExp id size ASI_SUCCESS;
                      EvGetTimeOfDay tv]))
| open_failed t_w tv ltm :
    wait_exposure fuel id env (t ++ [EvStartExposure id ASI_FALSE ASI_SUCCESS])
      = Ret ASI_EXP_SUCCESS t_w ->
    shutdown_requested env (List.length t_w) = false ->
    iteration_outcome fuel cfg id size env t
      (Ret Continue
           (t_w ++ [EvKeepRunning true; EvGetDataAfterExp id size ASI_SUCCESS;
                    EvGetTimeOfDay tv; EvOpenFile (fullpath_of cfg tv ltm) false;
                    EvPrint Cerr [Text "Error opening file for writing: ";
                                  Text (fullpath_of cfg tv ltm)]]))
| saved t_w tv ltm r :
    wait_exposure fuel id env (t ++ [EvStartExposure id ASI_FALSE ASI_SUCCESS])
      = Ret ASI_EXP_SUCCESS t_w ->
    shutdown_requested env (List.length t_w) = false ->
    pace fuel (interval_seconds cfg) d_0_0 env
         (t_w ++ [EvKeepRunning true; EvGetDataAfterExp id size ASI_SUCCESS;
                  EvGetTimeOfDay tv; EvOpenFile (fullpath_of cfg tv ltm) true;
                  EvWrite (fullpath_of cfg tv ltm) size;
                  EvCloseFile (fullpath_of cfg tv ltm);
                  saved_line (fullpath_of cfg tv ltm)]) = r ->
    iteration_outcome fuel cfg id size env t
      (match r with
       | Ret _ t_p => Ret Continue t_p
       | Abort why t_p => Abort why t_p
       | OutOfFuel => OutOfFuel
       end).

(** ** The shape of the traces of the loop *)

(** The events of one run of the body, whichever way it ends. *)
Inductive iteration_events (cfg : Config) (id size : Z) : Trace -> Prop :=
| events_start_failed r :
    succeeded r = false ->
    iteration_events cfg id size
      [EvStartExposure id ASI_FALSE r; EvPrint Cerr [Text "Error starting exposure"]]
| events_interrupted k status :
    iteration_events cfg id size
      (EvStartExposure id ASI_FALSE ASI_SUCCESS
         :: polling id k ++ last_poll id status ++ [EvKeepRunning false])
| events_exposure_failed k status :
    status <> ASI_EXP_SUCCESS ->
    iteration_events cfg id size
      (EvStartExposure id ASI_FALSE ASI_SUCCESS
         :: polling id k ++ last_poll id status
         ++ [EvKeepRunning true; EvPrint Cerr [Text "Exposure failed, skipping frame"]])
| events_fetch_failed k r :
    succeeded r = false ->
    iteration_events cfg id size
      (EvStartExposure id ASI_FALSE ASI_SUCCESS
         :: polling id k ++ last_poll id ASI_EXP_SUCCESS
         ++ [EvKeepRunning true; EvGetDataAfterExp id size r;
             EvPrint Cerr [Text "Error retrieving image data"]])
| events_no_local_time k tv :
    iteration_events cfg id size
      (EvStartExposure id ASI_FALSE ASI_SUCCESS
         :: polling id k ++ last_poll id ASI_EXP_SUCCESS
         ++ [EvKeepRunning true; EvGetDataAfterExp id size ASI_SUCCESS;
             EvGetTimeOfDay tv])
| events_open_failed k tv ltm :
    iteration_events cfg id size
      (EvStartExposure id ASI_FALSE ASI_SUCCESS
         :: polling id k ++ last_poll id ASI_EXP_SUCCESS
         ++ [EvKeepRunning true; EvGetDataAfterExp id size ASI_SUCCESS;
             EvGetTimeOfDay tv; EvOpenFile (fullpath_of cfg tv ltm) false;
             EvPrint Cerr [Text "Error opening file for writing: ";
                           Text (fullpath_of cfg tv ltm)]])
| events_saved k tv ltm n cut_short :
    iteration_events cfg id size
      (EvStartExposure id ASI_FALSE ASI_SUCCESS
         :: polling id k ++ last_poll id ASI_EXP_SUCCESS
         ++ [EvKeepRunning true; EvGetDataAfterExp id size ASI_SUCCESS;
             EvGetTimeOfDay tv; EvOpenFile (fullpath_of cfg tv ltm) true;
             EvWrite (fullpath_of cfg tv ltm) size;
             EvCloseFile (fullpath_of cfg tv ltm);
             saved_line (fullpath_of cfg tv ltm)]
         ++ pacing n ++ (if (cut_short : bool) then [EvKeepRunning false] else [])).

(** The events of the whole loop: reads of the flag that found it clear,
    each followed by a run of the body, and possibly a last read that found
    it set. *)
Inductive loop_events (cfg : Config) (id size : Z) : Trace -> Prop :=
| loop_left_on_flag : loop_events cfg id size [EvKeepRunning false]
| loop_left_in_body iteration :
    iteration_events cfg id size iteration ->
    loop_events cfg id size (EvKeepRunning true :: iteration)
| loop_again iteration rest :
    iteration_events cfg id size iteration ->
    loop_events cfg id size rest ->
    loop_events cfg id size (EvKeepRunning true :: iteration ++ rest).

(** What [main] does after the loop. *)
Definition closing (id : Z) : Trace :=
  [EvPrint Cout [Text (newline ++ "Stopping capture...")%string];
   EvCloseCamera id;
   EvPrint Cout [Text "Camera closed. Exiting."]].

(** ** The start of a run *)

(** The handlers are installed at ticks 0 and 1: no SIGINT before tick 1 and
    no SIGTERM before tick 2 means that no signal meets the default
    disposition. *)
Definition handlers_installed (env : Env) : Prop :=
  delivered (env_sigint env) 0 = false /\ delivered (env_sigterm env) 1 = false.

Definition banner (cfg : Config) : Trace :=
  [EvSignal SIGINT; EvSignal SIGTERM;
   EvPrint Cout [Text "Starting continuous ZWO ASICamera capture..."];
   EvPrint Cout [Text "Output directory: "; Text (output_dir cfg)];
   EvPrint Cout [Text "Exposure time: "; Real (exposure_seconds cfg); Text " s"];
   EvPrint Cout [Text "Gain: "; Int (gain_value cfg)];
   EvPrint Cout [Text "Interval: "; Real (interval_seconds cfg); Text " s"]].

(** The answers of the four calls made before the camera is configured, at
    the ticks at which [main] makes them. *)
Definition cameras_found (env : Env) : Z := env_num_cameras env 7.
Definition property_result (env : Env) : ASI_ERROR_CODE := fst (env_camera_property env 8).
Definition camera_info_of (env : Env) : ASI_CAMERA_INFO := snd (env_camera_property env 8).
Definition open_result (env : Env) : ASI_ERROR_CODE := env_open_camera env 9.
Definition init_result (env : Env) : ASI_ERROR_CODE := env_init_camera env 10.

Definition frame_width (info : ASI_CAMERA_INFO) : Z := to_int (MaxWidth info).
Definition frame_height (info : ASI_CAMERA_INFO) : Z := to_int (MaxHeight info).
Definition frame_bytes_per_pixel (info : ASI_CAMERA_INFO) : Z :=
  bytes_per_pixel_of (BitDepth info).
Definition frame_size (info : ASI_CAMERA_INFO) : Z :=
  image_size_of (frame_width info) (frame_height info) (frame_bytes_per_pixel info).

(** The trace up to the query of the camera properties. *)
Definition discovered (env : Env) (cfg : Config) : Trace :=
  banner cfg ++
  [EvGetNumOfConnectedCameras (cameras_found env);
   EvGetCameraProperty 0 (property_result env) (camera_info_of env)].

(** The trace when the loop is entered, [exposure_us] being the value of the
    exposure control. *)
Definition configured (env : Env) (cfg : Config) (exposure_us : Z) : Trace :=
  discovered env cfg ++
  [EvOpenCamera (CameraID (camera_info_of env)) ASI_SUCCESS;
   EvInitCamera (CameraID (camera_info_of env)) ASI_SUCCESS;
   EvSetROIFormat (CameraID (camera_info_of env))
                  (frame_width (camera_info_of env)) (frame_height (camera_info_of env)) 1
                  (img_type_of (BitDepth (camera_info_of env)));
   EvSetControlValue (CameraID (camera_info_of env)) ASI_EXPOSURE exposure_us ASI_FALSE;
   EvSetControlValue (CameraID (camera_info_of env)) ASI_GAIN (gain_value cfg) ASI_FALSE;
   EvPrint Cout [Text "Camera initialized. Beginning capture loop..."]].

(** The camera was found, described, opened and initialized. *)
Definition camera_ready (env : Env) : Prop :=
  1 <= cameras_found env /\ property_result env = ASI_SUCCESS /\
  open_result env = ASI_SUCCESS /\ init_result env = ASI_SUCCESS.

(** Nothing ends the run abnormally once the camera is ready: the exposure
    time converts, the frame buffer can be allocated, [localtime] answers. *)
Definition runs_normally (env : Env) (cfg : Config) : Prop :=
  exposure_microseconds (exposure_seconds cfg) <> None /\
  0 <= frame_size (camera_info_of env) /\
  env_memory env (frame_size (camera_info_of env)) = true /\
  forall sec, env_localtime env sec <> None.

(** ** Concrete environments *)

(** A stand-in for [std::stoi] on plain decimal text, and one for
    [std::stod] that knows a few spellings.  [std::stoi] also accepts
    leading blanks, a sign [+] and text after the digits, which
    [stoi_decimal] rejects: it serves for the examples, whose texts are
    plain digits or no number at all. *)
Definition stoi_decimal (s : string) : option Z :=
  match NilZero.int_of_string s with
  | Some d => let z := Z.of_int d in
              if (- 2 ^ 31 <=? z) && (z <? 2 ^ 31) then Some z else None
  | None => None
  end.

Definition stod_table (s : string) : option double :=
  if (s =? "0")%string then Some d_0_0
  else if (s =? "0.1")%string then Some d_0_1
  else if (s =? "1.0")%string then Some d_1_0
  else if (s =? "1.5")%string then Some d_1_5
  else if (s =? "1e13")%string then Some d_1e13
  else None.

(** A 4 x 3 camera with 12-bit samples. *)
Definition small_camera : ASI_CAMERA_INFO :=
  {| CameraID := 0; MaxHeight := 3; MaxWidth := 4; BitDepth := 12 |}.

(** 2026-10-30 09:07:05 local time. *)
Definition sample_tm : tm :=
  {| tm_sec := 5; tm_min := 7; tm_hour := 9; tm_mday := 30; tm_mon := 9; tm_year := 126 |}.

(** Everything works, every exposure is complete at the first poll, no
    signal ever arrives. *)
Definition healthy_env : Env :=
  {| env_stod := stod_table;
     env_stoi := stoi_decimal;
     env_sigint := None;
     env_sigterm := None;
     env_num_cameras := fun _ => 1;
     env_camera_property := fun _ => (ASI_SUCCESS, small_camera);
     env_open_camera := fun _ => ASI_SUCCESS;
     env_init_camera := fun _ => ASI_SUCCESS;
     env_start_exposure := fun _ => ASI_SUCCESS;
     env_exp_status := fun _ => ASI_EXP_SUCCESS;
     env_get_data := fun _ => ASI_SUCCESS;
     env_memory := fun _ => true;
     env_clock := fun now => {| tv_sec := 1793351225; tv_usec := 1000 * Z.of_nat now |};
     env_localtime := fun _ => Some sample_tm;
     env_open_file := fun _ _ => true |}.

Definition with_sigint (at_tick : nat) (env : Env) : Env :=
  {| env_stod := env_stod env;
     env_stoi := env_stoi env;
     env_sigint := Some at_tick;
     env_sigterm := env_sigterm env;
     env_num_cameras := env_num_cameras env;
     env_camera_property := env_camera_property env;
     env_open_camera := env_open_camera env;
     env_init_camera := env_init_camera env;
     env_start_exposure := env_start_exposure env;
     env_exp_status := env_exp_status env;
     env_get_data := env_get_data env;
     env_memory := env_memory env;
     env_clock := env_clock env;
     env_localtime := env_localtime env;
     env_open_file := env_open_file env |}.

(** Environments that differ from another in one answer. *)
Definition with_start_exposure (f : nat -> ASI_ERROR_CODE) (env : Env) : Env :=
  {| env_stod := env_stod env;
     env_stoi := env_stoi env;
     env_sigint := env_sigint env;
     env_sigterm := env_sigterm env;
     env_num_cameras := env_num_cameras env;
     env_camera_property := env_camera_property env;
     env_open_camera := env_open_camera env;
     env_init_camera := env_init_camera env;
     env_start_exposure := f;
     env_exp_status := env_exp_status env;
     env_get_data := env_get_data env;
     env_memory := env_memory env;
     env_clock := env_clock env;
     env_localtime := env_localtime env;
     env_open_file := env_open_file env |}.

Definition with_exp_status (f : nat -> ASI_EXPOSURE_STATUS) (env : Env) : Env :=
  {| env_stod := env_stod env;
     env_stoi := env_stoi env;
     env_sigint := env_sigint env;
     env_sigterm := env_sigterm env;
     env_num_cameras := env_num_cameras env;
     env_camera_property := env_camera_property env;
     env_open_camera := env_open_camera env;
     env_init_camera := env_init_camera env;
     env_start_exposure := env_start_exposure env;
     env_exp_status := f;
     env_get_data := env_get_data env;
     env_memory := env_memory env;
     env_clock := env_clock env;
     env_localtime := env_localtime env;
     env_open_file := env_open_file env |}.

Definition with_init_camera (f : nat -> ASI_ERROR_CODE) (env : Env) : Env :=
  {| env_stod := env_stod env;
     env_stoi := env_stoi env;
     env_sigint := env_sigint env;
     env_sigterm := env_sigterm env;
     env_num_cameras := env_num_cameras env;
     env_camera_property := env_camera_property env;
     env_open_camera := env_open_camera env;
     env_init_camera := f;
     env_start_exposure := env_start_exposure env;
     env_exp_status := env_exp_status env;
     env_get_data := env_get_data env;
     env_memory := env_memory env;
     env_clock := env_clock env;
     env_localtime := env_localtime env;
     env_open_file := env_open_file env |}.

Definition with_num_cameras (f : nat -> Z) (env : Env) : Env :=
  {| env_stod := env_stod env;
     env_stoi := env_stoi env;
     env_sigint := env_sigint env;
     env_sigterm := env_sigterm env;
     env_num_cameras := f;
     env_camera_property := env_camera_property env;
     env_open_camera := env_open_camera env;
     env_init_camera := env_init_camera env;
     env_start_exposure := env_start_exposure env;
     env_exp_status := env_exp_status env;
     env_get_data := env_get_data env;
     env_memory := env_memory env;
     env_clock := env_clock env;
     env_localtime := env_localtime env;
     env_open_file := env_open_file env |}.

(** Every exposure ends in [ASI_EXP_FAILED]; SIGINT arrives at tick 30. *)
Definition failing_exposures_env : Env :=
  with_exp_status (fun _ => ASI_EXP_FAILED) (with_sigint 30 healthy_env).


(** No camera is connected. *)
Definition no_camera_env : Env := with_num_cameras (fun _ => 0) healthy_env.

(** The camera opens, but its initialization fails. *)
Definition init_failure_env : Env := with_init_camera (fun _ => ASI_ERROR 1) healthy_env.

(** ** Vocabulary for further properties *)

(** *** File names in order *)

(** The fields a name shows, the most significant first. *)
Definition stamp (tv : timeval) (ltm : tm) : list Z :=
  [1900 + tm_year ltm; 1 + tm_mon ltm; tm_mday ltm; tm_hour ltm; tm_min ltm;
   tm_sec ltm; millis tv].

(** Comparison of two such lists, field by field. *)
Fixpoint lex_compare (a b : list Z) : comparison :=
  match a, b with
  | [], [] => Eq
  | [], _ :: _ => Lt
  | _ :: _, [] => Gt
  | x :: a', y :: b' =>
    match x ?= y with
    | Eq => lex_compare a' b'
    | c => c
    end
  end.

(** *** The actions of a whole run *)

(** What one action of the loop can be, for the camera [id] and a frame
    buffer of [size] bytes. *)
Definition loop_event (cfg : Config) (id size : Z) (e : Event) : Prop :=
  match e with
  | EvKeepRunning _ => True
  | EvStartExposure i is_dark _ => i = id /\ is_dark = ASI_FALSE
  | EvGetExpStatus i _ => i = id
  | EvSleep ms => ms = 10 \/ ms = 100
  | EvGetDataAfterExp i n _ => i = id /\ n = size
  | EvGetTimeOfDay _ => True
  | EvOpenFile path _ => exists tv ltm, path = fullpath_of cfg tv ltm
  | EvWrite path n => (exists tv ltm, path = fullpath_of cfg tv ltm) /\ n = size
  | EvCloseFile path => exists tv ltm, path = fullpath_of cfg tv ltm
  | EvPrint Cerr line =>
    line = [Text "Error starting exposure"] \/
    line = [Text "Exposure failed, skipping frame"] \/
    line = [Text "Error retrieving image data"] \/
    exists tv ltm, line = [Text "Error opening file for writing: ";
                           Text (fullpath_of cfg tv ltm)]
  | EvPrint Cout _ => exists tv ltm, e = saved_line (fullpath_of cfg tv ltm)
  | _ => False
  end.

(** The camera calls made once the camera is there: open, initialize, set
    the region of interest. *)
Definition opened (env : Env) : Trace :=
  [EvOpenCamera (CameraID (camera_info_of env)) ASI_SUCCESS;
   EvInitCamera (CameraID (camera_info_of env)) ASI_SUCCESS;
   EvSetROIFormat (CameraID (camera_info_of env))
                  (frame_width (camera_info_of env)) (frame_height (camera_info_of env)) 1
                  (img_type_of (BitDepth (camera_info_of env)))].

(** Every trace [main] can leave once the command line is parsed and the
    handlers are installed, exit by exit. *)
Inductive main_trace (env : Env) (cfg : Config) : Trace -> Prop :=
| trace_no_camera :
    cameras_found env < 1 ->
    main_trace env cfg
      (banner cfg ++ [EvGetNumOfConnectedCameras (cameras_found env);
                      EvPrint Cerr [Text "No cameras connected!"]])
| trace_no_property :
    1 <= cameras_found env -> property_result env <> ASI_SUCCESS ->
    main_trace env cfg
      (discovered env cfg ++ [EvPrint Cerr [Text "Error retrieving camera properties!"]])
| trace_open_failed :
    1 <= cameras_found env -> property_result env = ASI_SUCCESS ->
    open_result env <> ASI_SUCCESS ->
    main_trace env cfg
      (discovered env cfg ++
       [EvOpenCamera (CameraID (camera_info_of env)) (open_result env);
        EvPrint Cerr [Text "Error initializing camera"]])
| trace_init_failed :
    1 <= cameras_found env -> property_result env = ASI_SUCCESS ->
    open_result env = ASI_SUCCESS -> init_result env <> ASI_SUCCESS ->
    main_trace env cfg
      (discovered env cfg ++
       [EvOpenCamera (CameraID (camera_info_of env)) ASI_SUCCESS;
        EvInitCamera (CameraID (camera_info_of env)) (init_result env);
        EvPrint Cerr [Text "Error initializing camera"]])
| trace_exposure_undefined :
    camera_ready env -> exposure_microseconds (exposure_seconds cfg) = None ->
    main_trace env cfg (discovered env cfg ++ opened env)
| trace_no_buffer exposure_us :
    camera_ready env -> exposure_microseconds (exposure_seconds cfg) = Some exposure_us ->
    frame_size (camera_info_of env) < 0
    \/ env_memory env (frame_size (camera_info_of env)) = false ->
    main_trace env cfg
      (discovered env cfg ++ opened env ++
       [EvSetControlValue (CameraID (camera_info_of env)) ASI_EXPOSURE exposure_us ASI_FALSE;
        EvSetControlValue (CameraID (camera_info_of env)) ASI_GAIN (gain_value cfg)
                          ASI_FALSE])
| trace_in_loop exposure_us new :
    camera_ready env -> exposure_microseconds (exposure_seconds cfg) = Some exposure_us ->
    0 <= frame_size (camera_info_of env) ->
    loop_events cfg (CameraID (camera_info_of env)) (frame_size (camera_info_of env)) new ->
    main_trace env cfg (configured env cfg exposure_us ++ new)
| trace_returned exposure_us new :
    camera_ready env -> exposure_microseconds (exposure_seconds cfg) = Some exposure_us ->
    0 <= frame_size (camera_info_of env) ->
    loop_events cfg (CameraID (camera_info_of env)) (frame_size (camera_info_of env)) new ->
    main_trace env cfg
      (configured env cfg exposure_us ++ new ++ closing (CameraID (camera_info_of env))).

(** The camera a driver call addresses. *)
Definition camera_of (e : Event) : option Z :=
  match e with
  | EvOpenCamera id _ | EvInitCamera id _ | EvSetROIFormat id _ _ _ _
  | EvSetControlValue id _ _ _ | EvStartExposure id _ _ | EvGetExpStatus id _
  | EvGetDataAfterExp id _ _ | EvCloseCamera id => Some id
  | _ => None
  end.

(** What one action of a run of [main] can be: the calls of the start and
    of the end with their arguments, or an action of the loop. *)
Definition main_event (env : Env) (cfg : Config) (e : Event) : Prop :=
  match e with
  | EvSignal _ => True
  | EvPrint _ _ => True
  | EvGetNumOfConnectedCameras n => n = cameras_found env
  | EvGetCameraProperty index r info =>
    index = 0 /\ r = property_result env /\ info = camera_info_of env
  | EvOpenCamera id r => id = CameraID (camera_info_of env) /\ r = open_result env
  | EvInitCamera id r => id = CameraID (camera_info_of env) /\ r = init_result env
  | EvSetROIFormat id width height bin img_type =>
    id = CameraID (camera_info_of env) /\
    width = frame_width (camera_info_of env) /\
    height = frame_height (camera_info_of env) /\
    bin = 1 /\ img_type = img_type_of (BitDepth (camera_info_of env))
  | EvSetControlValue id control value is_auto =>
    id = CameraID (camera_info_of env) /\ is_auto = ASI_FALSE /\
    match control with
    | ASI_EXPOSURE => exposure_microseconds (exposure_seconds cfg) = Some value
    | ASI_GAIN => value = gain_value cfg
    end
  | EvCloseCamera id => id = CameraID (camera_info_of env)
  | _ =>
    0 <= frame_size (camera_info_of env) /\
    loop_event cfg (CameraID (camera_info_of env)) (frame_size (camera_info_of env)) e
  end.

(** The calls that configure the camera. *)
Definition is_roi (e : Event) : bool :=
  match e with EvSetROIFormat _ _ _ _ _ => true | _ => false end.

Definition is_gain_control (e : Event) : bool :=
  match e with EvSetControlValue _ ASI_GAIN _ _ => true | _ => false end.

Definition is_open_file (e : Event) : bool :=
  match e with EvOpenFile _ _ => true | _ => false end.

(** Every fetch of a frame comes right after a poll that reported success
    and a read of the flag that found it clear; every opening of a file
    right after such a fetch that succeeded and the reading of the clock. *)
Inductive guarded : Trace -> Prop :=
| guarded_nil : guarded []
| guarded_other e t :
    is_fetch e = false -> is_open_file e = false -> guarded t -> guarded (e :: t)
| guarded_fetch id size r t :
    guarded t ->
    guarded (EvGetExpStatus id ASI_EXP_SUCCESS :: EvSleep 10 :: EvKeepRunning true
               :: EvGetDataAfterExp id size r :: t)
| guarded_open id size tv path ok t :
    guarded t ->
    guarded (EvGetExpStatus id ASI_EXP_SUCCESS :: EvSleep 10 :: EvKeepRunning true
               :: EvGetDataAfterExp id size ASI_SUCCESS :: EvGetTimeOfDay tv
               :: EvOpenFile path ok :: t).


(** A call that installs a signal handler. *)
Definition is_signal_call (e : Event) : bool :=
  match e with EvSignal _ => true | _ => false end.

(** The line that acknowledges a stored frame. *)
Definition is_saved_line (e : Event) : bool :=
  match e with
  | EvPrint Cout [Text head; Text _] => (head =? "✓ Saved ")%string
  | _ => false
  end.

(** A fetch of the frame that the driver answered with success. *)
Definition is_good_fetch (e : Event) : bool :=
  match e with EvGetDataAfterExp _ _ ASI_SUCCESS => true | _ => false end.

(** *** Durations *)

(** The actions of a trace performed once [keep_running] was cleared: the
    part of [t] from the first tick at which the flag is set, [now] being
    the tick of the first action of [t]. *)
Fixpoint since_shutdown (env : Env) (now : nat) (t : Trace) : Trace :=
  match t with
  | [] => []
  | e :: t' => if shutdown_requested env now then t else since_shutdown env (S now) t'
  end.

(** The time a trace spends asleep, in milliseconds. *)
Definition sleep_ms (e : Event) : Z :=
  match e with EvSleep ms => ms | _ => 0 end.

Definition sleep_time (t : Trace) : Z := fold_right Z.add 0 (map sleep_ms t).

(** Rational numbers, for exact spans of time: the library's [Q] under
    its usual notations. *)
Declare Scope rational_scope.
Delimit Scope rational_scope with rational.
Notation "a # b" := (QArith_base.Qmake a b) (at level 55, no associativity)
  : rational_scope.
Notation "a <= b" := (QArith_base.Qle a b) : rational_scope.
Notation "a < b" := (QArith_base.Qlt a b) : rational_scope.
Notation "a == b" := (QArith_base.Qeq a b) (at level 70, no associativity)
  : rational_scope.
Notation "a + b" := (QArith_base.Qplus a b) : rational_scope.
Notation "a - b" := (QArith_base.Qminus a b) : rational_scope.

(** The exact value of a finite [double], [m * 2^e] with its sign, as a
    rational number. *)
Definition Q_of_double (x : double) : QArith_base.Q :=
  match x with
  | S754_finite s m e =>
    let magnitude :=
      match e with
      | Zneg p => QArith_base.Qmake (Zpos m) (2 ^ p)%positive
      | _ => QArith_base.inject_Z (Zpos m * 2 ^ e)
      end in
    if s then QArith_base.Qopp magnitude else magnitude
  | _ => QArith_base.inject_Z 0
  end.

(** The same value counted in units of [2^-1074], the smallest positive
    [double]: an integer for every finite [double]. *)
Definition ticks (m : positive) (e : Z) : Z := Zpos m * 2 ^ (e + 1074).

(** [3600.0], one hour in seconds. *)
Definition d_3600 : double := S754_finite false 7916483719987200 (-41).

(** [waited] after [j] additions of [0.1] is zero or a valid positive
    [double], within [2^-25 / 10] (about 3 ns) of [j / 10]. *)
Definition accumulated_ok (j : Z) (waited : double) : bool :=
  match waited with
  | S754_zero false => j =? 0
  | S754_finite false m e =>
    is_double waited && (-56 <=? e)
    && (Z.abs (10 * (Zpos m * 2 ^ (e + 56)) - j * 2 ^ 56) <=? 2 ^ 31)
  | _ => false
  end.

(** The check of [n] successive values of [waited], from the [j]-th on. *)
Fixpoint accumulation_ok (n : nat) (j : Z) (waited : double) : bool :=
  match n with
  | O => true
  | S n' => accumulated_ok j waited && accumulation_ok n' (j + 1) (dadd waited d_0_1)
  end.

(** The longest pacing wait the check covers: one hour plus a slice. *)
Definition slices_in_an_hour : nat := Z.to_nat 36001.

(** *** More concrete values *)

(** One second after [sample_tm]. *)
Definition next_second_tm : tm :=
  {| tm_sec := 6; tm_min := 7; tm_hour := 9; tm_mday := 30; tm_mon := 9; tm_year := 126 |}.

(** The exposure is under way until tick 6 and complete from then on. *)
Definition slow_exposure_env : Env :=
  with_exp_status (fun tick => if (tick <? 6)%nat then ASI_EXP_WORKING else ASI_EXP_SUCCESS)
                  healthy_env.

(** * Properties *)

(** ** Strings and machine integers *)

Lemma append_assoc (a b c : string) : ((a ++ b) ++ c = a ++ (b ++ c))%string.
Proof. induction a as [|x a IH]; cbn; [reflexivity | now rewrite IH]. Qed.

Lemma append_inv_head (p a b : string) : (p ++ a = p ++ b)%string -> a = b.
Proof.
  induction p as [|x p IH]; cbn; intros H; [exact H |].
  injection H as H. now apply IH.
Qed.

Lemma wrap_small (w z : Z) :
  0 < w -> - 2 ^ (w - 1) <= z < 2 ^ (w - 1) -> wrap w z = z.
Proof.
  intros Hw Hz. unfold wrap.
  assert (E : 2 ^ w = 2 * 2 ^ (w - 1)).
  { replace w with (Z.succ (w - 1)) at 1 by lia. apply Z.pow_succ_r. lia. }
  rewrite Z.mod_small; lia.
Qed.

Lemma to_int_small (z : Z) : in_int z -> to_int z = z.
Proof. intros H. apply wrap_small; [lia | exact H]. Qed.

Lemma to_long_small (z : Z) : in_long z -> to_long z = z.
Proof. intros H. apply wrap_small; [lia | exact H]. Qed.

Lemma Z_range_forallb (P : Z -> bool) (lo n z : Z) :
  forallb P (Z_range lo n) = true -> lo <= z < lo + n -> P z = true.
Proof.
  intros H Hz. rewrite forallb_forall in H. apply H.
  unfold Z_range. apply in_map_iff. exists (Z.to_nat (z - lo)). split; [lia |].
  apply in_seq. lia.
Qed.

(** ** The file name *)

(** The stream's padded decimal output agrees with the fixed-width text on
    the ranges of the fields; each range is finite and is checked value by
    value. *)
Lemma two_digits (z : Z) :
  0 <= z < 100 -> pad_left 2 "0" (string_of_Z z) = fixed_width 2 z.
Proof.
  intros H. apply String.eqb_eq.
  apply (Z_range_forallb
           (fun z => (pad_left 2 "0" (string_of_Z z) =? fixed_width 2 z)%string) 0 100);
    [vm_compute; reflexivity | lia].
Qed.

Lemma three_digits (z : Z) :
  0 <= z < 1000 -> pad_left 3 "0" (string_of_Z z) = fixed_width 3 z.
Proof.
  intros H. apply String.eqb_eq.
  apply (Z_range_forallb
           (fun z => (pad_left 3 "0" (string_of_Z z) =? fixed_width 3 z)%string) 0 1000);
    [vm_compute; reflexivity | lia].
Qed.

Lemma four_digits (z : Z) :
  1000 <= z < 10000 -> pad_left 0 " " (string_of_Z z) = fixed_width 4 z.
Proof.
  intros H. apply String.eqb_eq.
  apply (Z_range_forallb
           (fun z => (pad_left 0 " " (string_of_Z z) =? fixed_width 4 z)%string) 1000 9000);
    [vm_compute; reflexivity | lia].
Qed.

Lemma millis_range (tv : timeval) : timeval_in_range tv -> 0 <= millis tv < 1000.
Proof.
  unfold timeval_in_range, millis. intros H.
  rewrite Z.quot_div_nonneg by lia.
  split; [apply Z.div_pos; lia | apply Z.div_lt_upper_bound; lia].
Qed.

Lemma filename_of_split (tv : timeval) (ltm : tm) :
  filename_of tv ltm =
  (date_part ltm ++ pad_left 3 "0" (string_of_Z (to_long (millis tv))) ++ ".bin")%string.
Proof.
  unfold filename_of, filename_stream, date_part, millis.
  set (D := put_string "-" _).
  unfold put_int. unfold put_string at 1 2.
  cbn [os_buf os_fill os_width setw setfill].
  rewrite append_assoc. f_equal.
Qed.

Lemma pad_left_0 (c : ascii) (s : string) : pad_left 0 c s = s.
Proof. reflexivity. Qed.

Lemma digit_char_inj (a b : Z) :
  0 <= a < 10 -> 0 <= b < 10 -> digit_char a = digit_char b -> a = b.
Proof.
  intros Ha Hb H. unfold digit_char in H.
  apply (f_equal nat_of_ascii) in H.
  rewrite !nat_ascii_embedding in H by lia. lia.
Qed.

Lemma digits_3 (a : Z) : 0 <= a < 1000 ->
  a = 100 * ((a / 100) mod 10) + 10 * ((a / 10) mod 10) + a mod 10.
Proof.
  intros Ha.
  pose proof (Z.div_mod a 10 ltac:(lia)).
  pose proof (Z.div_mod (a / 10) 10 ltac:(lia)).
  rewrite Z.div_div in * by lia. change (10 * 10) with 100 in *.
  assert (0 <= a / 100 < 10) by (split; [apply Z.div_pos | apply Z.div_lt_upper_bound]; lia).
  rewrite (Z.mod_small (a / 100)) by lia. lia.
Qed.

Lemma fixed_width_3_inj (a b : Z) :
  0 <= a < 1000 -> 0 <= b < 1000 ->
  (fixed_width 3 a ++ ".bin" = fixed_width 3 b ++ ".bin")%string -> a = b.
Proof.
  intros Ha Hb H.
  rewrite (digits_3 a Ha), (digits_3 b Hb).
  unfold fixed_width in H. cbn [String.append] in H.
  injection H as H2 H1 H0.
  apply digit_char_inj in H2, H1, H0; try (apply Z.mod_pos_bound; lia).
  change ((a / 100) mod 10 = (b / 100) mod 10) in H2.
  change ((a / 10) mod 10 = (b / 10) mod 10) in H1.
  change ((a / 1) mod 10 = (b / 1) mod 10) in H0.
  rewrite !Z.div_1_r in H0. now rewrite H2, H1, H0.
Qed.

Lemma filename_of_form (tv : timeval) (ltm : tm) :
  tm_in_range ltm -> timeval_in_range tv ->
  filename_of tv ltm =
  exposure_name_form (1900 + tm_year ltm) (1 + tm_mon ltm) (tm_mday ltm)
                     (tm_hour ltm) (tm_min ltm) (tm_sec ltm) (millis tv).
Proof.
  intros (Hs & Hmi & Hh & Hd & Hmo & Hy) Htv.
  pose proof (millis_range tv Htv) as Hms.
  rewrite filename_of_split. unfold date_part, exposure_name_form, put_int, put_string.
  cbn [os_buf os_fill os_width setw setfill empty].
  rewrite !to_int_small, to_long_small by (unfold in_int, in_long; lia).
  rewrite four_digits, !two_digits, three_digits by lia.
  rewrite !pad_left_0, !append_assoc. reflexivity.
Qed.

Lemma filename_of_distinct (tv1 tv2 : timeval) (ltm : tm) :
  timeval_in_range tv1 -> timeval_in_range tv2 ->
  millis tv1 <> millis tv2 -> filename_of tv1 ltm <> filename_of tv2 ltm.
Proof.
  intros H1 H2 Hne E. apply Hne.
  pose proof (millis_range tv1 H1). pose proof (millis_range tv2 H2).
  rewrite !filename_of_split in E. apply append_inv_head in E.
  rewrite !to_long_small, !three_digits in E by (unfold in_long; lia).
  now apply fixed_width_3_inj.
Qed.

(** The name handed to the caller is [filename_of] applied to the sampled
    clock reading and its broken-down form, and to nothing else. *)
Lemma make_filename_from_time_run (env : Env) (t : Trace) (ltm : tm) :
  env_localtime env (tv_sec (env_clock env (List.length t))) = Some ltm ->
  make_filename_from_time env t =
  Ret (filename_of (env_clock env (List.length t)) ltm)
      (t ++ [EvGetTimeOfDay (env_clock env (List.length t))]).
Proof.
  intros H. unfold make_filename_from_time, bind, gettimeofday, act, localtime, ret.
  now rewrite H.
Qed.

(** C7: the generated name has the form
    exposure-YYYYMMDD-HHMMSS-mmm.bin, every field after the year padded with
    zeros to its width; it depends on the sampled timestamp only, so two
    calls that sample the same clock reading return the same name; and a
    timestamp of the same calendar second with another millisecond count
    gives another name. *)
Theorem filename_form_pure_distinct
  (env1 env2 : Env) (t1 t2 : Trace) (tv tv' : timeval) (ltm : tm) :
  tm_in_range ltm -> timeval_in_range tv -> timeval_in_range tv' ->
  env_clock env1 (List.length t1) = tv ->
  env_clock env2 (List.length t2) = tv ->
  env_localtime env1 (tv_sec tv) = Some ltm ->
  env_localtime env2 (tv_sec tv) = Some ltm ->
  exists name,
    make_filename_from_time env1 t1 = Ret name (t1 ++ [EvGetTimeOfDay tv]) /\
    make_filename_from_time env2 t2 = Ret name (t2 ++ [EvGetTimeOfDay tv]) /\
    name = exposure_name_form (1900 + tm_year ltm) (1 + tm_mon ltm) (tm_mday ltm)
                              (tm_hour ltm) (tm_min ltm) (tm_sec ltm) (millis tv) /\
    (millis tv <> millis tv' -> name <> filename_of tv' ltm).
Proof.
  intros Hltm Htv Htv' C1 C2 L1 L2. exists (filename_of tv ltm).
  rewrite <- C1 in L1. rewrite <- C2 in L2.
  rewrite (make_filename_from_time_run env1 t1 ltm L1).
  rewrite (make_filename_from_time_run env2 t2 ltm L2).
  rewrite C1, C2. repeat split.
  - now apply filename_of_form.
  - intros Hne. now apply filename_of_distinct.
Qed.

Lemma filename_form_pure_distinct_witness :
  exists name,
    make_filename_from_time healthy_env [] =
      Ret name [EvGetTimeOfDay (mk_timeval 1793351225 0)] /\
    make_filename_from_time (with_sigint 3 healthy_env) [] =
      Ret name [EvGetTimeOfDay (mk_timeval 1793351225 0)] /\
    name = "exposure-20261030-090705-000.bin"%string /\
    (millis (mk_timeval 1793351225 0) <> millis (mk_timeval 1793351225 1000) ->
     name <> filename_of (mk_timeval 1793351225 1000) sample_tm).
Proof.
  apply (filename_form_pure_distinct healthy_env (with_sigint 3 healthy_env) [] []
           (mk_timeval 1793351225 0) (mk_timeval 1793351225 1000) sample_tm).
  - unfold tm_in_range; cbn; lia.
  - unfold timeval_in_range; cbn; lia.
  - unfold timeval_in_range; cbn; lia.
  - reflexivity.
  - reflexivity.
  - reflexivity.
  - reflexivity.
Defined.

(** ** The command line *)

Lemma pairs_ind (A : Type) (P : list A -> Prop) :
  P [] -> (forall a, P [a]) ->
  (forall a v rest, P rest -> P (v :: rest) -> P (a :: v :: rest)) ->
  forall l, P l.
Proof.
  intros H0 H1 H2 l.
  assert (G : P l /\ forall x, P (x :: l)); [| exact (proj1 G)].
  induction l as [|y l [IH1 IH2]]; split; auto.
Qed.

Lemma recognized_cases (a : string) :
  recognized a = true ->
  a = "--output-dir"%string \/ a = "--exposure-time"%string \/
  a = "--gain"%string \/ a = "--interval"%string.
Proof.
  unfold recognized. rewrite !orb_true_iff, !String.eqb_eq. tauto.
Qed.

Lemma unrecognized_eqb (a : string) :
  recognized a = false ->
  (a =? "--output-dir")%string = false /\ (a =? "--exposure-time")%string = false /\
  (a =? "--gain")%string = false /\ (a =? "--interval")%string = false.
Proof. unfold recognized. rewrite !orb_false_iff. tauto. Qed.

Section CommandLineFacts.

Variable stod : string -> option double.
Variable stoi : string -> option Z.

Abbreviation parse := (parse_args stod stoi).

Lemma parse_unrecognized (cfg : Config) (a : string) (rest : list string) :
  recognized a = false -> parse cfg (a :: rest) = parse cfg rest.
Proof.
  intros H. destruct (unrecognized_eqb a H) as (E1 & E2 & E3 & E4).
  destruct rest as [|v rest]; cbn [parse_args]; [reflexivity |].
  now rewrite E1, E2, E3, E4.
Qed.

(** After a prefix on which the scan is complete, the scan goes on from the
    configuration reached so far. *)
Lemma parse_app (pre l : list string) :
  scan_complete pre = true ->
  forall cfg,
    parse cfg (pre ++ l) =
    match parse cfg pre with Some c => parse c l | None => None end.
Proof.
  induction pre as [| a | a v rest IHrest IHv] using pairs_ind; intros Hc cfg.
  - reflexivity.
  - cbn in Hc. apply negb_true_iff in Hc.
    cbn [app]. now rewrite parse_unrecognized.
  - cbn [scan_complete] in Hc. destruct (recognized a) eqn:R.
    + apply recognized_cases in R.
      destruct R as [-> | [-> | [-> | ->]]]; cbn [app parse_args String.eqb Ascii.eqb Bool.eqb];
        cbn; try destruct (stod v); try destruct (stoi v); auto.
    + change ((a :: v :: rest) ++ l) with (a :: (v :: rest) ++ l).
      rewrite !parse_unrecognized by assumption. now apply IHv.
Qed.

(** A stretch of the command line that does not assign a flag leaves its
    setting as it was. *)
Lemma parse_frame (flag : string) (l : list string) :
  assigns flag l = false ->
  forall cfg c, parse cfg l = Some c -> setting_of flag c = setting_of flag cfg.
Proof.
  induction l as [| a | a v rest IHrest IHv] using pairs_ind; intros Ha cfg c Hp.
  - cbn in Hp. now injection Hp as ->.
  - cbn in Hp. now injection Hp as ->.
  - cbn [assigns] in Ha. destruct (recognized a) eqn:R.
    + apply orb_false_iff in Ha. destruct Ha as [Hne Ha].
      apply String.eqb_neq in Hne.
      apply recognized_cases in R.
      destruct R as [-> | [-> | [-> | ->]]]; cbn in Hp;
        try (destruct (stod v); [| discriminate]);
        try (destruct (stoi v); [| discriminate]);
        rewrite (IHrest Ha _ _ Hp); unfold setting_of;
        repeat match goal with
               | |- context [(flag =? ?s)%string] =>
                 destruct (String.eqb_spec flag s); [subst; try congruence |]
               end; reflexivity.
    + rewrite parse_unrecognized in Hp by assumption. now apply IHv.
Qed.

(** The scan ends with a configuration exactly when no conversion throws. *)
Lemma parse_accepted (l : list string) :
  accepted stod stoi l = true ->
  forall cfg, exists c, parse_args stod stoi cfg l = Some c.
Proof.
  induction l as [| a | a v rest IHrest IHv] using pairs_ind; intros Ha cfg.
  - now exists cfg.
  - now exists cfg.
  - cbn [accepted] in Ha. destruct (recognized a) eqn:R.
    + apply recognized_cases in R.
      destruct R as [-> | [-> | [-> | ->]]]; unfold converted in Ha; cbn in Ha; cbn;
        try (destruct (stod v); [| discriminate]);
        try (destruct (stoi v); [| discriminate]);
        now apply IHrest.
    + rewrite parse_unrecognized by assumption. now apply IHv.
Qed.

(** And it throws when one does. *)
Lemma parse_not_accepted (l : list string) :
  accepted stod stoi l = false ->
  forall cfg, parse_args stod stoi cfg l = None.
Proof.
  induction l as [| a | a v rest IHrest IHv] using pairs_ind; intros Ha cfg.
  - discriminate.
  - discriminate.
  - cbn [accepted] in Ha. destruct (recognized a) eqn:R.
    + apply recognized_cases in R.
      destruct R as [-> | [-> | [-> | ->]]]; unfold converted in Ha; cbn in Ha; cbn;
        try (destruct (stod v); [| reflexivity]);
        try (destruct (stoi v); [| reflexivity]);
        now apply IHrest.
    + rewrite parse_unrecognized by assumption. now apply IHv.
Qed.

(** A flag in flag position with an accepted value assigns it and the scan
    goes on after the value. *)
Lemma parse_flag_assigns (flag v : string) (rest : list string) (cfg : Config)
  (s : Setting) :
  recognized flag = true ->
  converted stod stoi flag v = Some s ->
  exists cfg', setting_of flag cfg' = Some s /\
               parse_args stod stoi cfg (flag :: v :: rest) = parse_args stod stoi cfg' rest.
Proof.
  intros R Hs. apply recognized_cases in R.
  destruct R as [-> | [-> | [-> | ->]]]; unfold converted in Hs; cbn in Hs; cbn.
  - injection Hs as <-. eexists. split; [| reflexivity]. reflexivity.
  - destruct (stod v) as [d|]; [| discriminate]. injection Hs as <-.
    eexists. split; [| reflexivity]. reflexivity.
  - destruct (stoi v) as [g|]; [| discriminate]. injection Hs as <-.
    eexists. split; [| reflexivity]. reflexivity.
  - destruct (stod v) as [d|]; [| discriminate]. injection Hs as <-.
    eexists. split; [| reflexivity]. reflexivity.
Qed.

Lemma parse_flag_throws (flag v : string) (rest : list string) (cfg : Config) :
  recognized flag = true ->
  converted stod stoi flag v = None ->
  parse_args stod stoi cfg (flag :: v :: rest) = None.
Proof.
  intros R Hs. apply recognized_cases in R.
  destruct R as [-> | [-> | [-> | ->]]]; unfold converted in Hs; cbn in Hs; cbn.
  - discriminate.
  - now destruct (stod v).
  - now destruct (stoi v).
  - now destruct (stod v).
Qed.

End CommandLineFacts.

(** C10, as the code has it: what decides is the position the scan gives
    a word, not the word.  After arguments [pre] that the scan has read whole
    and whose values are accepted, a recognized flag standing last changes
    nothing: the scan ends with the configuration [pre] gives, where a
    setting that [pre] does not assign is the one the scan began with (the
    default).  A recognized flag followed by [v] and by arguments [suf]
    that do not assign it again ends with the setting [v] converts to,
    whatever [pre] assigned before; if [v] is rejected the scan throws. *)
Theorem trailing_flag_and_last_assignment_in_flag_position
  (stod : string -> option double) (stoi : string -> option Z)
  (cfg : Config) (pre suf : list string) (flag v : string) :
  recognized flag = true ->
  scan_complete pre = true ->
  accepted stod stoi pre = true ->
  accepted stod stoi suf = true ->
  assigns flag suf = false ->
  (exists c, parse_args stod stoi cfg (pre ++ [flag]) = Some c /\
             parse_args stod stoi cfg pre = Some c /\
             (assigns flag pre = false -> setting_of flag c = setting_of flag cfg)) /\
  match converted stod stoi flag v with
  | Some s => exists c, parse_args stod stoi cfg (pre ++ flag :: v :: suf) = Some c /\
                        setting_of flag c = Some s
  | None => parse_args stod stoi cfg (pre ++ flag :: v :: suf) = None
  end.
Proof.
  intros R Hpre Apre Asuf Hsuf.
  destruct (parse_accepted stod stoi pre Apre cfg) as (c0 & E0).
  split.
  - exists c0. rewrite parse_app by assumption. rewrite E0.
    repeat split. intros Ha. exact (parse_frame stod stoi flag pre Ha _ _ E0).
  - rewrite parse_app by assumption. rewrite E0.
    destruct (converted stod stoi flag v) as [s|] eqn:Hs.
    + destruct (parse_flag_assigns stod stoi flag v suf c0 s R Hs) as (c1 & S1 & ->).
      destruct (parse_accepted stod stoi suf Asuf c1) as (c & E).
      exists c. split; [exact E |].
      now rewrite (parse_frame stod stoi flag suf Hsuf _ _ E).
    + now apply parse_flag_throws.
Qed.

Lemma trailing_flag_and_last_assignment_in_flag_position_witness :
  (exists c,
      parse_args stod_table stoi_decimal default_config
                 ["--interval"; "0.1"; "stray"; "--gain"] = Some c /\
      setting_of "--gain" c = Some (Gain 100)) /\
  parse_args stod_table stoi_decimal default_config
             ["--interval"; "0.1"; "stray"; "--gain"; "abc"] = None /\
  (exists c,
      parse_args stod_table stoi_decimal default_config
                 ["--gain"; "5"; "stray"; "--interval"; "0.1"; "--gain"] = Some c /\
      parse_args stod_table stoi_decimal default_config
                 ["--gain"; "5"; "stray"; "--interval"; "0.1"] = Some c) /\
  (exists c,
      parse_args stod_table stoi_decimal default_config
                 ["--gain"; "5"; "stray"; "--interval"; "0.1";
                  "--gain"; "42"; "--output-dir"; "/data"; "--gain"] = Some c /\
      setting_of "--gain" c = Some (Gain 42)).
Proof.
  destruct (trailing_flag_and_last_assignment_in_flag_position
              stod_table stoi_decimal default_config
              ["--interval"; "0.1"; "stray"] [] "--gain" "abc"
              eq_refl eq_refl eq_refl eq_refl eq_refl) as ((c & E & _ & D) & T).
  destruct (trailing_flag_and_last_assignment_in_flag_position
              stod_table stoi_decimal default_config
              ["--gain"; "5"; "stray"; "--interval"; "0.1"]
              ["--output-dir"; "/data"; "--gain"] "--gain" "42"
              eq_refl eq_refl eq_refl eq_refl eq_refl) as ((c' & E' & P' & _) & c'' & L & V).
  split; [exists c; split; [exact E | exact (D eq_refl)] |].
  split; [exact T |].
  split; [exists c'; split; [exact E' | exact P'] |].
  exists c''. split; [exact L | exact V].
Defined.

(** C10 as stated fails where a recognized flag word follows another flag:
    it is then that flag's value.  In [--output-dir --gain] the final
    argument is a recognized flag with nothing after it, and it is not
    ignored: it becomes the output directory.  In
    [--gain 5 --output-dir --gain 7] the last occurrence of [--gain] is
    followed by 7, which [stoi] accepts, and the gain used is 5. *)
Lemma flag_word_after_a_flag_is_its_value :
  last ["--output-dir"; "--gain"] "" = "--gain" /\
  recognized "--gain" = true /\
  parse_args stod_table stoi_decimal default_config ["--output-dir"; "--gain"]
  = Some (set_output_dir "--gain" default_config) /\
  parse_args stod_table stoi_decimal default_config ["--output-dir"; "--gain"]
  <> parse_args stod_table stoi_decimal default_config ["--output-dir"] /\
  value_after_last_occurrence "--gain" ["--gain"; "5"; "--output-dir"; "--gain"; "7"]
  = Some "7" /\
  stoi_decimal "7" = Some 7 /\
  exists c,
    parse_args stod_table stoi_decimal default_config
               ["--gain"; "5"; "--output-dir"; "--gain"; "7"] = Some c /\
    gain_value c = 5 /\ output_dir c = "--gain".
Proof.
  repeat split; try (vm_compute; reflexivity).
  - vm_compute. discriminate.
  - eexists. repeat split; vm_compute; reflexivity.
Qed.

(** ** Running the loops *)

Lemma snoc_length (t : Trace) (e : Event) : List.length (t ++ [e]) = S (List.length t).
Proof. rewrite length_app. cbn. lia. Qed.

Lemma shutdown_requested_mono (env : Env) (n m : nat) :
  (n <= m)%nat -> shutdown_requested env n = true -> shutdown_requested env m = true.
Proof.
  unfold shutdown_requested, delivered. intros Hnm.
  rewrite !orb_true_iff.
  destruct (env_sigint env), (env_sigterm env); rewrite ?Nat.leb_le; intuition (try lia; try discriminate).
Qed.

Tactic Notation "run_step" "in" hyp(H) :=
  unfold bind, ASIGetExpStatus, ASIStartExposure, ASIGetDataAfterExp, ASICloseCamera,
    sleep_for, keep_running, open_file, write_file, close_file, cout, cerr, print,
    emit, act, ret, out_of_fuel in H;
  cbn beta iota in H.

Tactic Notation "run_step" :=
  unfold bind, ASIGetExpStatus, ASIStartExposure, ASIGetDataAfterExp, ASICloseCamera,
    sleep_for, keep_running, open_file, write_file, close_file, cout, cerr, print,
    emit, act, ret, out_of_fuel;
  cbn beta iota.

Ltac tidy_trace :=
  repeat rewrite snoc_length in *;
  repeat rewrite <- app_assoc in *;
  cbn [app] in *.

(** The status poll returns after some rounds that saw the exposure under
    way with the flag clear, and one last round; it never ends abnormally. *)
Lemma wait_exposure_run (fuel : nat) (id : Z) (env : Env) :
  forall t status t',
    wait_exposure fuel id env t = Ret status t' ->
    exists k,
      t' = t ++ polling id k ++ last_poll id status /\
      (status = ASI_EXP_WORKING ->
       shutdown_requested env (List.length t' - 1) = true).
Proof.
  induction fuel as [|fuel IH]; intros t status t' H; [discriminate |].
  cbn [wait_exposure] in H. run_step in H.
  destruct (env_exp_status env (List.length t)) eqn:E.
  1, 3, 4: injection H as <- <-; exists 0%nat; tidy_trace; split;
    [reflexivity | discriminate].
  tidy_trace.
  destruct (shutdown_requested env (S (S (List.length t)))) eqn:F; cbn [negb] in H.
  - injection H as <- <-. exists 0%nat. tidy_trace. split; [reflexivity |].
    intros _. rewrite length_app. cbn [List.length polling last_poll app].
    replace (List.length t + 3 - 1)%nat with (S (S (List.length t))) by lia. exact F.
  - apply IH in H. destruct H as (k & -> & Hs). exists (S k). tidy_trace.
    split; [reflexivity |]. exact Hs.
Qed.

Lemma wait_exposure_no_abort (fuel : nat) (id : Z) (env : Env) :
  forall t why t', wait_exposure fuel id env t <> Abort why t'.
Proof.
  induction fuel as [|fuel IH]; intros t why t'; [discriminate |].
  cbn [wait_exposure]. run_step.
  destruct (env_exp_status env (List.length t)); try discriminate.
  destruct (negb _); [apply IH | discriminate].
Qed.

(** Once the flag is set the poll ends within one round: fuel beyond the
    tick of the signal is enough. *)
Lemma wait_exposure_returns (fuel : nat) (id : Z) (env : Env) :
  forall t,
    shutdown_requested env (List.length t + fuel) = true ->
    exists status t', wait_exposure (S fuel) id env t = Ret status t'.
Proof.
  induction fuel as [|fuel IH]; intros t Hs; cbn [wait_exposure]; run_step;
    destruct (env_exp_status env (List.length t)); eauto; tidy_trace.
  - rewrite (shutdown_requested_mono env (List.length t + 0) _) by (lia || assumption).
    cbn. eauto.
  - destruct (negb _); [| eauto]. apply IH.
    apply (shutdown_requested_mono env (List.length t + S fuel)); [| assumption].
    rewrite !length_app. cbn [List.length]. lia.
Qed.

(** The pacing wait returns after some whole slices: either the accumulated
    wait has reached the interval, or the flag was found set. *)
Lemma pace_run (fuel : nat) (interval : double) (env : Env) :
  forall waited t t',
    pace fuel interval waited env t = Ret tt t' ->
    exists k,
      (t' = t ++ pacing k /\ dlt (waited_after k waited) interval = false) \/
      (t' = t ++ pacing k ++ [EvKeepRunning false] /\
       shutdown_requested env (List.length t' - 1) = true).
Proof.
  induction fuel as [|fuel IH]; intros waited t t' H; [discriminate |].
  cbn [pace] in H. destruct (dlt waited interval) eqn:D.
  - run_step in H.
    destruct (shutdown_requested env (List.length t)) eqn:F; cbn [negb] in H.
    + injection H as <-. exists 0%nat. right. cbn [pacing app]. split; [reflexivity |].
      rewrite snoc_length. now replace (S (List.length t) - 1)%nat with (List.length t) by lia.
    + apply IH in H. destruct H as (k & [[-> Hk] | [-> Hk]]); exists (S k); tidy_trace.
      * left. split; [reflexivity | exact Hk].
      * right. split; [reflexivity | exact Hk].
  - injection H as <-. exists 0%nat. left. cbn. rewrite app_nil_r. split; [reflexivity | exact D].
Qed.

Lemma pace_no_abort (fuel : nat) (interval : double) (env : Env) :
  forall waited t why t', pace fuel interval waited env t <> Abort why t'.
Proof.
  induction fuel as [|fuel IH]; intros waited t why t'; [discriminate |].
  cbn [pace]. destruct (dlt waited interval); [| discriminate]. run_step.
  destruct (negb _); [apply IH | discriminate].
Qed.

Lemma pace_returns (fuel : nat) (interval : double) (env : Env) :
  forall waited t,
    shutdown_requested env (List.length t + fuel) = true ->
    exists t', pace (S fuel) interval waited env t = Ret tt t'.
Proof.
  induction fuel as [|fuel IH]; intros waited t Hs; cbn [pace];
    (destruct (dlt waited interval); [| unfold ret; eauto]); run_step.
  - rewrite Nat.add_0_r in Hs. rewrite Hs. cbn. eauto.
  - destruct (negb _); [| eauto]. apply IH.
    apply (shutdown_requested_mono env (List.length t + S fuel)); [| assumption].
    rewrite !length_app. cbn [List.length]. lia.
Qed.

Lemma capture_iteration_outcome (fuel : nat) (cfg : Config) (id size : Z) (env : Env)
  (t : Trace) :
  iteration_outcome fuel cfg id size env t (capture_iteration fuel cfg id size env t).
Proof.
  unfold capture_iteration. run_step.
  destruct (env_start_exposure env (List.length t)) eqn:S0; cbn [succeeded negb].
  2: { tidy_trace. now apply start_failed. }
  destruct (wait_exposure fuel id env _) as [status t_w | why t_w |] eqn:W.
  - destruct (shutdown_requested env (List.length t_w)) eqn:F; cbn [negb].
    + eapply interrupted; eassumption.
    + destruct status.
      1, 2, 4: tidy_trace; eapply exposure_failed; try eassumption; discriminate.
      tidy_trace.
      destruct (env_get_data env (S (List.length t_w))) eqn:G; cbn [succeeded negb].
      2: { tidy_trace. eapply fetch_failed; try eassumption. reflexivity. }
      unfold make_filename_from_time, bind, gettimeofday, act, localtime. cbn beta iota.
      destruct (env_localtime env _) as [ltm|] eqn:L.
      2: { tidy_trace. eapply no_local_time; eassumption. }
      run_step. cbn beta iota zeta. tidy_trace.
      set (tv := env_clock env _).
      change (output_dir cfg ++ "/" ++ filename_of tv ltm)%string
        with (fullpath_of cfg tv ltm).
      destruct (env_open_file env _ _); cbn [negb]; tidy_trace.
      * exact (saved fuel cfg id size env t t_w tv ltm _ W F eq_refl).
      * exact (open_failed fuel cfg id size env t t_w tv ltm W F).
  - exfalso. eapply wait_exposure_no_abort; eassumption.
  - now apply poll_unfinished.
Qed.

Lemma existsb_polling (p : Event -> bool) (id : Z) (k : nat) :
  p (EvGetExpStatus id ASI_EXP_WORKING) = false -> p (EvSleep 10) = false ->
  p (EvKeepRunning true) = false ->
  existsb p (polling id k) = false.
Proof.
  intros H1 H2 H3. induction k as [|k IH]; cbn; [reflexivity |].
  now rewrite H1, H2, H3, IH.
Qed.

(** ** The start of an exposure fails *)

(** C4: when [ASIStartExposure] fails at the top of an iteration, the error
    line is printed, the loop is left at once, the camera is closed, and
    [main] returns 0. *)
Theorem start_failure_reported_released_exit_0
  (fuel : nat) (cfg : Config) (id size : Z) (env : Env) (t : Trace) (r : ASI_ERROR_CODE) :
  shutdown_requested env (List.length t) = false ->
  env_start_exposure env (S (List.length t)) = r ->
  succeeded r = false ->
  capture_and_close (S fuel) cfg id size env t =
  Ret 0 (t ++ [EvKeepRunning true;
               EvStartExposure id ASI_FALSE r;
               EvPrint Cerr [Text "Error starting exposure"];
               EvPrint Cout [Text (newline ++ "Stopping capture...")%string];
               EvCloseCamera id;
               EvPrint Cout [Text "Camera closed. Exiting."]]).
Proof.
  intros F S0 Hr.
  unfold capture_and_close. cbn [capture_loop]. unfold capture_iteration. run_step.
  rewrite F. cbn [negb]. tidy_trace. rewrite S0, Hr. cbn [negb]. tidy_trace.
  reflexivity.
Qed.

Lemma start_failure_reported_released_exit_0_witness :
  capture_and_close 1 default_config 0 24
                    (with_start_exposure (fun _ => ASI_ERROR 1) healthy_env) [] =
  Ret 0 [EvKeepRunning true;
         EvStartExposure 0 ASI_FALSE (ASI_ERROR 1);
         EvPrint Cerr [Text "Error starting exposure"];
         EvPrint Cout [Text (newline ++ "Stopping capture...")%string];
         EvCloseCamera 0;
         EvPrint Cout [Text "Camera closed. Exiting."]].
Proof.
  apply (start_failure_reported_released_exit_0 0 default_config 0 24
           (with_start_exposure (fun _ => ASI_ERROR 1) healthy_env) [] (ASI_ERROR 1)).
  - reflexivity.
  - reflexivity.
  - reflexivity.
Defined.

(** ** Shutdown during the exposure *)

(** The body, once the poll has returned with the flag set. *)
Lemma capture_iteration_interrupted
  (fuel : nat) (cfg : Config) (id size : Z) (env : Env) (t t_w : Trace)
  (status : ASI_EXPOSURE_STATUS) :
  env_start_exposure env (List.length t) = ASI_SUCCESS ->
  wait_exposure fuel id env (t ++ [EvStartExposure id ASI_FALSE ASI_SUCCESS])
    = Ret status t_w ->
  shutdown_requested env (List.length t_w) = true ->
  capture_iteration fuel cfg id size env t = Ret Break (t_w ++ [EvKeepRunning false]).
Proof.
  intros S0 W F. unfold capture_iteration. run_step.
  rewrite S0. cbn [succeeded negb]. rewrite W, F. reflexivity.
Qed.



Lemma existsb_pacing (p : Event -> bool) (k : nat) :
  p (EvKeepRunning true) = false -> p (EvSleep 100) = false ->
  existsb p (pacing k) = false.
Proof.
  intros H1 H2. induction k as [|k IH]; cbn; [reflexivity |].
  now rewrite H1, H2, IH.
Qed.

Lemma existsb_last_poll (p : Event -> bool) (id : Z) (status : ASI_EXPOSURE_STATUS) :
  (forall s, p (EvGetExpStatus id s) = false) -> p (EvSleep 10) = false ->
  p (EvKeepRunning false) = false ->
  existsb p (last_poll id status) = false.
Proof.
  intros H1 H2 H3. unfold last_poll. cbn. rewrite H1, H2.
  destruct status; cbn; rewrite ?H3; reflexivity.
Qed.

Ltac no_such_event :=
  repeat (cbn [existsb app];
          first [ rewrite existsb_app
                | rewrite existsb_polling by reflexivity
                | rewrite existsb_last_poll by (intros; reflexivity)
                | rewrite existsb_pacing by reflexivity ]);
  cbn; try reflexivity; try discriminate.

(** C9: the last poll delivered [ASI_EXP_SUCCESS] and the flag is set when
    the poll is over.  The body ends with [break] on the flag; the events
    of the iteration are the trigger, the polling and the read of the flag,
    so no frame is fetched and no file is written. *)
Theorem shutdown_overrides_completed_exposure
  (fuel : nat) (cfg : Config) (id size : Z) (env : Env) (t t_w : Trace) :
  env_start_exposure env (List.length t) = ASI_SUCCESS ->
  wait_exposure fuel id env (t ++ [EvStartExposure id ASI_FALSE ASI_SUCCESS])
    = Ret ASI_EXP_SUCCESS t_w ->
  shutdown_requested env (List.length t_w) = true ->
  exists iteration,
    capture_iteration fuel cfg id size env t = Ret Break (t ++ iteration) /\
    (exists k, iteration = EvStartExposure id ASI_FALSE ASI_SUCCESS
                             :: polling id k
                             ++ [EvGetExpStatus id ASI_EXP_SUCCESS; EvSleep 10;
                                 EvKeepRunning false]) /\
    existsb is_fetch iteration = false /\
    existsb is_file_event iteration = false.
Proof.
  intros S0 W F.
  destruct (wait_exposure_run _ _ _ _ _ _ W) as (k & E & _).
  exists (EvStartExposure id ASI_FALSE ASI_SUCCESS
            :: polling id k
            ++ [EvGetExpStatus id ASI_EXP_SUCCESS; EvSleep 10; EvKeepRunning false]).
  split; [| split; [eauto | split]].
  - rewrite (capture_iteration_interrupted fuel cfg id size env t t_w _ S0 W F).
    rewrite E. unfold last_poll. tidy_trace. reflexivity.
  - no_such_event.
  - no_such_event.
Qed.

Lemma shutdown_overrides_completed_exposure_witness :
  exists iteration,
    capture_iteration 1 default_config 0 24 (with_sigint 3 healthy_env)
                      [EvKeepRunning true]
    = Ret Break ([EvKeepRunning true] ++ iteration) /\
    (exists k, iteration = EvStartExposure 0 ASI_FALSE ASI_SUCCESS
                             :: polling 0 k
                             ++ [EvGetExpStatus 0 ASI_EXP_SUCCESS; EvSleep 10;
                                 EvKeepRunning false]) /\
    existsb is_fetch iteration = false /\
    existsb is_file_event iteration = false.
Proof.
  apply (shutdown_overrides_completed_exposure 1 default_config 0 24
           (with_sigint 3 healthy_env) [EvKeepRunning true]
           [EvKeepRunning true; EvStartExposure 0 ASI_FALSE ASI_SUCCESS;
            EvGetExpStatus 0 ASI_EXP_SUCCESS; EvSleep 10]).
  - reflexivity.
  - reflexivity.
  - reflexivity.
Defined.

Lemma shutdown_requested_later (env : Env) (n m : nat) :
  (n <= m)%nat -> shutdown_requested env m = false -> shutdown_requested env n = false.
Proof.
  intros Hnm Hm. destruct (shutdown_requested env n) eqn:E; [| reflexivity].
  rewrite (shutdown_requested_mono env n m Hnm E) in Hm. discriminate.
Qed.




(** ** The start of a run *)

Lemma bind_act {A B : Type} (answer : Env -> nat -> A) (ev : A -> Event)
  (k : A -> M B) (env : Env) (t : Trace) :
  bind (act answer ev) k env t =
  k (answer env (List.length t)) env (t ++ [ev (answer env (List.length t))]).
Proof. reflexivity. Qed.

Lemma bind_emit {B : Type} (e : Event) (k : unit -> M B) (env : Env) (t : Trace) :
  bind (emit e) k env t = k tt env (t ++ [e]).
Proof. reflexivity. Qed.

Lemma bind_ret {A B : Type} (a : A) (k : A -> M B) (env : Env) (t : Trace) :
  bind (ret a) k env t = k a env t.
Proof. reflexivity. Qed.

Lemma bind_bind {A B C : Type} (m : M A) (k : A -> M B) (h : B -> M C)
  (env : Env) (t : Trace) :
  bind (bind m k) h env t = bind m (fun a => bind (k a) h) env t.
Proof. unfold bind. destruct (m env t); reflexivity. Qed.

Lemma bind_signal {B : Type} (sig : Signal) (k : unit -> M B) (env : Env) (t : Trace) :
  delivered (pending env sig) (List.length t) = false ->
  bind (signal sig) k env t = k tt env (t ++ [EvSignal sig]).
Proof. intros H. unfold bind, signal. now rewrite H. Qed.

Ltac run_main :=
  unfold cout, cerr, print, ASIGetNumOfConnectedCameras, ASIGetCameraProperty,
    ASIOpenCamera, ASIInitCamera, ASISetROIFormat, ASISetControlValue;
  repeat (rewrite bind_emit || rewrite bind_act || rewrite bind_ret);
  cbn [app List.length].

Lemma main_startup (fuel : nat) (args : list string) (env : Env) (cfg : Config) :
  parse_args (env_stod env) (env_stoi env) default_config args = Some cfg ->
  handlers_installed env ->
  main fuel args env [] =
  if cameras_found env <? 1 then
    Ret 1 (banner cfg ++ [EvGetNumOfConnectedCameras (cameras_found env);
                          EvPrint Cerr [Text "No cameras connected!"]])
  else if negb (succeeded (property_result env)) then
    Ret 1 (discovered env cfg ++ [EvPrint Cerr [Text "Error retrieving camera properties!"]])
  else if negb (succeeded (open_result env)) then
    Ret 1 (discovered env cfg ++
           [EvOpenCamera (CameraID (camera_info_of env)) (open_result env);
            EvPrint Cerr [Text "Error initializing camera"]])
  else if negb (succeeded (init_result env)) then
    Ret 1 (discovered env cfg ++
           [EvOpenCamera (CameraID (camera_info_of env)) (open_result env);
            EvInitCamera (CameraID (camera_info_of env)) (init_result env);
            EvPrint Cerr [Text "Error initializing camera"]])
  else
    match exposure_microseconds (exposure_seconds cfg) with
    | None =>
      Abort Undefined_behaviour
            (discovered env cfg ++
             [EvOpenCamera (CameraID (camera_info_of env)) (open_result env);
              EvInitCamera (CameraID (camera_info_of env)) (init_result env);
              EvSetROIFormat (CameraID (camera_info_of env))
                             (frame_width (camera_info_of env))
                             (frame_height (camera_info_of env)) 1
                             (img_type_of (BitDepth (camera_info_of env)))])
    | Some exposure_us =>
      if (frame_size (camera_info_of env) <? 0)
         || negb (env_memory env (frame_size (camera_info_of env)))
      then
        Abort Uncaught_exception
              (discovered env cfg ++
               [EvOpenCamera (CameraID (camera_info_of env)) (open_result env);
                EvInitCamera (CameraID (camera_info_of env)) (init_result env);
                EvSetROIFormat (CameraID (camera_info_of env))
                               (frame_width (camera_info_of env))
                               (frame_height (camera_info_of env)) 1
                               (img_type_of (BitDepth (camera_info_of env)));
                EvSetControlValue (CameraID (camera_info_of env)) ASI_EXPOSURE
                                  exposure_us ASI_FALSE;
                EvSetControlValue (CameraID (camera_info_of env)) ASI_GAIN
                                  (gain_value cfg) ASI_FALSE])
      else
        capture_and_close fuel cfg (CameraID (camera_info_of env))
                          (frame_size (camera_info_of env)) env
                          (discovered env cfg ++
               [EvOpenCamera (CameraID (camera_info_of env)) (open_result env);
                EvInitCamera (CameraID (camera_info_of env)) (init_result env);
                EvSetROIFormat (CameraID (camera_info_of env))
                               (frame_width (camera_info_of env))
                               (frame_height (camera_info_of env)) 1
                               (img_type_of (BitDepth (camera_info_of env)));
                EvSetControlValue (CameraID (camera_info_of env)) ASI_EXPOSURE
                                  exposure_us ASI_FALSE;
                EvSetControlValue (CameraID (camera_info_of env)) ASI_GAIN
                                  (gain_value cfg) ASI_FALSE;
                EvPrint Cout [Text "Camera initialized. Beginning capture loop..."]])
    end.
Proof.
  intros Hp [Hi Ht]. unfold main. rewrite Hp.
  rewrite bind_signal by exact Hi. rewrite bind_signal by exact Ht.
  run_main. fold (cameras_found env).
  destruct (cameras_found env <? 1); [reflexivity |].
  run_main. fold (property_result env) (camera_info_of env).
  destruct (succeeded (property_result env)); cbn [negb]; [| reflexivity].
  unfold open_or_init_failed. rewrite bind_bind. run_main. fold (open_result env).
  destruct (succeeded (open_result env)); cbn [negb]; [| reflexivity].
  rewrite bind_bind. run_main. fold (init_result env).
  destruct (succeeded (init_result env)); cbn [negb]; [| reflexivity].
  run_main.
  fold (frame_width (camera_info_of env)) (frame_height (camera_info_of env))
       (frame_bytes_per_pixel (camera_info_of env)).
  fold (frame_size (camera_info_of env)).
  destruct (exposure_microseconds (exposure_seconds cfg)); [| reflexivity].
  run_main. unfold bind at 1, vector_alloc.
  destruct (_ || _); [reflexivity |]. run_main. reflexivity.
Qed.

(** ** The traces of the loop *)

Lemma capture_iteration_events
  (fuel : nat) (cfg : Config) (id size : Z) (env : Env) (t t1 : Trace) :
  trace_of (capture_iteration fuel cfg id size env t) = Some t1 ->
  exists iteration, t1 = t ++ iteration /\ iteration_events cfg id size iteration.
Proof.
  intros H. pose proof (capture_iteration_outcome fuel cfg id size env t) as O.
  destruct (capture_iteration fuel cfg id size env t) as [c t' | why t' |] eqn:E;
    [| | discriminate]; injection H as ->;
    inversion O as [ r S0 Hr | | status t_w W F | status t_w W F Hs | t_w r W F Hr
                   | t_w tv W F L | t_w tv ltm W F | t_w tv ltm r W F P R ]; subst;
    try (destruct (wait_exposure_run _ _ _ _ _ _ W) as (k & -> & _); tidy_trace);
    try (eexists; split; [reflexivity |]; now constructor).
  - destruct (pace _ _ _ _ _) as [[] t_p | |] eqn:P; try discriminate.
    injection R as <- <-.
    destruct (pace_run _ _ _ _ _ _ P) as (n & [[-> Hn] | [-> Hn]]); tidy_trace;
      eexists; (split; [reflexivity |]).
    + pose proof (events_saved cfg id size k tv ltm n false) as G.
      cbn [app] in G. rewrite app_nil_r in G.
      rewrite <- !app_assoc. cbn [app]. exact G.
    + pose proof (events_saved cfg id size k tv ltm n true) as G.
      cbn [app] in G. rewrite <- !app_assoc. cbn [app]. exact G.
  - destruct (pace _ _ _ _ _) as [[] t_p | |] eqn:P; try discriminate.
    exfalso. eapply pace_no_abort. exact P.
Qed.

Lemma capture_loop_events (cfg : Config) (id size : Z) (env : Env) (fuel : nat) :
  forall t t1,
    trace_of (capture_loop fuel cfg id size env t) = Some t1 ->
    exists new, t1 = t ++ new /\ loop_events cfg id size new.
Proof.
  induction fuel as [|fuel IH]; intros t t1 H; [discriminate |].
  cbn [capture_loop] in H. unfold keep_running in H. rewrite bind_act in H.
  destruct (negb _).
  - unfold bind in H.
    destruct (capture_iteration fuel cfg id size env _) as [c t' | why t' |] eqn:E;
      [| | discriminate].
    + destruct (capture_iteration_events fuel cfg id size env (t ++ [EvKeepRunning true]) t')
        as (it & -> & Hit); [now rewrite E |].
      destruct c.
      * injection H as <-. exists (EvKeepRunning true :: it). tidy_trace.
        split; [reflexivity | now constructor].
      * apply IH in H. destruct H as (rest & -> & Hrest).
        exists (EvKeepRunning true :: it ++ rest). tidy_trace.
        split; [reflexivity | now constructor].
    + destruct (capture_iteration_events fuel cfg id size env (t ++ [EvKeepRunning true]) t')
        as (it & -> & Hit); [now rewrite E |].
      injection H as <-. exists (EvKeepRunning true :: it). tidy_trace.
      split; [reflexivity | now constructor].
  - injection H as <-. eexists. split; [reflexivity | constructor].
Qed.

(** ** Files *)

Lemma files_wf_app (size : Z) (a b : Trace) :
  files_wf size a -> files_wf size b -> files_wf size (a ++ b).
Proof. intros Ha Hb. induction Ha; cbn [app]; auto using files_wf. Qed.

Lemma files_wf_plain (size : Z) (l : Trace) :
  existsb is_file_event l = false -> files_wf size l.
Proof.
  induction l as [|e l IH]; cbn [existsb]; intros H; [constructor |].
  apply orb_false_iff in H. destruct H as [He Hl].
  apply files_wf_other; auto.
Qed.

Lemma files_wf_write_size (size : Z) (t : Trace) :
  files_wf size t -> forall path n, In (EvWrite path n) t -> n = size.
Proof.
  induction 1 as [| e t He _ IH | p t _ IH | p t _ IH]; intros path n Hin.
  - destruct Hin.
  - destruct Hin as [-> | Hin]; [discriminate | eauto].
  - destruct Hin as [E | Hin]; [discriminate | eauto].
  - destruct Hin as [E | [E | [E | Hin]]]; try discriminate; [| eauto].
    now injection E as _ <-.
Qed.

(** An open that succeeded is followed at once by the write of the whole
    frame and the close. *)
Lemma files_wf_open_followed (size : Z) (t : Trace) :
  files_wf size t ->
  forall pre path post,
    t = pre ++ EvOpenFile path true :: post ->
    exists post', post = EvWrite path size :: EvCloseFile path :: post'.
Proof.
  induction 1 as [| e t He _ IH | p t _ IH | p t _ IH]; intros pre path post E.
  - destruct pre; discriminate.
  - destruct pre as [|x pre]; cbn in E; injection E as E1 E.
    + subst e. discriminate.
    + eauto.
  - destruct pre as [|x pre]; cbn in E; [discriminate |]. injection E as _ E. eauto.
  - destruct pre as [|x pre]; cbn in E.
    + injection E as E1 E2. subst. eauto.
    + injection E as _ E.
      destruct pre as [|y pre]; cbn in E; [discriminate |]. injection E as _ E.
      destruct pre as [|z pre]; cbn in E; [discriminate |]. injection E as _ E.
      eauto.
Qed.

Ltac files_wf_tac :=
  repeat first
    [ apply files_wf_nil
    | apply files_wf_saved
    | apply files_wf_refused
    | apply files_wf_other; [reflexivity |]
    | solve [apply files_wf_plain; no_such_event]
    | apply files_wf_app ].

Lemma iteration_files_wf (cfg : Config) (id size : Z) (iteration : Trace) :
  iteration_events cfg id size iteration -> files_wf size iteration.
Proof.
  destruct 1; cbn [app]; try (destruct cut_short); files_wf_tac.
Qed.

Lemma loop_files_wf (cfg : Config) (id size : Z) (new : Trace) :
  loop_events cfg id size new -> files_wf size new.
Proof.
  induction 1 as [| it Hit | it rest Hit _ IH].
  - files_wf_tac.
  - apply files_wf_other; [reflexivity |]. now apply iteration_files_wf with cfg id.
  - apply files_wf_other; [reflexivity |].
    apply files_wf_app; [now apply iteration_files_wf with cfg id | exact IH].
Qed.

(** ** The size of the frame *)

Lemma wrap_range (w z : Z) : 0 < w -> - 2 ^ (w - 1) <= wrap w z < 2 ^ (w - 1).
Proof.
  intros Hw. unfold wrap.
  assert (E : 2 ^ w = 2 * 2 ^ (w - 1)).
  { replace w with (Z.succ (w - 1)) at 1 by lia. apply Z.pow_succ_r. lia. }
  assert (0 < 2 ^ (w - 1)) by (apply Z.pow_pos_nonneg; lia).
  pose proof (Z.mod_pos_bound (z + 2 ^ (w - 1)) (2 ^ w) ltac:(lia)). lia.
Qed.

(** The allocation of the frame buffer succeeds only for a size that is not
    negative, and then the product did not wrap. *)
Lemma frame_size_exact (info : ASI_CAMERA_INFO) :
  0 <= frame_size info ->
  frame_size info = frame_width info * frame_height info * frame_bytes_per_pixel info.
Proof.
  unfold frame_size, image_size_of, frame_width, frame_height, frame_bytes_per_pixel,
    to_int.
  pose proof (wrap_range 32 (MaxWidth info) ltac:(lia)) as Hw.
  pose proof (wrap_range 32 (MaxHeight info) ltac:(lia)) as Hh.
  set (w := wrap 32 (MaxWidth info)) in *. set (h := wrap 32 (MaxHeight info)) in *.
  change (2 ^ (32 - 1)) with 2147483648 in *.
  assert (Hp : - 4611686018427387904 < w * h <= 4611686018427387904) by nia.
  rewrite (to_long_small (w * h)) by (unfold in_long; lia).
  unfold bytes_per_pixel_of. destruct (BitDepth info >? 8).
  - intros H0. destruct (Z.eq_dec (w * h * 2) (2 ^ 63)) as [E | E].
    + rewrite E in H0. vm_compute in H0. now contradiction H0.
    + apply to_long_small. unfold in_long. lia.
  - intros _. apply to_long_small. unfold in_long. lia.
Qed.

(** ** Runs of [main] *)

Lemma main_parse_failed (fuel : nat) (args : list string) (env : Env) :
  parse_args (env_stod env) (env_stoi env) default_config args = None ->
  main fuel args env [] = Abort Uncaught_exception [].
Proof. intros H. unfold main. now rewrite H. Qed.

Lemma main_killed (fuel : nat) (args : list string) (env : Env) (cfg : Config) :
  parse_args (env_stod env) (env_stoi env) default_config args = Some cfg ->
  ~ handlers_installed env ->
  main fuel args env [] = Abort (Killed_by SIGINT) [] \/
  main fuel args env [] = Abort (Killed_by SIGTERM) [EvSignal SIGINT].
Proof.
  intros Hp Hk. unfold main. rewrite Hp.
  destruct (delivered (env_sigint env) 0) eqn:Hi.
  - left. unfold bind at 1, signal at 1. cbn [List.length pending]. now rewrite Hi.
  - right. rewrite bind_signal by exact Hi.
    destruct (delivered (env_sigterm env) 1) eqn:Ht.
    + unfold bind at 1, signal at 1. cbn [List.length pending app]. now rewrite Ht.
    + exfalso. apply Hk. now split.
Qed.

Lemma capture_and_close_ret
  (fuel : nat) (cfg : Config) (id size : Z) (env : Env) (t0 t : Trace) (code : Z) :
  capture_and_close fuel cfg id size env t0 = Ret code t ->
  code = 0 /\
  exists new, capture_loop fuel cfg id size env t0 = Ret tt (t0 ++ new) /\
              loop_events cfg id size new /\ t = t0 ++ new ++ closing id.
Proof.
  unfold capture_and_close. unfold bind at 1.
  destruct (capture_loop fuel cfg id size env t0) as [[] t_l | |] eqn:E; try discriminate.
  cbn beta iota. unfold cout, print, ASICloseCamera. rewrite !bind_emit. unfold ret.
  intros H. injection H as <- <-. split; [reflexivity |].
  destruct (capture_loop_events cfg id size env fuel t0 t_l) as (new & -> & Hnew);
    [now rewrite E |].
  exists new. repeat split; [assumption |]. unfold closing. now rewrite <- !app_assoc.
Qed.

Lemma capture_and_close_abort
  (fuel : nat) (cfg : Config) (id size : Z) (env : Env) (t0 t : Trace) (why : Abnormal) :
  capture_and_close fuel cfg id size env t0 = Abort why t ->
  exists new, loop_events cfg id size new /\ t = t0 ++ new.
Proof.
  unfold capture_and_close. unfold bind at 1.
  destruct (capture_loop fuel cfg id size env t0) as [[] t_l | why' t_l |] eqn:E;
    try discriminate.
  intros H. injection H as <- <-.
  destruct (capture_loop_events cfg id size env fuel t0 t_l) as (new & -> & Hnew);
    [now rewrite E |].
  eauto.
Qed.

(** C6: whatever way a run of [main] ends, each file action in its trace is
    either an open that was refused or an open that succeeded followed at
    once by the write of exactly width x height x bytes_per_pixel bytes and
    the close; bytes_per_pixel is 2 above 8 bits and 1 otherwise.  So every
    write is a whole frame, and nothing is written where the iteration was
    given up before or at the open. *)
Theorem written_file_is_whole_frame
  (fuel : nat) (args : list string) (env : Env) (t : Trace) :
  trace_of (main fuel args env []) = Some t ->
  files_wf (frame_width (camera_info_of env) * frame_height (camera_info_of env)
            * frame_bytes_per_pixel (camera_info_of env)) t /\
  frame_bytes_per_pixel (camera_info_of env)
  = (if BitDepth (camera_info_of env) >? 8 then 2 else 1) /\
  (forall path n,
      In (EvWrite path n) t ->
      n = frame_width (camera_info_of env) * frame_height (camera_info_of env)
          * frame_bytes_per_pixel (camera_info_of env)) /\
  (forall pre path post,
      t = pre ++ EvOpenFile path true :: post ->
      exists post',
        post = EvWrite path (frame_width (camera_info_of env)
                             * frame_height (camera_info_of env)
                             * frame_bytes_per_pixel (camera_info_of env))
                 :: EvCloseFile path :: post').
Proof.
  intros H.
  set (size := frame_width (camera_info_of env) * frame_height (camera_info_of env)
               * frame_bytes_per_pixel (camera_info_of env)).
  assert (G : files_wf size t).
  { destruct (parse_args (env_stod env) (env_stoi env) default_config args)
      as [cfg|] eqn:Hp.
    2: { rewrite main_parse_failed in H by assumption. injection H as <-. constructor. }
    destruct (delivered (env_sigint env) 0) eqn:Hi.
    { destruct (main_killed fuel args env cfg Hp) as [E | E];
        [intros [K _]; congruence | | ]; rewrite E in H; injection H as <-;
          files_wf_tac. }
    destruct (delivered (env_sigterm env) 1) eqn:Ht.
    { destruct (main_killed fuel args env cfg Hp) as [E | E];
        [intros [_ K]; congruence | | ]; rewrite E in H; injection H as <-;
          files_wf_tac. }
    rewrite (main_startup fuel args env cfg Hp (conj Hi Ht)) in H.
    unfold discovered, banner in H.
    destruct (cameras_found env <? 1);
      [injection H as <-; cbn [app]; files_wf_tac |].
    destruct (negb (succeeded (property_result env)));
      [injection H as <-; cbn [app]; files_wf_tac |].
    destruct (negb (succeeded (open_result env)));
      [injection H as <-; cbn [app]; files_wf_tac |].
    destruct (negb (succeeded (init_result env)));
      [injection H as <-; cbn [app]; files_wf_tac |].
    destruct (exposure_microseconds (exposure_seconds cfg)) as [us|];
      [| injection H as <-; cbn [app]; files_wf_tac].
    destruct (frame_size (camera_info_of env) <? 0) eqn:Hneg; cbn [orb] in H;
      [injection H as <-; cbn [app]; files_wf_tac |].
    destruct (negb (env_memory env _));
      [injection H as <-; cbn [app]; files_wf_tac |].
    apply Z.ltb_ge in Hneg. unfold size. rewrite <- frame_size_exact by assumption.
    destruct (capture_and_close fuel cfg _ _ env _) as [code t' | why t' |] eqn:E;
      [| | discriminate]; injection H as ->.
    - apply capture_and_close_ret in E. destruct E as (_ & new & _ & Hnew & ->).
      cbn [app]. unfold closing. files_wf_tac. now apply loop_files_wf with cfg (CameraID (camera_info_of env)).
    - apply capture_and_close_abort in E. destruct E as (new & Hnew & ->).
      cbn [app]. files_wf_tac. now apply loop_files_wf with cfg (CameraID (camera_info_of env)). }
  split; [exact G |]. split; [reflexivity |]. split.
  - now apply files_wf_write_size.
  - now apply files_wf_open_followed.
Qed.

Lemma written_file_is_whole_frame_witness :
  exists t,
    trace_of (main 100 ["--interval"; "0"] (with_sigint 30 healthy_env) []) = Some t /\
    files_wf 24 t /\
    frame_bytes_per_pixel small_camera = 2 /\
    (forall path n, In (EvWrite path n) t -> n = 24) /\
    (forall pre path post,
        t = pre ++ EvOpenFile path true :: post ->
        exists post', post = EvWrite path 24 :: EvCloseFile path :: post').
Proof.
  eexists. split.
  - vm_compute. reflexivity.
  - apply (written_file_is_whole_frame 100 ["--interval"; "0"] (with_sigint 30 healthy_env)).
    vm_compute. reflexivity.
Defined.

(** ** Shutdown ends the run *)

Lemma wait_exposure_extends (fuel : nat) (id : Z) (env : Env) (t t' : Trace)
  (status : ASI_EXPOSURE_STATUS) :
  wait_exposure fuel id env t = Ret status t' -> (List.length t <= List.length t')%nat.
Proof.
  intros H. destruct (wait_exposure_run _ _ _ _ _ _ H) as (k & -> & _).
  rewrite length_app. lia.
Qed.

Lemma capture_iteration_extends
  (fuel : nat) (cfg : Config) (id size : Z) (env : Env) (t t1 : Trace) (c : LoopControl) :
  capture_iteration fuel cfg id size env t = Ret c t1 ->
  (List.length t < List.length t1)%nat.
Proof.
  intros H.
  destruct (capture_iteration_events fuel cfg id size env t t1) as (it & -> & Hit);
    [now rewrite H |].
  rewrite length_app. destruct Hit; cbn [List.length]; lia.
Qed.

(** With the flag set at some tick and [localtime] answering, the body
    returns when its fuel reaches beyond that tick. *)
Lemma capture_iteration_returns
  (fuel : nat) (cfg : Config) (id size : Z) (env : Env) (t : Trace) :
  shutdown_requested env (List.length t + fuel) = true ->
  (forall sec, env_localtime env sec <> None) ->
  exists c t1, capture_iteration (S fuel) cfg id size env t = Ret c t1.
Proof.
  intros Hs Hl.
  pose proof (capture_iteration_outcome (S fuel) cfg id size env t) as O.
  inversion O as [ r S0 Hr E | W E | status t_w W F E | status t_w W F Hst E
                 | t_w r W F Hr E | t_w tv W F L E | t_w tv ltm W F E
                 | t_w tv ltm r W F P E ]; eauto.
  - exfalso.
    destruct (wait_exposure_returns fuel id env
                (t ++ [EvStartExposure id ASI_FALSE ASI_SUCCESS])) as (st & t' & R).
    + apply (shutdown_requested_mono env (List.length t + fuel)); [| exact Hs].
      rewrite snoc_length. lia.
    + congruence.
  - exfalso. exact (Hl _ L).
  - destruct (pace_returns fuel (interval_seconds cfg) env d_0_0
                (t_w ++ [EvKeepRunning true; EvGetDataAfterExp id size ASI_SUCCESS;
                  EvGetTimeOfDay tv; EvOpenFile (fullpath_of cfg tv ltm) true;
                  EvWrite (fullpath_of cfg tv ltm) size;
                  EvCloseFile (fullpath_of cfg tv ltm);
                  saved_line (fullpath_of cfg tv ltm)])) as (t_p & R).
    + apply (shutdown_requested_mono env (List.length t + fuel)); [| exact Hs].
      apply wait_exposure_extends in W. rewrite snoc_length in W.
      rewrite length_app. cbn [List.length]. lia.
    + rewrite R in P. subst r. eauto.
Qed.

Lemma capture_loop_returns (cfg : Config) (id size : Z) (env : Env) :
  (forall sec, env_localtime env sec <> None) ->
  forall fuel t,
    shutdown_requested env (List.length t + fuel) = true ->
    exists t', capture_loop (S (S fuel)) cfg id size env t = Ret tt t'.
Proof.
  intros Hl. induction fuel as [|fuel IH]; intros t Hs.
  - rewrite Nat.add_0_r in Hs. cbn [capture_loop]. unfold keep_running.
    rewrite bind_act, Hs. cbn [negb]. unfold ret. eauto.
  - remember (S (S fuel)) as n eqn:En. cbn [capture_loop]. unfold keep_running.
    rewrite bind_act. destruct (negb _); [| unfold ret; eauto].
    subst n.
    destruct (capture_iteration_returns (S fuel) cfg id size env
                (t ++ [EvKeepRunning true])) as (c & t1 & R); [| exact Hl |].
    + apply (shutdown_requested_mono env (List.length t + S fuel)); [| exact Hs].
      rewrite snoc_length. lia.
    + unfold bind. rewrite R. destruct c; [unfold ret; eauto |].
      apply IH. apply capture_iteration_extends in R.
      apply (shutdown_requested_mono env (List.length t + S fuel)); [| exact Hs].
      rewrite snoc_length in R. lia.
Qed.

(** ** Exit codes *)

Lemma succeeded_true (r : ASI_ERROR_CODE) : succeeded r = true <-> r = ASI_SUCCESS.
Proof. destruct r; cbn; split; congruence. Qed.

Lemma succeeded_false (r : ASI_ERROR_CODE) : succeeded r = false <-> r <> ASI_SUCCESS.
Proof. destruct r; cbn; split; congruence. Qed.

(** With the camera ready, [main] goes into the loop unless the exposure
    time does not convert or the frame buffer cannot be allocated. *)
Lemma main_ready (fuel : nat) (args : list string) (env : Env) (cfg : Config)
  (exposure_us : Z) :
  parse_args (env_stod env) (env_stoi env) default_config args = Some cfg ->
  handlers_installed env ->
  camera_ready env ->
  exposure_microseconds (exposure_seconds cfg) = Some exposure_us ->
  0 <= frame_size (camera_info_of env) ->
  env_memory env (frame_size (camera_info_of env)) = true ->
  main fuel args env [] =
  capture_and_close fuel cfg (CameraID (camera_info_of env))
                    (frame_size (camera_info_of env)) env
                    (configured env cfg exposure_us).
Proof.
  intros Hp Hh (Hn & Hprop & Hopen & Hinit) Hus Hsize Hmem.
  rewrite (main_startup fuel args env cfg Hp Hh).
  rewrite (proj2 (Z.ltb_ge _ _) Hn), Hprop, Hopen, Hinit, Hus, Hmem.
  rewrite (proj2 (Z.ltb_ge _ _) Hsize). cbn [succeeded negb orb].
  reflexivity.
Qed.

(** With the camera ready, every return of [main] is a return of 0 made
    after the camera was closed. *)
Lemma main_ready_returns_0 (fuel : nat) (args : list string) (env : Env) (cfg : Config)
  (code : Z) (t : Trace) :
  parse_args (env_stod env) (env_stoi env) default_config args = Some cfg ->
  handlers_installed env ->
  camera_ready env ->
  main fuel args env [] = Ret code t ->
  code = 0 /\
  exists exposure_us new,
    loop_events cfg (CameraID (camera_info_of env)) (frame_size (camera_info_of env)) new /\
    t = configured env cfg exposure_us ++ new ++ closing (CameraID (camera_info_of env)).
Proof.
  intros Hp Hh Hready H.
  rewrite (main_startup fuel args env cfg Hp Hh) in H.
  destruct Hready as (Hn & Hprop & Hopen & Hinit).
  rewrite (proj2 (Z.ltb_ge _ _) Hn), Hprop, Hopen, Hinit in H. cbn [succeeded negb] in H.
  destruct (exposure_microseconds (exposure_seconds cfg)) as [us|]; [| discriminate].
  destruct (_ || _); [discriminate |].
  apply capture_and_close_ret in H. destruct H as (-> & new & _ & Hnew & ->).
  split; [reflexivity |]. exists us, new. split; [exact Hnew |].
  unfold configured. rewrite <- ?app_assoc. reflexivity.
Qed.

(** C5: [main] returns 1, after an error line and before any iteration, when
    no camera is found, when the properties cannot be read, when the camera
    cannot be opened, and when it cannot be initialized.  With the camera
    ready, whenever [main] returns it returns 0; and it does return 0 when a
    signal has asked for shutdown, given fuel beyond the tick of the signal
    and a run that nothing ends abnormally. *)
Theorem exit_codes (fuel : nat) (args : list string) (env : Env) (cfg : Config) :
  parse_args (env_stod env) (env_stoi env) default_config args = Some cfg ->
  handlers_installed env ->
  (cameras_found env < 1 ->
   main fuel args env [] =
   Ret 1 (banner cfg ++ [EvGetNumOfConnectedCameras (cameras_found env);
                         EvPrint Cerr [Text "No cameras connected!"]])) /\
  (1 <= cameras_found env -> property_result env <> ASI_SUCCESS ->
   main fuel args env [] =
   Ret 1 (discovered env cfg
            ++ [EvPrint Cerr [Text "Error retrieving camera properties!"]])) /\
  (1 <= cameras_found env -> property_result env = ASI_SUCCESS ->
   open_result env <> ASI_SUCCESS ->
   main fuel args env [] =
   Ret 1 (discovered env cfg
            ++ [EvOpenCamera (CameraID (camera_info_of env)) (open_result env);
                EvPrint Cerr [Text "Error initializing camera"]])) /\
  (1 <= cameras_found env -> property_result env = ASI_SUCCESS ->
   open_result env = ASI_SUCCESS -> init_result env <> ASI_SUCCESS ->
   main fuel args env [] =
   Ret 1 (discovered env cfg
            ++ [EvOpenCamera (CameraID (camera_info_of env)) ASI_SUCCESS;
                EvInitCamera (CameraID (camera_info_of env)) (init_result env);
                EvPrint Cerr [Text "Error initializing camera"]])) /\
  (camera_ready env ->
   forall code t, main fuel args env [] = Ret code t -> code = 0) /\
  (camera_ready env -> runs_normally env cfg ->
   forall tick, shutdown_requested env tick = true -> (tick + 2 <= fuel)%nat ->
   exists t, main fuel args env [] = Ret 0 t).
Proof.
  intros Hp Hh. pose proof (main_startup fuel args env cfg Hp Hh) as M.
  repeat split.
  - intros Hn. rewrite M, (proj2 (Z.ltb_lt _ _) Hn). reflexivity.
  - intros Hn Hprop. apply succeeded_false in Hprop.
    rewrite M, (proj2 (Z.ltb_ge _ _) Hn), Hprop. reflexivity.
  - intros Hn Hprop Hopen. apply succeeded_false in Hopen.
    rewrite M, (proj2 (Z.ltb_ge _ _) Hn), Hprop, Hopen. reflexivity.
  - intros Hn Hprop Hopen Hinit. apply succeeded_false in Hinit.
    rewrite M, (proj2 (Z.ltb_ge _ _) Hn), Hprop, Hinit. rewrite Hopen. reflexivity.
  - intros Hready code t H.
    exact (proj1 (main_ready_returns_0 fuel args env cfg code t Hp Hh Hready H)).
  - intros Hready (Hus & Hsize & Hmem & Hl) tick Hs Hfuel.
    destruct (exposure_microseconds (exposure_seconds cfg)) as [us|] eqn:Eus;
      [| congruence].
    rewrite (main_ready fuel args env cfg us Hp Hh Hready Eus Hsize Hmem).
    destruct fuel as [|[|fuel]]; [lia | lia |].
    destruct (capture_loop_returns cfg (CameraID (camera_info_of env))
                (frame_size (camera_info_of env)) env Hl fuel
                (configured env cfg us)) as (t' & R).
    + apply (shutdown_requested_mono env tick); [lia | exact Hs].
    + unfold capture_and_close, bind at 1. rewrite R.
      unfold cout, print, ASICloseCamera. rewrite !bind_emit. unfold ret. eauto.
Qed.

Lemma exit_codes_witness :
  main 0 [] no_camera_env [] =
    Ret 1 (banner default_config
             ++ [EvGetNumOfConnectedCameras 0;
                 EvPrint Cerr [Text "No cameras connected!"]]) /\
  exists t, main 14 [] (with_sigint 12 healthy_env) [] = Ret 0 t.
Proof.
  split.
  - apply (exit_codes 0 [] no_camera_env default_config eq_refl (conj eq_refl eq_refl)).
    unfold cameras_found; cbn; lia.
  - apply (exit_codes 14 [] (with_sigint 12 healthy_env) default_config eq_refl
             (conj eq_refl eq_refl)) with (tick := 12%nat).
    + repeat split. unfold cameras_found; cbn; lia.
    + repeat split.
      * vm_compute. discriminate.
      * vm_compute. discriminate.
      * discriminate.
    + reflexivity.
    + lia.
Defined.

(** C2, where the code departs from it: the camera opens, its
    initialization fails, and [main] returns 1 with the camera opened once
    and never closed. *)
Theorem init_failure_leaves_camera_open
  (fuel : nat) (args : list string) (env : Env) (cfg : Config) :
  parse_args (env_stod env) (env_stoi env) default_config args = Some cfg ->
  handlers_installed env ->
  1 <= cameras_found env -> property_result env = ASI_SUCCESS ->
  open_result env = ASI_SUCCESS -> init_result env <> ASI_SUCCESS ->
  exists t,
    main fuel args env [] = Ret 1 t /\
    count is_camera_open t = 1%nat /\
    count is_camera_close t = 0%nat.
Proof.
  intros Hp Hh Hn Hprop Hopen Hinit. apply succeeded_false in Hinit.
  rewrite (main_startup fuel args env cfg Hp Hh).
  rewrite (proj2 (Z.ltb_ge _ _) Hn), Hprop, Hopen, Hinit. cbn [succeeded negb].
  eexists. split; [reflexivity |].
  unfold discovered, banner. rewrite Hprop. split; reflexivity.
Qed.

Lemma init_failure_leaves_camera_open_witness :
  exists t,
    main 0 [] init_failure_env [] = Ret 1 t /\
    count is_camera_open t = 1%nat /\
    count is_camera_close t = 0%nat.
Proof.
  apply (init_failure_leaves_camera_open 0 [] init_failure_env default_config).
  - reflexivity.
  - split; reflexivity.
  - unfold cameras_found; cbn; lia.
  - reflexivity.
  - reflexivity.
  - discriminate.
Defined.

(** ** The camera is released once on the paths through the loop *)

Lemma count_app (p : Event -> bool) (a b : Trace) :
  count p (a ++ b) = (count p a + count p b)%nat.
Proof. unfold count. now rewrite filter_app, length_app. Qed.

Lemma count_none (p : Event -> bool) (l : Trace) :
  existsb p l = false -> count p l = 0%nat.
Proof.
  unfold count. induction l as [|e l IH]; cbn; [reflexivity |].
  intros H. apply orb_false_iff in H. destruct H as [-> H]. auto.
Qed.

Lemma iteration_no_camera_session (p : Event -> bool) (cfg : Config) (id size : Z)
  (iteration : Trace) :
  p = is_camera_open \/ p = is_camera_close ->
  iteration_events cfg id size iteration -> existsb p iteration = false.
Proof.
  intros [-> | ->]; destruct 1; try destruct cut_short; no_such_event.
Qed.

Lemma loop_no_camera_session (p : Event -> bool) (cfg : Config) (id size : Z)
  (new : Trace) :
  p = is_camera_open \/ p = is_camera_close ->
  loop_events cfg id size new -> existsb p new = false.
Proof.
  intros Hp. induction 1 as [| it Hit | it rest Hit _ IH].
  - destruct Hp as [-> | ->]; reflexivity.
  - cbn [existsb]. rewrite (iteration_no_camera_session p cfg id size it Hp Hit).
    destruct Hp as [-> | ->]; reflexivity.
  - cbn [existsb]. rewrite existsb_app, IH.
    rewrite (iteration_no_camera_session p cfg id size it Hp Hit).
    destruct Hp as [-> | ->]; reflexivity.
Qed.

(** Whenever [main] returns from the loop, by the flag or by a failed
    trigger, the camera was opened once and closed once. *)
Lemma loop_exit_releases_once
  (fuel : nat) (args : list string) (env : Env) (cfg : Config) (code : Z) (t : Trace) :
  parse_args (env_stod env) (env_stoi env) default_config args = Some cfg ->
  handlers_installed env ->
  camera_ready env ->
  main fuel args env [] = Ret code t ->
  count is_camera_open t = 1%nat /\ count is_camera_close t = 1%nat.
Proof.
  intros Hp Hh Hready H.
  destruct (main_ready_returns_0 fuel args env cfg code t Hp Hh Hready H)
    as (_ & us & new & Hnew & ->).
  destruct Hready as (_ & Hprop & _ & _).
  rewrite !count_app.
  rewrite (count_none is_camera_open new), (count_none is_camera_close new)
    by (eapply loop_no_camera_session; eauto).
  unfold configured, discovered, banner, closing. rewrite Hprop. split; reflexivity.
Qed.

(** ** Rounding of the product *)

Lemma iter_pos_iter {A : Type} (f : A -> A) (p : positive) :
  forall x, iter_pos f p x = Pos.iter f x p.
Proof.
  induction p as [p IH | p IH |]; intros x; cbn [iter_pos Pos.iter].
  - rewrite !IH. now rewrite !Pos.iter_swap.
  - now rewrite !IH.
  - reflexivity.
Qed.

Lemma digits2_pos_size (m : positive) : digits2_pos m = Pos.size m.
Proof. induction m as [m IH | m IH |]; cbn; now rewrite ?IH. Qed.

Lemma digits2_pos_bounds (m : positive) :
  2 ^ (Zpos (digits2_pos m) - 1) <= Zpos m < 2 ^ Zpos (digits2_pos m).
Proof.
  rewrite digits2_pos_size. split.
  - pose proof (Pos.size_le m) as H.
    apply Pos2Z.pos_le_pos in H. rewrite Pos2Z.inj_pow in H.
    change (Zpos m~0) with (2 * Zpos m) in H.
    replace (Zpos (Pos.size m)) with (Z.succ (Zpos (Pos.size m) - 1)) in H by lia.
    rewrite Z.pow_succ_r in H by lia. lia.
  - pose proof (Pos.size_gt m) as H.
    apply Pos2Z.pos_lt_pos in H. now rewrite Pos2Z.inj_pow in H.
Qed.

Lemma shr_rep_0 (M : Z) : shr_rep M 0 (shr_record_of_loc M loc_Exact).
Proof. unfold shr_rep. cbn. rewrite Z.div_1_r, Z.mod_1_r. auto. Qed.

Lemma shr_rep_step (M n : Z) (r : shr_record) :
  0 <= M -> 0 <= n -> shr_rep M n r -> shr_rep M (n + 1) (shr_1 r).
Proof.
  intros HM Hn [Hm Hloc].
  assert (Hp : 0 < 2 ^ n) by (apply Z.pow_pos_nonneg; lia).
  pose proof (Z.div_mod M (2 ^ n) ltac:(lia)) as E.
  pose proof (Z.mod_pos_bound M (2 ^ n) Hp) as B.
  assert (Hq : 0 <= M / 2 ^ n) by (apply Z.div_pos; lia).
  set (q := M / 2 ^ n) in *. set (rem := M mod 2 ^ n) in *.
  assert (P2 : 2 ^ (n + 1) = 2 * 2 ^ n) by (rewrite Z.pow_add_r by lia; lia).
  assert (D : forall q' b, q = 2 * q' + b -> 0 <= b < 2 ->
              M / 2 ^ (n + 1) = q' /\ M mod 2 ^ (n + 1) = rem + b * 2 ^ n).
  { intros q' b Eq Hb.
    assert (M = 2 ^ (n + 1) * q' + (rem + b * 2 ^ n)) as EM by (rewrite P2; nia).
    assert (0 <= rem + b * 2 ^ n < 2 ^ (n + 1)) as BM by (rewrite P2; nia).
    split; symmetry.
    - apply (Z.div_unique_pos M (2 ^ (n + 1)) q' (rem + b * 2 ^ n)); assumption.
    - apply (Z.mod_unique_pos M (2 ^ (n + 1)) q' (rem + b * 2 ^ n)); assumption. }
  destruct r as [m rr rs]. cbn [shr_m] in Hm. subst m.
  assert (Z : (rr || rs = false -> rem = 0) /\ (rr || rs = true -> rem <> 0)).
  { destruct rr, rs; cbn in Hloc |- *; intuition congruence. }
  destruct Z as [Z0' Z1].
  unfold shr_rep, shr_1.
  destruct q as [| p | p] eqn:Eq; [| | lia].
  - destruct (D 0 0 ltac:(lia) ltac:(lia)) as [-> ->]. cbn [shr_m].
    split; [reflexivity |].
    destruct (rr || rs) eqn:O; cbn [loc_of_shr_record].
    + split; [specialize (Z1 eq_refl); lia |]. apply Z.compare_lt_iff. lia.
    + specialize (Z0' eq_refl). lia.
  - destruct p as [p | p |].
    + destruct (D (Zpos p) 1 ltac:(lia) ltac:(lia)) as [-> ->]. cbn [shr_m].
      split; [reflexivity |].
      destruct (rr || rs) eqn:O; cbn [loc_of_shr_record].
      * split; [lia |]. apply Z.compare_gt_iff. specialize (Z1 eq_refl). lia.
      * split; [lia |]. apply Z.compare_eq_iff. specialize (Z0' eq_refl). lia.
    + destruct (D (Zpos p) 0 ltac:(lia) ltac:(lia)) as [-> ->]. cbn [shr_m].
      split; [reflexivity |].
      destruct (rr || rs) eqn:O; cbn [loc_of_shr_record].
      * split; [specialize (Z1 eq_refl); lia |]. apply Z.compare_lt_iff. lia.
      * specialize (Z0' eq_refl). lia.
    + destruct (D 0 1 ltac:(lia) ltac:(lia)) as [-> ->]. cbn [shr_m].
      split; [reflexivity |].
      destruct (rr || rs) eqn:O; cbn [loc_of_shr_record].
      * split; [lia |]. apply Z.compare_gt_iff. specialize (Z1 eq_refl). lia.
      * split; [lia |]. apply Z.compare_eq_iff. specialize (Z0' eq_refl). lia.
Qed.

Lemma shr_rep_iter (M : Z) (p : positive) :
  0 <= M -> shr_rep M (Zpos p) (iter_pos shr_1 p (shr_record_of_loc M loc_Exact)).
Proof.
  intros HM. rewrite iter_pos_iter.
  induction p as [| p IH] using Pos.peano_ind.
  - cbn [Pos.iter]. apply (shr_rep_step M 0); [lia | lia | apply shr_rep_0].
  - rewrite Pos.iter_succ, Pos2Z.inj_succ.
    apply (shr_rep_step M (Zpos p)); [lia | lia | exact IH].
Qed.

Lemma round_nearest_even_error (M n : Z) (r : shr_record) :
  0 <= M -> 0 <= n -> shr_rep M n r ->
  M / 2 ^ n <= round_nearest_even (shr_m r) (loc_of_shr_record r) <= M / 2 ^ n + 1 /\
  2 * Z.abs (round_nearest_even (shr_m r) (loc_of_shr_record r) * 2 ^ n - M) <= 2 ^ n.
Proof.
  intros HM Hn [Hm Hloc].
  assert (Hp : 0 < 2 ^ n) by (apply Z.pow_pos_nonneg; lia).
  pose proof (Z.div_mod M (2 ^ n) ltac:(lia)) as E.
  pose proof (Z.mod_pos_bound M (2 ^ n) Hp) as B.
  rewrite Hm. set (q := M / 2 ^ n) in *. set (rem := M mod 2 ^ n) in *.
  set (P := 2 ^ n) in *.
  assert (A0 : q * P - M = - rem) by (rewrite E; ring).
  assert (A1 : (q + 1) * P - M = P - rem) by (rewrite E; ring).
  clearbody rem q P. revert Hloc.
  destruct (loc_of_shr_record r) as [| c]; cbn [round_nearest_even]; intros Hloc.
  - rewrite A0. lia.
  - destruct Hloc as [Hne Hc]. destruct c.
    + rewrite Z.compare_eq_iff in Hc. destruct (Z.even q); rewrite ?A0, ?A1; lia.
    + rewrite Z.compare_lt_iff in Hc. rewrite A0. lia.
    + rewrite Z.compare_gt_iff in Hc. rewrite A1. lia.
Qed.

Lemma Zdigits2_le (m k : Z) : 0 <= m < 2 ^ k -> 0 <= k -> Zdigits2 m <= k.
Proof.
  intros [H0 Hk] Hk0. destruct m as [| p | p]; cbn [Zdigits2]; [lia | | lia].
  pose proof (digits2_pos_bounds p) as [Hl _].
  destruct (Z_le_gt_dec (Zpos (digits2_pos p)) k) as [|G]; [assumption | exfalso].
  assert (2 ^ k <= 2 ^ (Zpos (digits2_pos p) - 1)) by (apply Z.pow_le_mono_r; lia).
  lia.
Qed.

Lemma Zdigits2_ge (m k : Z) : 2 ^ k <= m -> 0 <= k -> k + 1 <= Zdigits2 m.
Proof.
  intros Hk Hk0.
  assert (0 < 2 ^ k) by (apply Z.pow_pos_nonneg; lia).
  destruct m as [| p | p]; cbn [Zdigits2]; [lia | | lia].
  pose proof (digits2_pos_bounds p) as [_ Hu].
  destruct (Z_le_gt_dec (k + 1) (Zpos (digits2_pos p))) as [|G]; [assumption | exfalso].
  assert (2 ^ Zpos (digits2_pos p) <= 2 ^ k) by (apply Z.pow_le_mono_r; lia).
  lia.
Qed.

(** Rounding an exact positive significand: the result, when finite, lies
    within half a unit of its last place of the value rounded. *)
Lemma binary_round_aux_error (s : bool) (M : positive) (E : Z) (s' : bool)
  (m' : positive) (e' : Z) :
  binary_round_aux 53 1024 s (Zpos M) E loc_Exact = S754_finite s' m' e' ->
  E <= e' /\ 2 * Z.abs (Zpos m' * 2 ^ (e' - E) - Zpos M) <= 2 ^ (e' - E).
Proof.
  unfold binary_round_aux, shr_fexp. cbn [Zdigits2].
  pose proof (digits2_pos_bounds M) as [Dl Du].
  remember (Zpos (digits2_pos M)) as d eqn:Ed.
  assert (Hd : 1 <= d) by (subst d; lia).
  remember (fexp 53 1024 (d + E) - E) as n eqn:En.
  assert (Hn : n = Z.max (d + E - 53) (- 1074) - E) by (subst n; reflexivity).
  assert (Exact : forall k, k <= 0 ->
            n = k ->
            (let '(mrs', e1) := shr (shr_record_of_loc (Zpos M) loc_Exact) E k in
             let '(mrs'', e'') :=
               shr (shr_record_of_loc
                      (round_nearest_even (shr_m mrs') (loc_of_shr_record mrs'))
                      loc_Exact) e1
                   (fexp 53 1024
                         (Zdigits2 (round_nearest_even (shr_m mrs')
                                                       (loc_of_shr_record mrs')) + e1)
                    - e1) in
             match shr_m mrs'' with
             | 0 => S754_zero s
             | Z.pos m => if e'' <=? 1024 - 53 then S754_finite s m e''
                          else S754_infinity s
             | Z.neg _ => S754_nan
             end) = S754_finite s' m' e' ->
            E <= e' /\ 2 * Z.abs (Zpos m' * 2 ^ (e' - E) - Zpos M) <= 2 ^ (e' - E)).
  { intros k Hk Ek.
    assert (shr (shr_record_of_loc (Zpos M) loc_Exact) E k
            = (shr_record_of_loc (Zpos M) loc_Exact, E)) as ->
        by (destruct k; [reflexivity | lia | reflexivity]).
    cbn [shr_record_of_loc shr_m loc_of_shr_record round_nearest_even Zdigits2].
    rewrite <- Ed, <- En, Ek.
    assert (shr {| shr_m := Zpos M; shr_r := false; shr_s := false |} E k
            = ({| shr_m := Zpos M; shr_r := false; shr_s := false |}, E)) as ->
        by (destruct k; [reflexivity | lia | reflexivity]).
    cbn [shr_m]. destruct (E <=? 1024 - 53); [| discriminate].
    intros [= _ <- <-]. rewrite Z.sub_diag, Z.pow_0_r, Z.mul_1_r, Z.sub_diag.
    cbn. lia. }
  destruct n as [| p | p].
  - apply (Exact 0); [lia | reflexivity].
  - clear Exact. cbn [shr].
    pose proof (shr_rep_iter (Zpos M) p ltac:(lia)) as Rep.
    remember (iter_pos shr_1 p (shr_record_of_loc (Zpos M) loc_Exact)) as R eqn:ER.
    destruct (round_nearest_even_error (Zpos M) (Zpos p) R ltac:(lia) ltac:(lia) Rep)
      as [[Ql Qu] Err].
    remember (round_nearest_even (shr_m R) (loc_of_shr_record R)) as m1 eqn:Em1.
    assert (P0 : 0 < 2 ^ Zpos p) by (apply Z.pow_pos_nonneg; lia).
    assert (Q0 : 0 <= Zpos M / 2 ^ Zpos p) by (apply Z.div_pos; lia).
    assert (Hn2 : fexp 53 1024 (Zdigits2 m1 + (E + Zpos p)) - (E + Zpos p) = 0 \/
                  (fexp 53 1024 (Zdigits2 m1 + (E + Zpos p)) - (E + Zpos p) = 1 /\
                   m1 = 2 ^ 53)).
    { unfold fexp, emin.
      destruct (Z_le_gt_dec (- 1074) (d + E - 53)) as [A | B].
      - (* normal range *)
        assert (Zpos p = d - 53) as Ep by lia.
        assert (2 ^ 52 <= Zpos M / 2 ^ Zpos p).
        { apply Z.div_le_lower_bound; [lia |].
          rewrite <- Z.pow_add_r by lia. replace (Zpos p + 52) with (d - 1) by lia.
          exact Dl. }
        assert (Zpos M / 2 ^ Zpos p < 2 ^ 53).
        { apply Z.div_lt_upper_bound; [lia |].
          rewrite <- Z.pow_add_r by lia. replace (Zpos p + 53) with d by lia.
          exact Du. }
        destruct (Z.eq_dec m1 (2 ^ 53)) as [-> | Ne].
        + right. split; [| reflexivity]. change (Zdigits2 (2 ^ 53)) with 54. lia.
        + left.
          assert (Zdigits2 m1 <= 53) by (apply Zdigits2_le; lia).
          assert (52 + 1 <= Zdigits2 m1) by (apply Zdigits2_ge; lia).
          lia.
      - (* subnormal range *)
        left.
        assert (Zpos M / 2 ^ Zpos p < 2 ^ 52).
        { apply Z.div_lt_upper_bound; [lia |].
          rewrite <- Z.pow_add_r by lia.
          apply Z.lt_le_trans with (2 ^ d); [exact Du |].
          apply Z.pow_le_mono_r; lia. }
        assert (Zdigits2 m1 <= 53) by (apply Zdigits2_le; lia).
        lia. }
    destruct Hn2 as [-> | [-> ->]].
    + cbn [shr shr_record_of_loc shr_m].
      destruct m1 as [| m | m]; try discriminate.
      destruct (_ <=? _); [| discriminate].
      intros [= _ <- <-]. replace (E + Zpos p - E) with (Zpos p) by lia.
      split; [lia | exact Err].
    + cbn [shr shr_record_of_loc shr_m iter_pos shr_1].
      change (2 ^ 53) with 9007199254740992 in *. cbn [shr_m].
      destruct (_ <=? _); [| discriminate].
      intros [= _ <- <-]. replace (E + Zpos p + 1 - E) with (Zpos p + 1) by lia.
      rewrite Z.pow_add_r by lia. split; [lia |].
      replace (4503599627370496 * (2 ^ Zpos p * 2 ^ 1))
        with (9007199254740992 * 2 ^ Zpos p) by ring.
      change (2 ^ 1) with 2. lia.
  - apply (Exact (Zneg p)); [lia | reflexivity].
Qed.


(** ** The exposure control *)

Lemma binary_round_aux_sign (sx : bool) (mx ex : Z) (lx : location) (s : bool)
  (m : positive) (e : Z) :
  binary_round_aux 53 1024 sx mx ex lx = S754_finite s m e -> s = sx.
Proof.
  unfold binary_round_aux.
  destruct (shr_fexp 53 1024 mx ex lx) as [mrs' e'].
  destruct (shr_fexp 53 1024 _ e' loc_Exact) as [mrs'' e''].
  destruct (shr_m mrs''); try discriminate.
  destruct (_ <=? _); [| discriminate]. now intros [= <- _ _].
Qed.

(** The integer part of the product of a duration that is not negative with
    [1e6] is not negative. *)
Lemma exposure_product_nonnegative (x : double) (z : Z) :
  dle d_0_0 x = true -> truncate (dmul x d_1e6) = Some z -> 0 <= z.
Proof.
  intros Hx Hz.
  destruct (dmul x d_1e6) as [s | s | | s m e] eqn:P; try discriminate.
  - injection Hz as <-. lia.
  - assert (s = false) as ->.
    { destruct x as [sx | sx | | sx mx ex]; try discriminate.
      destruct sx; [discriminate |].
      exact (binary_round_aux_sign _ _ _ _ _ _ _ P). }
    cbn in Hz. injection Hz as <-. apply Z.shiftl_nonneg. lia.
Qed.

Lemma exposure_microseconds_defined (x : double) (z : Z) :
  dle d_0_0 x = true -> truncate (dmul x d_1e6) = Some z -> z < 2 ^ 63 ->
  exposure_microseconds x = Some z.
Proof.
  intros Hx Hz Hlt. pose proof (exposure_product_nonnegative x z Hx Hz).
  unfold exposure_microseconds, double_to_long. rewrite Hz.
  rewrite (proj2 (Z.leb_le _ _)), (proj2 (Z.ltb_lt _ _)) by lia. reflexivity.
Qed.

Lemma iteration_no_exposure_control (cfg : Config) (id size : Z) (iteration : Trace) :
  iteration_events cfg id size iteration ->
  existsb is_exposure_control iteration = false.
Proof. destruct 1; try destruct cut_short; no_such_event. Qed.

Lemma loop_no_exposure_control (cfg : Config) (id size : Z) (new : Trace) :
  loop_events cfg id size new -> existsb is_exposure_control new = false.
Proof.
  induction 1 as [| it Hit | it rest Hit _ IH]; cbn [existsb is_exposure_control orb].
  - reflexivity.
  - exact (iteration_no_exposure_control cfg id size it Hit).
  - rewrite existsb_app, IH.
    now rewrite (iteration_no_exposure_control cfg id size it Hit).
Qed.

Lemma not_in_plain (p : Event -> bool) (e : Event) (l : Trace) :
  existsb p l = false -> p e = true -> ~ In e l.
Proof.
  intros Hl He Hin. assert (existsb p l = true) by (apply existsb_exists; eauto).
  congruence.
Qed.

(** The product of a finite duration with [1e6], when finite, is the exact
    product rounded to within half a unit of its last place; [1e6] is held
    exactly as 10^6 * 2^33 * 2^-33. *)
Lemma exposure_product_rounded (s sx : bool) (mx m : positive) (ex e : Z) :
  dmul (S754_finite sx mx ex) d_1e6 = S754_finite s m e ->
  within_half_ulp (Zpos mx * (10 ^ 6 * 2 ^ 33)) (ex - 33) (Zpos m) e.
Proof.
  intros P.
  change (dmul (S754_finite sx mx ex) d_1e6)
    with (binary_round_aux 53 1024 (xorb sx false)
                           (Zpos (mx * 8589934592000000)) (ex + -33) loc_Exact) in P.
  apply binary_round_aux_error in P.
  unfold within_half_ulp. replace (ex - 33) with (ex + -33) by lia.
  rewrite Pos2Z.inj_mul in P. exact P.
Qed.

(** C8, within the range of [long]: for a duration that is not negative and
    whose product with [1e6], computed in [double], has an integer part [z]
    below 2^63, the value handed to [ASISetControlValue] for [ASI_EXPOSURE]
    is [z], and no other value is ever set for that control; [z] is not
    negative; it is the product cut toward zero, and the product is the
    exact number of microseconds rounded to within half a unit of the last
    place of a [double]. *)
Theorem exposure_control_is_truncated_product
  (fuel : nat) (args : list string) (env : Env) (cfg : Config) (z : Z) (t : Trace) :
  parse_args (env_stod env) (env_stoi env) default_config args = Some cfg ->
  handlers_installed env ->
  camera_ready env ->
  dle d_0_0 (exposure_seconds cfg) = true ->
  truncate (dmul (exposure_seconds cfg) d_1e6) = Some z ->
  z < 2 ^ 63 ->
  trace_of (main fuel args env []) = Some t ->
  0 <= z /\
  exposure_microseconds (exposure_seconds cfg) = Some z /\
  (forall sx mx ex s m e,
      exposure_seconds cfg = S754_finite sx mx ex ->
      dmul (exposure_seconds cfg) d_1e6 = S754_finite s m e ->
      z = Z.shiftl (Zpos m) e /\
      within_half_ulp (Zpos mx * (10 ^ 6 * 2 ^ 33)) (ex - 33) (Zpos m) e) /\
  (forall id v is_auto,
      In (EvSetControlValue id ASI_EXPOSURE v is_auto) t <->
      (id = CameraID (camera_info_of env) /\ v = z /\ is_auto = ASI_FALSE)).
Proof.
  intros Hp Hh Hready Hx Hz Hlt Ht.
  pose proof (exposure_product_nonnegative _ z Hx Hz) as Hnn.
  pose proof (exposure_microseconds_defined _ z Hx Hz Hlt) as Hus.
  split; [exact Hnn |]. split; [exact Hus |]. split.
  { intros sx mx ex s m e Ex P. split.
    - rewrite P in Hz. cbn [truncate] in Hz.
      assert (s = false) as ->.
      { rewrite Ex in P, Hx. destruct sx; [discriminate |].
        exact (binary_round_aux_sign _ _ _ _ _ _ _ P). }
      now injection Hz as <-.
    - rewrite Ex in P. exact (exposure_product_rounded s sx mx m ex e P). }
  rewrite (main_startup fuel args env cfg Hp Hh) in Ht.
  destruct Hready as (Hn & Hprop & Hopen & Hinit).
  rewrite (proj2 (Z.ltb_ge _ _) Hn), Hprop, Hopen, Hinit, Hus in Ht.
  cbn [succeeded negb] in Ht.
  assert (G : exists rest,
             t = configured env cfg z ++ rest /\ existsb is_exposure_control rest = false
             \/ t = removelast (configured env cfg z)).
  { destruct (_ || _).
    - injection Ht as <-. exists []. right.
      unfold configured, discovered, banner. rewrite Hprop. reflexivity.
    - destruct (capture_and_close fuel cfg _ _ env _) as [code t' | why t' |] eqn:E;
        [| | discriminate]; injection Ht as ->.
      + apply capture_and_close_ret in E. destruct E as (_ & new & _ & Hnew & ->).
        exists (new ++ closing (CameraID (camera_info_of env))). left. split.
        * unfold configured, discovered, banner. rewrite Hprop.
          cbn [app]. reflexivity.
        * rewrite existsb_app, (loop_no_exposure_control _ _ _ _ Hnew). reflexivity.
      + apply capture_and_close_abort in E. destruct E as (new & Hnew & ->).
        exists new. left. split.
        * unfold configured, discovered, banner. rewrite Hprop.
          cbn [app]. reflexivity.
        * exact (loop_no_exposure_control _ _ _ _ Hnew). }
  destruct G as (rest & [[-> Hrest] | ->]); intros id v is_auto; split.
  - intros Hin. apply in_app_or in Hin. destruct Hin as [Hin | Hin].
    + unfold configured, discovered, banner in Hin. cbn [app In] in Hin.
      repeat (destruct Hin as [E | Hin]; [try discriminate |]); [| contradiction].
      injection E as <- <- <-. repeat split.
    + exfalso. exact (not_in_plain is_exposure_control (EvSetControlValue id ASI_EXPOSURE v is_auto)
                                rest Hrest eq_refl Hin).
  - intros (-> & -> & ->). apply in_or_app. left.
    unfold configured, discovered, banner. cbn [app In]. intuition.
  - unfold configured, discovered, banner. cbn [app removelast In].
    intros Hin.
    repeat (destruct Hin as [E | Hin]; [try discriminate |]); [| contradiction].
    injection E as <- <- <-. repeat split.
  - intros (-> & -> & ->). unfold configured, discovered, banner.
    cbn [app removelast In]. intuition.
Qed.

Lemma exposure_control_is_truncated_product_witness :
  exists t,
    trace_of (main 14 [] (with_sigint 12 healthy_env) []) = Some t /\
    0 <= 1000000 /\
    exposure_microseconds d_1_0 = Some 1000000 /\
    (forall sx mx ex s m e,
        d_1_0 = S754_finite sx mx ex ->
        dmul d_1_0 d_1e6 = S754_finite s m e ->
        1000000 = Z.shiftl (Zpos m) e /\
        within_half_ulp (Zpos mx * (10 ^ 6 * 2 ^ 33)) (ex - 33) (Zpos m) e) /\
    (forall id v is_auto,
        In (EvSetControlValue id ASI_EXPOSURE v is_auto) t <->
        (id = 0 /\ v = 1000000 /\ is_auto = ASI_FALSE)).
Proof.
  eexists. split.
  - vm_compute. reflexivity.
  - apply (exposure_control_is_truncated_product 14 [] (with_sigint 12 healthy_env)
             default_config 1000000).
    + reflexivity.
    + split; reflexivity.
    + repeat split. unfold cameras_found; cbn; lia.
    + reflexivity.
    + reflexivity.
    + lia.
    + vm_compute. reflexivity.
Defined.

(** C8 as stated fails for a duration whose microsecond count does not fit a
    [long]: 1e13 s is a [double] that is not negative, its product with
    [1e6] is 1e19, above 2^63, so the cast is undefined and no value reaches
    the exposure control. *)
Lemma exposure_of_1e13_seconds_is_undefined :
  is_double d_1e13 = true /\
  dle d_0_0 d_1e13 = true /\
  truncate (dmul d_1e13 d_1e6) = Some 10000000000000000000 /\
  exposure_microseconds d_1e13 = None /\
  exists t,
    main 0 ["--exposure-time"; "1e13"] healthy_env [] = Abort Undefined_behaviour t /\
    existsb is_exposure_control t = false.
Proof.
  repeat split; try (vm_compute; reflexivity).
  eexists. split; vm_compute; reflexivity.
Qed.

(** ** The order of the file names *)

Lemma ascii_compare_refl (c : ascii) : Ascii.compare c c = Eq.
Proof. unfold Ascii.compare. apply N.compare_refl. Qed.

Lemma string_compare_refl (s : string) : String.compare s s = Eq.
Proof. induction s as [|c s IH]; cbn; [reflexivity |]. now rewrite ascii_compare_refl. Qed.

Lemma string_compare_app (a a' x y : string) :
  String.length a = String.length a' ->
  String.compare (a ++ x) (a' ++ y) =
  match String.compare a a' with Eq => String.compare x y | c => c end.
Proof.
  revert a'. induction a as [|c a IH]; intros [|c' a'] H; try discriminate; cbn.
  - reflexivity.
  - destruct (Ascii.compare c c'); try reflexivity. apply IH. now injection H.
Qed.

Lemma string_compare_prefix (p x y : string) :
  String.compare (p ++ x) (p ++ y) = String.compare x y.
Proof. rewrite string_compare_app by reflexivity. now rewrite string_compare_refl. Qed.

Lemma fixed_width_length (k : nat) (n : Z) : String.length (fixed_width k n) = k.
Proof. induction k as [|k IH]; cbn; [reflexivity | now rewrite IH]. Qed.

Lemma digit_char_compare (a b : Z) :
  0 <= a < 10 -> 0 <= b < 10 -> Ascii.compare (digit_char a) (digit_char b) = (a ?= b).
Proof.
  intros Ha Hb.
  assert (A : forallb (fun a => forallb (fun b =>
             match Ascii.compare (digit_char a) (digit_char b), a ?= b with
             | Eq, Eq | Lt, Lt | Gt, Gt => true
             | _, _ => false
             end) (Z_range 0 10)) (Z_range 0 10) = true) by (vm_compute; reflexivity).
  pose proof (Z_range_forallb _ 0 10 a A Ha) as B. cbv beta in B.
  pose proof (Z_range_forallb _ 0 10 b B Hb) as C. cbv beta in C.
  destruct (Ascii.compare _ _), (a ?= b); try discriminate; reflexivity.
Qed.

Lemma fixed_width_compare (k : nat) (n m : Z) :
  String.compare (fixed_width k n) (fixed_width k m)
  = (n mod 10 ^ Z.of_nat k ?= m mod 10 ^ Z.of_nat k).
Proof.
  induction k as [|k IH].
  - cbn. now rewrite !Z.mod_1_r.
  - cbn [fixed_width String.compare].
    rewrite digit_char_compare by (apply Z.mod_pos_bound; lia).
    rewrite IH. rewrite Nat2Z.inj_succ, Z.pow_succ_r by lia.
    rewrite (Z.mul_comm 10).
    rewrite !(Z.rem_mul_r _ (10 ^ Z.of_nat k) 10) by lia.
    assert (P : 0 < 10 ^ Z.of_nat k) by (apply Z.pow_pos_nonneg; lia).
    pose proof (Z.mod_pos_bound n _ P). pose proof (Z.mod_pos_bound m _ P).
    pose proof (Z.mod_pos_bound (n / 10 ^ Z.of_nat k) 10 ltac:(lia)).
    pose proof (Z.mod_pos_bound (m / 10 ^ Z.of_nat k) 10 ltac:(lia)).
    set (dn := (n / 10 ^ Z.of_nat k) mod 10) in *.
    set (dm := (m / 10 ^ Z.of_nat k) mod 10) in *.
    set (rn := n mod 10 ^ Z.of_nat k) in *. set (rm := m mod 10 ^ Z.of_nat k) in *.
    set (p := 10 ^ Z.of_nat k) in *.
    destruct (Z.compare_spec dn dm) as [E | L | G].
    + subst dm. destruct (Z.compare_spec rn rm); symmetry;
        [apply Z.compare_eq_iff | apply Z.compare_lt_iff | apply Z.compare_gt_iff]; nia.
    + symmetry. apply Z.compare_lt_iff. nia.
    + symmetry. apply Z.compare_gt_iff. nia.
Qed.

Lemma fixed_width_compare_small (k : nat) (n m : Z) :
  0 <= n < 10 ^ Z.of_nat k -> 0 <= m < 10 ^ Z.of_nat k ->
  String.compare (fixed_width k n) (fixed_width k m) = (n ?= m).
Proof. intros Hn Hm. rewrite fixed_width_compare. now rewrite !Z.mod_small. Qed.

Lemma exposure_name_form_compare (y1 mo1 d1 h1 mi1 s1 ms1 y2 mo2 d2 h2 mi2 s2 ms2 : Z) :
  0 <= y1 < 10000 -> 0 <= mo1 < 100 -> 0 <= d1 < 100 -> 0 <= h1 < 100 ->
  0 <= mi1 < 100 -> 0 <= s1 < 100 -> 0 <= ms1 < 1000 ->
  0 <= y2 < 10000 -> 0 <= mo2 < 100 -> 0 <= d2 < 100 -> 0 <= h2 < 100 ->
  0 <= mi2 < 100 -> 0 <= s2 < 100 -> 0 <= ms2 < 1000 ->
  String.compare (exposure_name_form y1 mo1 d1 h1 mi1 s1 ms1)
                 (exposure_name_form y2 mo2 d2 h2 mi2 s2 ms2)
  = lex_compare [y1; mo1; d1; h1; mi1; s1; ms1] [y2; mo2; d2; h2; mi2; s2; ms2].
Proof.
  intros. unfold exposure_name_form.
  rewrite string_compare_prefix.
  repeat (first [ rewrite (string_compare_prefix "-")
                | rewrite string_compare_app by (now rewrite !fixed_width_length)
                | rewrite fixed_width_compare_small by (cbn; lia) ]).
  rewrite string_compare_refl.
  cbn [lex_compare].
  repeat match goal with |- context [?a ?= ?b] => destruct (a ?= b); try reflexivity end.
Qed.

Lemma filename_of_compare (tv1 tv2 : timeval) (ltm1 ltm2 : tm) :
  tm_in_range ltm1 -> tm_in_range ltm2 ->
  timeval_in_range tv1 -> timeval_in_range tv2 ->
  String.compare (filename_of tv1 ltm1) (filename_of tv2 ltm2)
  = lex_compare (stamp tv1 ltm1) (stamp tv2 ltm2).
Proof.
  intros R1 R2 V1 V2.
  rewrite !filename_of_form by assumption.
  pose proof (millis_range tv1 V1). pose proof (millis_range tv2 V2).
  unfold tm_in_range in R1, R2.
  apply exposure_name_form_compare; lia.
Qed.

Lemma lex_compare_eq (a b : list Z) : lex_compare a b = Eq <-> a = b.
Proof.
  revert b. induction a as [|x a IH]; intros [|y b]; cbn; try (split; congruence).
  destruct (Z.compare_spec x y) as [-> | L | G].
  - rewrite IH. split; congruence.
  - split; [discriminate | intros E; injection E; lia].
  - split; [discriminate | intros E; injection E; lia].
Qed.

(** X1: for times in the ranges [localtime] and [gettimeofday] deliver (a
    four-digit year), the name has exactly 32 characters, and two names
    compare as strings the way their times compare field by field, from
    the year down to the millisecond: sorting the files by name sorts them
    by time. *)
Theorem filenames_sort_chronologically (tv1 tv2 : timeval) (ltm1 ltm2 : tm) :
  tm_in_range ltm1 -> tm_in_range ltm2 ->
  timeval_in_range tv1 -> timeval_in_range tv2 ->
  String.length (filename_of tv1 ltm1) = 32%nat /\
  String.compare (filename_of tv1 ltm1) (filename_of tv2 ltm2)
  = lex_compare (stamp tv1 ltm1) (stamp tv2 ltm2).
Proof.
  intros R1 R2 V1 V2. split; [| now apply filename_of_compare].
  rewrite filename_of_form by assumption. reflexivity.
Qed.

Lemma filenames_sort_chronologically_witness :
  String.length (filename_of (mk_timeval 1793351225 999000) sample_tm) = 32%nat /\
  String.compare (filename_of (mk_timeval 1793351225 999000) sample_tm)
                 (filename_of (mk_timeval 1793351226 0) next_second_tm)
  = lex_compare (stamp (mk_timeval 1793351225 999000) sample_tm)
                (stamp (mk_timeval 1793351226 0) next_second_tm).
Proof.
  apply (filenames_sort_chronologically
           (mk_timeval 1793351225 999000) (mk_timeval 1793351226 0)
           sample_tm next_second_tm).
  - unfold tm_in_range; cbn; lia.
  - unfold tm_in_range; cbn; lia.
  - unfold timeval_in_range; cbn; lia.
  - unfold timeval_in_range; cbn; lia.
Defined.

Lemma stamp_inj (tv1 tv2 : timeval) (ltm1 ltm2 : tm) :
  stamp tv1 ltm1 = stamp tv2 ltm2 <-> ltm1 = ltm2 /\ millis tv1 = millis tv2.
Proof.
  unfold stamp. split.
  - destruct ltm1 as [s1 mi1 h1 d1 mo1 y1], ltm2 as [s2 mi2 h2 d2 mo2 y2].
    cbn [tm_sec tm_min tm_hour tm_mday tm_mon tm_year].
    remember (1900 + y1) as year1. remember (1900 + y2) as year2.
    remember (1 + mo1) as month1. remember (1 + mo2) as month2.
    intros E. injection E as Y Mo D H Mi S Ms.
    split; [f_equal; lia | exact Ms].
  - intros [-> ->]. reflexivity.
Qed.

(** X2: for times in those ranges, two readings of the clock get the same
    name exactly when they fall in the same second of the calendar and in
    the same millisecond; what the clock shows below the millisecond does
    not reach the name. *)
Theorem filenames_collide_iff_same_millisecond (tv1 tv2 : timeval) (ltm1 ltm2 : tm) :
  tm_in_range ltm1 -> tm_in_range ltm2 ->
  timeval_in_range tv1 -> timeval_in_range tv2 ->
  filename_of tv1 ltm1 = filename_of tv2 ltm2 <->
  ltm1 = ltm2 /\ millis tv1 = millis tv2.
Proof.
  intros R1 R2 V1 V2.
  rewrite <- stamp_inj, <- lex_compare_eq, <- filename_of_compare by assumption.
  split; [intros ->; apply string_compare_refl | apply String.compare_eq_iff].
Qed.

Lemma filenames_collide_iff_same_millisecond_witness :
  filename_of (mk_timeval 1793351225 6000) sample_tm
  = filename_of (mk_timeval 1793351225 6999) sample_tm
  <-> sample_tm = sample_tm
      /\ millis (mk_timeval 1793351225 6000) = millis (mk_timeval 1793351225 6999).
Proof.
  apply (filenames_collide_iff_same_millisecond
           (mk_timeval 1793351225 6000) (mk_timeval 1793351225 6999) sample_tm sample_tm).
  - unfold tm_in_range; cbn; lia.
  - unfold tm_in_range; cbn; lia.
  - unfold timeval_in_range; cbn; lia.
  - unfold timeval_in_range; cbn; lia.
Defined.

(** ** More on the command line *)

Lemma parse_all_unrecognized (stod : string -> option double) (stoi : string -> option Z)
  (args : list string) :
  forallb (fun a => negb (recognized a)) args = true ->
  forall cfg, parse_args stod stoi cfg args = Some cfg.
Proof.
  induction args as [|a args IH]; intros H cfg; [reflexivity |].
  cbn [forallb] in H. apply andb_true_iff in H. destruct H as [Ha H].
  rewrite parse_unrecognized by (now apply negb_true_iff). now apply IH.
Qed.

(** X3: a word that is none of the four flags, met where the scan expects
    a flag, changes nothing: the configuration is the one the other
    arguments give; and when only such words follow, it is the one the
    arguments before them give. *)
Theorem unrecognized_words_are_skipped
  (stod : string -> option double) (stoi : string -> option Z)
  (cfg : Config) (pre suf : list string) (w : string) :
  scan_complete pre = true ->
  recognized w = false ->
  parse_args stod stoi cfg (pre ++ w :: suf) = parse_args stod stoi cfg (pre ++ suf) /\
  (forallb (fun a => negb (recognized a)) suf = true ->
   parse_args stod stoi cfg (pre ++ w :: suf) = parse_args stod stoi cfg pre).
Proof.
  intros Hpre Hw. rewrite !(parse_app stod stoi pre) by assumption.
  destruct (parse_args stod stoi cfg pre) as [c|]; [| split; reflexivity].
  rewrite parse_unrecognized by assumption. split; [reflexivity |].
  intros Hs. now apply parse_all_unrecognized.
Qed.

Lemma unrecognized_words_are_skipped_witness :
  parse_args stod_table stoi_decimal default_config
             (["--gain"; "7"] ++ "stray" :: ["--interval"; "0.1"])
  = parse_args stod_table stoi_decimal default_config
               (["--gain"; "7"] ++ ["--interval"; "0.1"]) /\
  (forallb (fun a => negb (recognized a)) ["--interval"; "0.1"] = true ->
   parse_args stod_table stoi_decimal default_config
              (["--gain"; "7"] ++ "stray" :: ["--interval"; "0.1"])
   = parse_args stod_table stoi_decimal default_config ["--gain"; "7"]).
Proof.
  apply (unrecognized_words_are_skipped stod_table stoi_decimal default_config
           ["--gain"; "7"] ["--interval"; "0.1"] "stray").
  - reflexivity.
  - reflexivity.
Defined.

Lemma parse_rejected (stod : string -> option double) (stoi : string -> option Z)
  (cfg : Config) (flag v : string) (rest : list string) :
  recognized flag = true ->
  converted stod stoi flag v = None ->
  parse_args stod stoi cfg (flag :: v :: rest) = None.
Proof.
  intros Hf Hc. unfold converted in Hc.
  destruct (recognized_cases flag Hf) as [-> | [-> | [-> | ->]]];
    cbn in Hc |- *; try discriminate.
  - destruct (stod v); [discriminate | reflexivity].
  - destruct (stoi v); [discriminate | reflexivity].
  - destruct (stod v); [discriminate | reflexivity].
Qed.

(** X5: when the scan reaches a flag whose value [std::stod] or [std::stoi]
    rejects, [main] ends by the uncaught exception with an empty trace:
    no handler installed, nothing printed, no call to the camera,
    whatever the other arguments are. *)
Theorem rejected_number_ends_main_before_any_action
  (fuel : nat) (env : Env) (pre suf : list string) (flag v : string) :
  scan_complete pre = true ->
  recognized flag = true ->
  converted (env_stod env) (env_stoi env) flag v = None ->
  main fuel (pre ++ flag :: v :: suf) env [] = Abort Uncaught_exception [].
Proof.
  intros Hpre Hf Hc. apply main_parse_failed.
  rewrite parse_app by assumption.
  destruct (parse_args _ _ default_config pre); [| reflexivity].
  now apply parse_rejected.
Qed.

Lemma rejected_number_ends_main_before_any_action_witness :
  main 0 (["--gain"; "7"] ++ "--interval" :: "soon" :: ["--output-dir"; "/data"])
       healthy_env []
  = Abort Uncaught_exception [].
Proof.
  apply (rejected_number_ends_main_before_any_action 0 healthy_env
           ["--gain"; "7"] ["--output-dir"; "/data"] "--interval" "soon").
  - reflexivity.
  - reflexivity.
  - reflexivity.
Defined.

(** X4: two different flags with their values can be exchanged: the scan
    ends in the same configuration, or throws, in either order. *)
Theorem settings_of_different_flags_commute
  (stod : string -> option double) (stoi : string -> option Z)
  (cfg : Config) (f1 v1 f2 v2 : string) (rest : list string) :
  recognized f1 = true -> recognized f2 = true -> f1 <> f2 ->
  parse_args stod stoi cfg (f1 :: v1 :: f2 :: v2 :: rest)
  = parse_args stod stoi cfg (f2 :: v2 :: f1 :: v1 :: rest).
Proof.
  intros H1 H2 Hne.
  destruct (recognized_cases f1 H1) as [-> | [-> | [-> | ->]]];
    destruct (recognized_cases f2 H2) as [-> | [-> | [-> | ->]]];
    try congruence; cbn [parse_args String.eqb Ascii.eqb Bool.eqb];
    repeat match goal with
           | |- context [stod ?v] => destruct (stod v)
           | |- context [stoi ?v] => destruct (stoi v)
           end; reflexivity.
Qed.

Lemma settings_of_different_flags_commute_witness :
  parse_args stod_table stoi_decimal default_config
             ("--gain" :: "7" :: "--interval" :: "0.1" :: ["--output-dir"; "/data"])
  = parse_args stod_table stoi_decimal default_config
               ("--interval" :: "0.1" :: "--gain" :: "7" :: ["--output-dir"; "/data"]).
Proof.
  apply (settings_of_different_flags_commute stod_table stoi_decimal default_config
           "--gain" "7" "--interval" "0.1" ["--output-dir"; "/data"]).
  - reflexivity.
  - reflexivity.
  - discriminate.
Defined.

(** ** The size of the frame buffer *)

(** X6: for a camera whose width and height are not negative and fit an
    [int], the size of the frame buffer is the product width x height x
    bytes per pixel itself: the conversions to [long] keep the
    multiplication from wrapping, and the size is a [long] that is not
    negative. *)
Theorem frame_size_does_not_overflow (info : ASI_CAMERA_INFO) :
  0 <= MaxWidth info < 2 ^ 31 -> 0 <= MaxHeight info < 2 ^ 31 ->
  frame_size info
  = MaxWidth info * MaxHeight info * (if BitDepth info >? 8 then 2 else 1) /\
  0 <= frame_size info < 2 ^ 63.
Proof.
  intros Hw Hh. unfold frame_size, frame_width, frame_height, frame_bytes_per_pixel,
    image_size_of, bytes_per_pixel_of.
  rewrite !to_int_small by (unfold in_int; lia).
  assert (P : 0 <= MaxWidth info * MaxHeight info < 2 ^ 62).
  { change (2 ^ 62) with (2 ^ 31 * 2 ^ 31). change (2 ^ 31) with 2147483648 in *. nia. }
  rewrite (to_long_small (MaxWidth info * MaxHeight info))
    by (unfold in_long; change (2 ^ 63) with (2 * 2 ^ 62); lia).
  change (2 ^ 63) with (2 * 2 ^ 62).
  destruct (BitDepth info >? 8);
    rewrite to_long_small by (unfold in_long; change (2 ^ 63) with (2 * 2 ^ 62); lia); lia.
Qed.

Lemma frame_size_does_not_overflow_witness :
  frame_size small_camera
  = MaxWidth small_camera * MaxHeight small_camera
    * (if BitDepth small_camera >? 8 then 2 else 1) /\
  0 <= frame_size small_camera < 2 ^ 63.
Proof.
  apply (frame_size_does_not_overflow small_camera).
  - cbn; lia.
  - cbn; lia.
Defined.

(** ** Every action of a run *)

Lemma Forall_polling (Q : Event -> Prop) (id : Z) (k : nat) :
  Q (EvGetExpStatus id ASI_EXP_WORKING) -> Q (EvSleep 10) -> Q (EvKeepRunning true) ->
  Forall Q (polling id k).
Proof. intros. induction k; cbn; repeat constructor; assumption. Qed.

Lemma Forall_pacing (Q : Event -> Prop) (k : nat) :
  Q (EvKeepRunning true) -> Q (EvSleep 100) -> Forall Q (pacing k).
Proof. intros. induction k; cbn; repeat constructor; assumption. Qed.

Lemma Forall_last_poll (Q : Event -> Prop) (id : Z) (status : ASI_EXPOSURE_STATUS) :
  Q (EvGetExpStatus id status) -> Q (EvSleep 10) -> Q (EvKeepRunning false) ->
  Forall Q (last_poll id status).
Proof. intros. destruct status; cbn; repeat constructor; assumption. Qed.

Ltac each_event :=
  repeat first
    [ apply Forall_polling
    | apply Forall_pacing
    | apply Forall_last_poll
    | apply Forall_app; split
    | apply Forall_nil
    | apply Forall_cons ].

Lemma iteration_events_each (cfg : Config) (id size : Z) (iteration : Trace) :
  iteration_events cfg id size iteration -> Forall (loop_event cfg id size) iteration.
Proof.
  destruct 1; try destruct cut_short; each_event; cbn; unfold saved_line; eauto 8.
Qed.

Lemma loop_events_each (cfg : Config) (id size : Z) (new : Trace) :
  loop_events cfg id size new -> Forall (loop_event cfg id size) new.
Proof.
  induction 1 as [| it Hit | it rest Hit _ IH]; each_event; cbn; auto;
    now apply iteration_events_each.
Qed.

(** Once the command line is parsed and the handlers are installed, every
    trace of [main] is one of [main_trace]. *)
Lemma main_trace_installed (fuel : nat) (args : list string) (env : Env) (cfg : Config)
  (t : Trace) :
  parse_args (env_stod env) (env_stoi env) default_config args = Some cfg ->
  handlers_installed env ->
  trace_of (main fuel args env []) = Some t ->
  main_trace env cfg t.
Proof.
  intros Hp Hh H.
  rewrite (main_startup fuel args env cfg Hp Hh) in H.
  destruct (cameras_found env <? 1) eqn:C.
  { injection H as <-. apply trace_no_camera. now apply Z.ltb_lt. }
  apply Z.ltb_ge in C.
  destruct (succeeded (property_result env)) eqn:P; cbn [negb] in H.
  2: { injection H as <-. apply trace_no_property; [assumption |].
       now apply succeeded_false. }
  apply succeeded_true in P.
  destruct (succeeded (open_result env)) eqn:O; cbn [negb] in H.
  2: { injection H as <-. apply trace_open_failed; try assumption.
       now apply succeeded_false. }
  apply succeeded_true in O.
  destruct (succeeded (init_result env)) eqn:I; cbn [negb] in H.
  2: { injection H as <-. rewrite O. apply trace_init_failed; try assumption.
       now apply succeeded_false. }
  apply succeeded_true in I.
  assert (R : camera_ready env) by (repeat split; assumption).
  rewrite O, I in H.
  destruct (exposure_microseconds (exposure_seconds cfg)) as [us|] eqn:U.
  2: { injection H as <-. now apply trace_exposure_undefined. }
  destruct (frame_size (camera_info_of env) <? 0) eqn:Hneg; cbn [orb] in H.
  { injection H as <-. apply (trace_no_buffer env cfg us R U). left. now apply Z.ltb_lt. }
  apply Z.ltb_ge in Hneg.
  destruct (env_memory env _) eqn:Hm; cbn [negb] in H.
  2: { injection H as <-. apply (trace_no_buffer env cfg us R U). now right. }
  change (discovered env cfg ++ _) with (configured env cfg us) in H.
  destruct (capture_and_close fuel cfg _ _ env _) as [code t' | why t' |] eqn:E;
    [| | discriminate]; injection H as ->.
  - apply capture_and_close_ret in E. destruct E as (_ & new & _ & Hnew & ->).
    now apply trace_returned.
  - apply capture_and_close_abort in E. destruct E as (new & Hnew & ->).
    now apply trace_in_loop.
Qed.

(** Without the handlers, or with arguments that do not parse, the trace is
    empty or stops after the first handler. *)
Lemma main_traces (fuel : nat) (args : list string) (env : Env) (t : Trace) :
  trace_of (main fuel args env []) = Some t ->
  t = [] \/ t = [EvSignal SIGINT] \/
  exists cfg,
    parse_args (env_stod env) (env_stoi env) default_config args = Some cfg /\
    handlers_installed env /\ main_trace env cfg t.
Proof.
  intros H.
  destruct (parse_args (env_stod env) (env_stoi env) default_config args)
    as [cfg|] eqn:Hp.
  2: { rewrite main_parse_failed in H by assumption. injection H as <-. now left. }
  destruct (delivered (env_sigint env) 0) eqn:Hi.
  { destruct (main_killed fuel args env cfg Hp) as [E | E];
      [intros [K _]; congruence | | ]; rewrite E in H; injection H as <-; auto. }
  destruct (delivered (env_sigterm env) 1) eqn:Ht.
  { destruct (main_killed fuel args env cfg Hp) as [E | E];
      [intros [_ K]; congruence | | ]; rewrite E in H; injection H as <-; auto. }
  right. right. exists cfg. split; [reflexivity |]. split; [now split |].
  now apply (main_trace_installed fuel args env cfg t Hp (conj Hi Ht)).
Qed.

Ltac unfold_traces :=
  unfold configured, discovered, banner, opened, closing.

Lemma main_trace_each (env : Env) (cfg : Config) (t : Trace) :
  main_trace env cfg t -> Forall (main_event env cfg) t.
Proof.
  assert (L : forall new,
             0 <= frame_size (camera_info_of env) ->
             loop_events cfg (CameraID (camera_info_of env))
                         (frame_size (camera_info_of env)) new ->
             Forall (main_event env cfg) new).
  { intros new Hs Hnew. apply loop_events_each in Hnew.
    eapply Forall_impl; [| exact Hnew]. intros e He.
    destruct e; cbn in He |- *; try tauto. }
  destruct 1 as [ | | | | R | us R | us new R | us new R ];
    try (destruct R as (_ & Hp & Ho & Hi));
    unfold_traces; each_event; cbn; auto; try (rewrite ?Ho, ?Hi; now auto).
Qed.

Lemma main_events (fuel : nat) (args : list string) (env : Env) (t : Trace) :
  trace_of (main fuel args env []) = Some t ->
  exists cfg, Forall (main_event env cfg) t.
Proof.
  intros H. destruct (main_traces fuel args env t H) as [-> | [-> | (cfg & _ & _ & Ht)]].
  - exists default_config. constructor.
  - exists default_config. repeat constructor.
  - exists cfg. now apply main_trace_each.
Qed.

(** X8: whatever way a run of [main] ends, the properties are asked for
    the camera of index 0 only, and every later call to the driver (open,
    initialize, region of interest, controls, exposures, status, frame,
    close) carries the id those properties reported. *)
Theorem every_call_addresses_the_described_camera
  (fuel : nat) (args : list string) (env : Env) (t : Trace) :
  trace_of (main fuel args env []) = Some t ->
  (forall index r info,
      In (EvGetCameraProperty index r info) t ->
      index = 0 /\ info = camera_info_of env) /\
  (forall e id, In e t -> camera_of e = Some id -> id = CameraID (camera_info_of env)).
Proof.
  intros H. destruct (main_events fuel args env t H) as (cfg & G).
  rewrite Forall_forall in G. split.
  - intros index r info Hin. apply G in Hin. cbn in Hin. tauto.
  - intros e id Hin E. apply G in Hin.
    destruct e; cbn in E, Hin; try discriminate; injection E as <-; tauto.
Qed.

Lemma every_call_addresses_the_described_camera_witness :
  exists t,
    trace_of (main 5 [] (with_sigint 25 healthy_env) []) = Some t /\
    (forall index r info,
        In (EvGetCameraProperty index r info) t ->
        index = 0 /\ info = small_camera) /\
    (forall e id, In e t -> camera_of e = Some id -> id = 0).
Proof.
  eexists. split.
  - vm_compute. reflexivity.
  - apply (every_call_addresses_the_described_camera 5 [] (with_sigint 25 healthy_env)).
    vm_compute. reflexivity.
Defined.

(** X9: whatever way a run of [main] ends, every call that fetches a
    frame asks for width x height x bytes_per_pixel bytes, the size the
    buffer was given, and that size is not negative. *)
Theorem fetch_asks_for_one_whole_frame
  (fuel : nat) (args : list string) (env : Env) (t : Trace) (id n : Z)
  (r : ASI_ERROR_CODE) :
  trace_of (main fuel args env []) = Some t ->
  In (EvGetDataAfterExp id n r) t ->
  0 <= n /\
  n = frame_width (camera_info_of env) * frame_height (camera_info_of env)
      * frame_bytes_per_pixel (camera_info_of env).
Proof.
  intros H Hin. destruct (main_events fuel args env t H) as (cfg & G).
  rewrite Forall_forall in G. apply G in Hin. cbn in Hin.
  destruct Hin as (Hs & _ & ->). split; [assumption | now apply frame_size_exact].
Qed.

Lemma fetch_asks_for_one_whole_frame_witness :
  exists t,
    trace_of (main 5 [] (with_sigint 25 healthy_env) []) = Some t /\
    In (EvGetDataAfterExp 0 24 ASI_SUCCESS) t /\
    0 <= 24 /\
    24 = frame_width small_camera * frame_height small_camera
         * frame_bytes_per_pixel small_camera.
Proof.
  eexists. split; [vm_compute; reflexivity |].
  match goal with
  | |- In ?e ?t /\ _ =>
    assert (H : In e t) by (cbn [In]; repeat (first [left; reflexivity | right]))
  end.
  split; [exact H |].
  eapply (fetch_asks_for_one_whole_frame 5 [] (with_sigint 25 healthy_env) _ 0 24
           ASI_SUCCESS); [vm_compute; reflexivity | exact H].
Defined.

Lemma split_at_unique (p : Event -> bool) (a b pre post : Trace) (x y : Event) :
  existsb p a = false -> existsb p b = false -> p y = true ->
  a ++ x :: b = pre ++ y :: post ->
  pre = a /\ y = x /\ post = b.
Proof.
  intros Ha Hb Hy. revert pre. induction a as [|e a IH]; intros [|e' pre] E; cbn in E.
  - injection E as -> ->. auto.
  - injection E as -> ->. rewrite existsb_app in Hb. cbn in Hb. rewrite Hy in Hb.
    now rewrite orb_true_r in Hb.
  - injection E as -> _. cbn in Ha. now rewrite Hy in Ha.
  - injection E as -> E. cbn in Ha. apply orb_false_iff in Ha. destruct Ha as [_ Ha].
    destruct (IH Ha pre E) as (-> & -> & ->). auto.
Qed.

Lemma main_trace_close (env : Env) (cfg : Config) (t : Trace) :
  main_trace env cfg t ->
  existsb is_camera_close t = false \/
  exists us new,
    existsb is_camera_close new = false /\
    t = (configured env cfg us ++ new
           ++ [EvPrint Cout [Text (newline ++ "Stopping capture...")%string]])
          ++ EvCloseCamera (CameraID (camera_info_of env))
          :: [EvPrint Cout [Text "Camera closed. Exiting."]].
Proof.
  destruct 1 as [ | | | | R | us R | us new R U S L | us new R U S L ].
  1-6: left; unfold_traces; rewrite ?existsb_app; reflexivity.
  - left. unfold_traces. rewrite ?existsb_app.
    rewrite (loop_no_camera_session is_camera_close _ _ _ new (or_intror eq_refl) L).
    reflexivity.
  - right. exists us, new. split.
    + now apply (loop_no_camera_session is_camera_close _ _ _ new (or_intror eq_refl)) in L.
    + unfold closing. now rewrite <- !app_assoc.
Qed.

(** X16: whatever way a run of [main] ends, a call that closes the camera
    is followed by the last line of output and nothing else, is the only
    such call, and comes after that camera was opened and initialized with
    success: the camera is never used after its release, never released
    twice, and never released without having been acquired. *)
Theorem camera_is_released_last_and_only_if_opened
  (fuel : nat) (args : list string) (env : Env) (t pre post : Trace) (id : Z) :
  trace_of (main fuel args env []) = Some t ->
  t = pre ++ EvCloseCamera id :: post ->
  post = [EvPrint Cout [Text "Camera closed. Exiting."]] /\
  existsb is_camera_close pre = false /\
  In (EvOpenCamera id ASI_SUCCESS) pre /\ In (EvInitCamera id ASI_SUCCESS) pre.
Proof.
  intros H E.
  destruct (main_traces fuel args env t H) as [-> | [-> | (cfg & _ & _ & Ht)]].
  - now destruct pre.
  - destruct pre as [|? [|? ?]]; discriminate.
  - destruct (main_trace_close env cfg t Ht) as [N | (us & new & N & E')].
    + rewrite E, existsb_app in N. cbn in N. now rewrite orb_true_r in N.
    + rewrite E' in E.
      assert (P : existsb is_camera_close
                    (configured env cfg us ++ new
                       ++ [EvPrint Cout [Text (newline ++ "Stopping capture...")%string]])
                  = false).
      { unfold_traces. rewrite !existsb_app, N. reflexivity. }
      apply (split_at_unique is_camera_close) in E; [| exact P | reflexivity | reflexivity].
      destruct E as (-> & E & ->). injection E as ->.
      split; [reflexivity |]. split; [exact P |].
      unfold configured. split; apply in_or_app; left; apply in_or_app; right; cbn; auto.
Qed.

Lemma camera_is_released_last_and_only_if_opened_witness :
  exists t pre,
    trace_of (main 5 [] (with_sigint 25 healthy_env) []) = Some t /\
    t = pre ++ EvCloseCamera 0 :: [EvPrint Cout [Text "Camera closed. Exiting."]] /\
    [EvPrint Cout [Text "Camera closed. Exiting."]]
    = [EvPrint Cout [Text "Camera closed. Exiting."]] /\
    existsb is_camera_close pre = false /\
    In (EvOpenCamera 0 ASI_SUCCESS) pre /\ In (EvInitCamera 0 ASI_SUCCESS) pre.
Proof.
  eexists. eexists.
  assert (E : trace_of (main 5 [] (with_sigint 25 healthy_env) []) =
              Some (removelast (removelast
                      (match main 5 [] (with_sigint 25 healthy_env) [] with
                       | Ret _ t => t | _ => [] end))
                    ++ EvCloseCamera 0 :: [EvPrint Cout [Text "Camera closed. Exiting."]]))
    by (vm_compute; reflexivity).
  split; [exact E |]. split; [reflexivity |].
  exact (camera_is_released_last_and_only_if_opened 5 [] (with_sigint 25 healthy_env)
           _ _ _ 0 E eq_refl).
Defined.

(** ** The configuration of the camera *)

Lemma filter_none (p : Event -> bool) (l : Trace) :
  Forall (fun e => p e = false) l -> filter p l = [].
Proof. induction 1 as [|e l He _ IH]; cbn; [reflexivity | now rewrite He]. Qed.

Lemma loop_sets_nothing (cfg : Config) (id size : Z) (new : Trace) :
  loop_events cfg id size new ->
  filter is_roi new = [] /\ filter is_gain_control new = [].
Proof.
  intros H. apply loop_events_each in H.
  split; apply filter_none; (eapply Forall_impl; [| exact H]);
    intros e He; destruct e; try reflexivity; destruct He.
Qed.

(** X7: a run that returns with the camera ready has configured it in
    the first fifteen actions, before any exposure is started, and never
    again: one call sets the region of interest to the whole sensor at
    binning 1 with 16-bit samples exactly when the frame has 2 bytes per
    pixel, and one call sets the gain to the configured value with the
    automatic mode off. *)
Theorem camera_is_configured_once_before_the_first_exposure
  (fuel : nat) (args : list string) (env : Env) (cfg : Config) (code : Z) (t : Trace) :
  parse_args (env_stod env) (env_stoi env) default_config args = Some cfg ->
  handlers_installed env ->
  camera_ready env ->
  main fuel args env [] = Ret code t ->
  (exists exposure_us rest,
      t = configured env cfg exposure_us ++ rest /\
      existsb is_trigger (configured env cfg exposure_us) = false) /\
  filter is_roi t
  = [EvSetROIFormat (CameraID (camera_info_of env))
                    (frame_width (camera_info_of env)) (frame_height (camera_info_of env))
                    1 (img_type_of (BitDepth (camera_info_of env)))] /\
  filter is_gain_control t
  = [EvSetControlValue (CameraID (camera_info_of env)) ASI_GAIN (gain_value cfg) ASI_FALSE] /\
  (img_type_of (BitDepth (camera_info_of env)) = ASI_IMG_RAW16 <->
   frame_bytes_per_pixel (camera_info_of env) = 2).
Proof.
  intros Hp Hh R H.
  destruct (main_ready_returns_0 fuel args env cfg code t Hp Hh R H)
    as (_ & us & new & Hnew & ->).
  destruct (loop_sets_nothing _ _ _ _ Hnew) as (N1 & N2).
  split; [exists us; eexists; split; reflexivity |].
  rewrite !filter_app, N1, N2.
  split; [reflexivity |]. split; [reflexivity |].
  unfold img_type_of, frame_bytes_per_pixel, bytes_per_pixel_of.
  destruct (BitDepth (camera_info_of env) >? 8); split; (reflexivity || discriminate).
Qed.

Lemma camera_is_configured_once_before_the_first_exposure_witness :
  exists code t,
    main 5 ["--gain"; "7"] (with_sigint 25 healthy_env) [] = Ret code t /\
    (exists exposure_us rest,
        t = configured (with_sigint 25 healthy_env) (set_gain_value 7 default_config)
                       exposure_us ++ rest /\
        existsb is_trigger
                (configured (with_sigint 25 healthy_env) (set_gain_value 7 default_config)
                            exposure_us) = false) /\
    filter is_roi t = [EvSetROIFormat 0 4 3 1 ASI_IMG_RAW16] /\
    filter is_gain_control t = [EvSetControlValue 0 ASI_GAIN 7 ASI_FALSE] /\
    (img_type_of (BitDepth small_camera) = ASI_IMG_RAW16 <->
     frame_bytes_per_pixel small_camera = 2).
Proof.
  eexists. eexists. split.
  - vm_compute. reflexivity.
  - apply (camera_is_configured_once_before_the_first_exposure
             5 ["--gain"; "7"] (with_sigint 25 healthy_env)
             (set_gain_value 7 default_config) 0).
    + reflexivity.
    + split; reflexivity.
    + repeat split. unfold cameras_found; cbn; lia.
    + vm_compute. reflexivity.
Defined.

(** ** What precedes a fetch and an opening *)

Lemma guarded_app (a b : Trace) : guarded a -> guarded b -> guarded (a ++ b).
Proof.
  intros Ha Hb. induction Ha; cbn [app]; [assumption | | |]; now constructor.
Qed.

Lemma guarded_plain (l : Trace) :
  existsb is_fetch l = false -> existsb is_open_file l = false -> guarded l.
Proof.
  induction l as [|e l IH]; cbn; intros H1 H2; [constructor |].
  apply orb_false_iff in H1, H2. destruct H1, H2. constructor; auto.
Qed.

Ltac guarded_tac :=
  repeat first
    [ apply guarded_nil
    | apply guarded_open
    | apply guarded_fetch
    | apply guarded_other; [reflexivity | reflexivity |]
    | solve [apply guarded_plain; no_such_event]
    | apply guarded_app ].

Lemma iteration_guarded (cfg : Config) (id size : Z) (iteration : Trace) :
  iteration_events cfg id size iteration -> guarded iteration.
Proof.
  destruct 1; try destruct cut_short; try destruct status;
    unfold last_poll; cbn [app]; guarded_tac.
Qed.

Lemma loop_guarded (cfg : Config) (id size : Z) (new : Trace) :
  loop_events cfg id size new -> guarded new.
Proof.
  induction 1 as [| it Hit | it rest Hit _ IH]; guarded_tac;
    try (eapply iteration_guarded; eassumption); assumption.
Qed.

Lemma guarded_fetch_preceded (t : Trace) :
  guarded t ->
  forall pre id size r post,
    t = pre ++ EvGetDataAfterExp id size r :: post ->
    exists pre', pre = pre' ++ [EvGetExpStatus id ASI_EXP_SUCCESS; EvSleep 10;
                                EvKeepRunning true].
Proof.
  induction 1 as [| e t He Ho Ht IH | i s r0 t Ht IH | i s tv path ok t Ht IH];
    intros pre id size r post E.
  - now destruct pre.
  - destruct pre as [|x pre]; cbn in E; inversion E; subst; [discriminate |].
    destruct (IH _ _ _ _ _ eq_refl) as (pre' & ->). now exists (x :: pre').
  - destruct pre as [|x1 [|x2 [|x3 [|x4 pre]]]]; cbn in E; try discriminate.
    + injection E as <- <- <- <- _ _ _. now exists [].
    + injection E as <- <- <- <- E. destruct (IH _ _ _ _ _ E) as (pre' & ->).
      now eexists (_ :: _ :: _ :: _ :: pre').
  - destruct pre as [|x1 [|x2 [|x3 [|x4 [|x5 [|x6 pre]]]]]]; cbn in E; try discriminate.
    + injection E as <- <- <- <- _ _ _. now exists [].
    + injection E as <- <- <- <- <- <- E. destruct (IH _ _ _ _ _ E) as (pre' & ->).
      now eexists (_ :: _ :: _ :: _ :: _ :: _ :: pre').
Qed.

Lemma guarded_open_preceded (t : Trace) :
  guarded t ->
  forall pre path ok post,
    t = pre ++ EvOpenFile path ok :: post ->
    exists pre' id size tv,
      pre = pre' ++ [EvGetDataAfterExp id size ASI_SUCCESS; EvGetTimeOfDay tv].
Proof.
  induction 1 as [| e t He Ho Ht IH | i s r0 t Ht IH | i s tv path0 ok0 t Ht IH];
    intros pre path ok post E.
  - now destruct pre.
  - destruct pre as [|x pre]; cbn in E; inversion E; subst; [discriminate |].
    destruct (IH _ _ _ _ eq_refl) as (pre' & id & size & tv & ->).
    now exists (x :: pre'), id, size, tv.
  - destruct pre as [|x1 [|x2 [|x3 [|x4 pre]]]]; cbn in E; try discriminate.
    injection E as <- <- <- <- E.
    destruct (IH _ _ _ _ E) as (pre' & id & size & tv & ->).
    now eexists (_ :: _ :: _ :: _ :: pre'), id, size, tv.
  - destruct pre as [|x1 [|x2 [|x3 [|x4 [|x5 [|x6 pre]]]]]]; cbn in E; try discriminate.
    + injection E as <- <- <- <- <- _ _ _.
      now exists [EvGetExpStatus i ASI_EXP_SUCCESS; EvSleep 10; EvKeepRunning true],
                 i, s, tv.
    + injection E as <- <- <- <- <- <- E.
      destruct (IH _ _ _ _ E) as (pre' & id & size & tv' & ->).
      now eexists (_ :: _ :: _ :: _ :: _ :: _ :: pre'), id, size, tv'.
Qed.

Lemma main_trace_guarded (env : Env) (cfg : Config) (t : Trace) :
  main_trace env cfg t -> guarded t.
Proof.
  destruct 1 as [ | | | | R | us R | us new R U S L | us new R U S L ];
    unfold_traces; guarded_tac; eapply loop_guarded; eassumption.
Qed.

(** X10: whatever way a run of [main] ends, every fetch of a frame comes
    right after a status poll that reported success, its 10 ms sleep and a
    read of the flag that found it clear; and every opening of a file comes
    right after a fetch that succeeded and the reading of the clock.  So
    the buffer is written to a file only with a frame fetched in the same
    iteration. *)
Theorem frame_is_fetched_after_success_and_stored_after_fetch
  (fuel : nat) (args : list string) (env : Env) (t : Trace) :
  trace_of (main fuel args env []) = Some t ->
  (forall pre id size r post,
      t = pre ++ EvGetDataAfterExp id size r :: post ->
      exists pre', pre = pre' ++ [EvGetExpStatus id ASI_EXP_SUCCESS; EvSleep 10;
                                  EvKeepRunning true]) /\
  (forall pre path ok post,
      t = pre ++ EvOpenFile path ok :: post ->
      exists pre' id size tv,
        pre = pre' ++ [EvGetDataAfterExp id size ASI_SUCCESS; EvGetTimeOfDay tv]).
Proof.
  intros H.
  assert (G : guarded t).
  { destruct (main_traces fuel args env t H) as [-> | [-> | (cfg & _ & _ & Ht)]].
    - constructor.
    - guarded_tac.
    - now apply main_trace_guarded with env cfg. }
  split; [now apply guarded_fetch_preceded | now apply guarded_open_preceded].
Qed.

Lemma frame_is_fetched_after_success_and_stored_after_fetch_witness :
  exists t,
    trace_of (main 5 [] (with_sigint 25 healthy_env) []) = Some t /\
    (forall pre id size r post,
        t = pre ++ EvGetDataAfterExp id size r :: post ->
        exists pre', pre = pre' ++ [EvGetExpStatus id ASI_EXP_SUCCESS; EvSleep 10;
                                    EvKeepRunning true]) /\
    (forall pre path ok post,
        t = pre ++ EvOpenFile path ok :: post ->
        exists pre' id size tv,
          pre = pre' ++ [EvGetDataAfterExp id size ASI_SUCCESS; EvGetTimeOfDay tv]).
Proof.
  eexists. split.
  - vm_compute. reflexivity.
  - apply (frame_is_fetched_after_success_and_stored_after_fetch
             5 [] (with_sigint 25 healthy_env)).
    vm_compute. reflexivity.
Defined.

(** ** The names of the files *)






(** ** After the signal *)

Lemma since_shutdown_set (env : Env) (now : nat) (t : Trace) :
  shutdown_requested env now = true -> since_shutdown env now t = t.
Proof. intros H. destruct t; cbn; [reflexivity | now rewrite H]. Qed.

Lemma since_shutdown_clear (env : Env) (m : nat) (t : Trace) :
  shutdown_requested env m = false ->
  forall now, (now + List.length t <= S m)%nat -> since_shutdown env now t = [].
Proof.
  intros H. induction t as [|e t IH]; intros now L; cbn in *; [reflexivity |].
  rewrite (shutdown_requested_later env now m) by (lia || assumption).
  apply IH. lia.
Qed.

Lemma since_shutdown_app (env : Env) (a b : Trace) :
  forall now,
    since_shutdown env now (a ++ b)
    = since_shutdown env now a ++ since_shutdown env (now + List.length a) b.
Proof.
  induction a as [|e a IH]; intros now; cbn [app since_shutdown List.length].
  - now rewrite Nat.add_0_r.
  - destruct (shutdown_requested env now) eqn:F.
    + rewrite since_shutdown_set; [reflexivity |].
      apply (shutdown_requested_mono env now); [lia | assumption].
    + rewrite IH. now replace (S now + List.length a)%nat with (now + S (List.length a))%nat by lia.
Qed.

Lemma since_shutdown_length (env : Env) (t : Trace) :
  forall now, (List.length (since_shutdown env now t) <= List.length t)%nat.
Proof.
  induction t as [|e t IH]; intros now; cbn; [lia |].
  destruct (shutdown_requested env now); cbn; [lia |]. specialize (IH (S now)). lia.
Qed.

Lemma since_shutdown_entered (env : Env) (now : nat) (t : Trace) :
  since_shutdown env now t <> [] ->
  shutdown_requested env (now + List.length t) = true.
Proof.
  intros H. destruct (shutdown_requested env (now + List.length t)) eqn:F; [reflexivity |].
  exfalso. apply H. apply (since_shutdown_clear env _ t F). lia.
Qed.

Lemma sleep_time_app (a b : Trace) : sleep_time (a ++ b) = sleep_time a + sleep_time b.
Proof.
  unfold sleep_time. induction a as [|e a IH]; cbn; [reflexivity |]. rewrite IH. lia.
Qed.

Lemma sleep_time_none (t : Trace) :
  Forall (fun e => sleep_ms e = 0) t -> sleep_time t = 0.
Proof. unfold sleep_time. induction 1 as [|e t He _ IH]; cbn; [reflexivity | lia]. Qed.

Lemma since_shutdown_each (Q : Event -> Prop) (env : Env) (t : Trace) :
  Forall Q t -> forall now, Forall Q (since_shutdown env now t).
Proof.
  induction 1 as [|e t He Ht IH]; intros now; cbn; [constructor |].
  destruct (shutdown_requested env now); [now constructor | apply IH].
Qed.

Lemma sleep_time_cons (e : Event) (t : Trace) :
  sleep_time (e :: t) = sleep_ms e + sleep_time t.
Proof. reflexivity. Qed.

Lemma sleep_time_nonneg (t : Trace) :
  Forall (fun e => 0 <= sleep_ms e) t -> 0 <= sleep_time t.
Proof.
  induction 1 as [|e t He _ IH]; [unfold sleep_time; cbn; lia |].
  rewrite sleep_time_cons. lia.
Qed.

(** With no negative sleep in it, the part after the signal sleeps no
    longer than the whole. *)
Lemma since_shutdown_sleep_time (env : Env) (t : Trace) :
  Forall (fun e => 0 <= sleep_ms e) t ->
  forall now, 0 <= sleep_time (since_shutdown env now t) <= sleep_time t.
Proof.
  induction 1 as [|e t He Ht IH]; intros now; cbn [since_shutdown].
  - unfold sleep_time; cbn; lia.
  - destruct (shutdown_requested env now).
    + pose proof (sleep_time_nonneg (e :: t) (Forall_cons e He Ht)). lia.
    + specialize (IH (S now)). rewrite sleep_time_cons. lia.
Qed.

Lemma since_shutdown_count (p : Event -> bool) (env : Env) (t : Trace) :
  forall now, (count p (since_shutdown env now t) <= count p t)%nat.
Proof.
  unfold count. induction t as [|e t IH]; intros now; cbn [since_shutdown]; [lia |].
  destruct (shutdown_requested env now); [lia |].
  specialize (IH (S now)). cbn [filter]. destruct (p e); cbn [List.length]; lia.
Qed.

(** What remains of the pacing wait once the flag is set: the slice under
    way and the read that finds the flag set. *)
Lemma pace_after_signal (fuel : nat) (interval : double) (env : Env) :
  forall waited t t',
    pace fuel interval waited env t = Ret tt t' ->
    exists new,
      t' = t ++ new /\
      (List.length (since_shutdown env (List.length t) new) <= 2)%nat /\
      sleep_time (since_shutdown env (List.length t) new) <= 100 /\
      existsb is_trigger new = false /\
      (shutdown_requested env (List.length t) = true ->
       (List.length new <= 1)%nat /\ sleep_time new = 0).
Proof.
  induction fuel as [|fuel IH]; intros waited t t' H; [discriminate |].
  cbn [pace] in H. destruct (dlt waited interval).
  2: { injection H as <-. exists []. rewrite app_nil_r. cbn. repeat split; lia. }
  run_step in H.
  destruct (shutdown_requested env (List.length t)) eqn:F; cbn [negb] in H.
  - injection H as <-. exists [EvKeepRunning false]. cbn. rewrite F. cbn.
    repeat split; lia.
  - apply IH in H. destruct H as (new & -> & Hl & Hs & Ht & He).
    rewrite !length_app in Hl, Hs, He. cbn [List.length] in Hl, Hs, He.
    replace (List.length t + 1 + 1)%nat with (S (S (List.length t))) in * by lia.
    exists (EvKeepRunning true :: EvSleep 100 :: new). tidy_trace.
    split; [reflexivity |]. cbn [since_shutdown]. rewrite F.
    destruct (shutdown_requested env (S (List.length t))) eqn:G.
    + destruct He as (He1 & He2).
      { apply (shutdown_requested_mono env (S (List.length t))); [lia | assumption]. }
      rewrite sleep_time_cons. cbn [List.length sleep_ms existsb is_trigger orb].
      repeat split; try lia; try assumption; discriminate.
    + cbn [existsb is_trigger orb]. repeat split; try assumption; discriminate.
Qed.

(** What remains of the status poll once the flag is set: one round. *)
Lemma wait_exposure_after_signal (fuel : nat) (id : Z) (env : Env) :
  forall t status t',
    wait_exposure fuel id env t = Ret status t' ->
    exists new,
      t' = t ++ new /\
      (List.length (since_shutdown env (List.length t) new) <= 3)%nat /\
      sleep_time (since_shutdown env (List.length t) new) <= 10 /\
      existsb is_trigger new = false.
Proof.
  induction fuel as [|fuel IH]; intros t status t' H; [discriminate |].
  cbn [wait_exposure] in H. run_step in H.
  assert (B : forall l,
             (List.length l <= 3)%nat -> sleep_time l <= 10 ->
             Forall (fun e => 0 <= sleep_ms e) l ->
             (List.length (since_shutdown env (List.length t) l) <= 3)%nat /\
             sleep_time (since_shutdown env (List.length t) l) <= 10).
  { intros l L1 L2 L3. split.
    - pose proof (since_shutdown_length env l (List.length t)). lia.
    - pose proof (since_shutdown_sleep_time env l L3 (List.length t)). lia. }
  destruct (env_exp_status env (List.length t)) eqn:E.
  1, 3, 4: injection H as <- <-; tidy_trace; eexists; (split; [reflexivity |]);
    apply and_assoc; (split; [| reflexivity]); apply B;
    [cbn; lia | unfold sleep_time; cbn; lia | repeat constructor; cbn; lia].
  tidy_trace.
  destruct (shutdown_requested env (S (S (List.length t)))) eqn:F; cbn [negb] in H.
  - injection H as <- <-. tidy_trace. eexists. split; [reflexivity |].
    apply and_assoc. split; [| reflexivity]. apply B;
      [cbn; lia | unfold sleep_time; cbn; lia | repeat constructor; cbn; lia].
  - apply IH in H. destruct H as (new & -> & Hl & Hs & Ht).
    rewrite !length_app in Hl, Hs. cbn [List.length] in Hl, Hs.
    exists (EvGetExpStatus id ASI_EXP_WORKING :: EvSleep 10 :: EvKeepRunning true :: new).
    tidy_trace. split; [reflexivity |].
    change (EvGetExpStatus id ASI_EXP_WORKING :: EvSleep 10 :: EvKeepRunning true :: new)
      with ([EvGetExpStatus id ASI_EXP_WORKING; EvSleep 10; EvKeepRunning true] ++ new).
    rewrite since_shutdown_app.
    rewrite (since_shutdown_clear env (S (S (List.length t)))) by (assumption || (cbn; lia)).
    cbn [app List.length existsb is_trigger orb].
    repeat split; assumption.
Qed.

Lemma since_shutdown_within (env : Env) (now : nat) (l : Trace) (n k : nat) (ms : Z) :
  Forall (fun e => 0 <= sleep_ms e) l ->
  (List.length l <= n)%nat -> sleep_time l <= ms -> (count is_trigger l <= k)%nat ->
  (List.length (since_shutdown env now l) <= n)%nat /\
  sleep_time (since_shutdown env now l) <= ms /\
  (count is_trigger (since_shutdown env now l) <= k)%nat.
Proof.
  intros H Hn Hms Hk.
  pose proof (since_shutdown_length env l now).
  pose proof (since_shutdown_sleep_time env l H now).
  pose proof (since_shutdown_count is_trigger env l now).
  repeat split; lia.
Qed.

(** Past a read of the flag that found it clear, nothing earlier counts. *)
Lemma since_shutdown_past_read (env : Env) (t wnew tail : Trace) (e0 : Event) :
  shutdown_requested env (List.length (t ++ e0 :: wnew)) = false ->
  since_shutdown env (List.length t) (e0 :: wnew ++ EvKeepRunning true :: tail)
  = since_shutdown env (S (List.length (t ++ e0 :: wnew))) tail.
Proof.
  intros F.
  change (e0 :: wnew ++ EvKeepRunning true :: tail)
    with ((e0 :: wnew) ++ [EvKeepRunning true] ++ tail).
  rewrite app_assoc, since_shutdown_app.
  rewrite (since_shutdown_clear env _ _ F).
  - cbn [app]. f_equal.
    repeat (first [rewrite length_app | progress cbn [List.length app]]). lia.
  - repeat (first [rewrite length_app | progress cbn [List.length app]]). lia.
Qed.

Ltac within n ms k :=
  match goal with
  | |- context [since_shutdown ?env ?now ?l] =>
    let B1 := fresh "B" in
    let B2 := fresh "B" in
    let B3 := fresh "B" in
    destruct (since_shutdown_within env now l n k ms) as (B1 & B2 & B3);
    [ repeat constructor; cbn; lia
    | cbn; lia
    | unfold sleep_time; cbn; lia
    | unfold count; cbn; lia
    | ]
  end.

(** What remains of one run of the body once the flag is set. *)
Lemma capture_iteration_after_signal
  (fuel : nat) (cfg : Config) (id size : Z) (env : Env) (t t1 : Trace) (c : LoopControl) :
  capture_iteration fuel cfg id size env t = Ret c t1 ->
  exists new,
    t1 = t ++ new /\
    (List.length (since_shutdown env (List.length t) new) <= 7)%nat /\
    sleep_time (since_shutdown env (List.length t) new) <= 100 /\
    (count is_trigger (since_shutdown env (List.length t) new)
     <= match c with Break => 1 | Continue => 0 end)%nat.
Proof.
  intros H. pose proof (capture_iteration_outcome fuel cfg id size env t) as O.
  rewrite H in O.
  inversion O as [ r S0 Hr | | status t_w W F | status t_w W F Hs | t_w r W F Hr
                 | | t_w tv ltm W F | t_w tv ltm r W F P R ]; subst;
    try (destruct (wait_exposure_after_signal _ _ _ _ _ _ W) as (wnew & -> & Wl & Ws & Wt);
         rewrite length_app in Wl, Ws; cbn [List.length] in Wl, Ws;
         replace (List.length t + 1)%nat with (S (List.length t)) in Wl, Ws by lia).
  - eexists. split; [reflexivity |]. within 2%nat 0 1%nat. repeat split; lia.
  - exists (EvStartExposure id ASI_FALSE ASI_SUCCESS :: wnew ++ [EvKeepRunning false]).
    tidy_trace. split; [reflexivity |].
    change (EvStartExposure id ASI_FALSE ASI_SUCCESS :: wnew ++ [EvKeepRunning false])
      with ([EvStartExposure id ASI_FALSE ASI_SUCCESS] ++ wnew ++ [EvKeepRunning false]).
    rewrite !since_shutdown_app. cbn [List.length].
    replace (List.length t + 1)%nat with (S (List.length t)) by lia.
    pose proof (since_shutdown_count is_trigger env wnew (S (List.length t))) as D.
    rewrite (count_none is_trigger wnew Wt) in D.
    rewrite !length_app, !sleep_time_app, !count_app.
    destruct (since_shutdown_within env (List.length t)
                [EvStartExposure id ASI_FALSE ASI_SUCCESS] 1 1 0) as (B1 & B2 & B3);
      [repeat constructor; cbn; lia | cbn; lia | unfold sleep_time; cbn; lia
       | unfold count; cbn; lia |].
    destruct (since_shutdown_within env (S (List.length t) + List.length wnew)
                [EvKeepRunning false] 1 0 0) as (C1 & C2 & C3);
      [repeat constructor; cbn; lia | cbn; lia | unfold sleep_time; cbn; lia
       | unfold count; cbn; lia |].
    repeat split; lia.
  - exists (EvStartExposure id ASI_FALSE ASI_SUCCESS
              :: wnew ++ EvKeepRunning true
              :: [EvPrint Cerr [Text "Exposure failed, skipping frame"]]).
    tidy_trace. split; [reflexivity |].
    rewrite since_shutdown_past_read by assumption.
    within 1%nat 0 0%nat. repeat split; lia.
  - exists (EvStartExposure id ASI_FALSE ASI_SUCCESS
              :: wnew ++ EvKeepRunning true
              :: [EvGetDataAfterExp id size r;
                  EvPrint Cerr [Text "Error retrieving image data"]]).
    tidy_trace. split; [reflexivity |].
    rewrite since_shutdown_past_read by assumption.
    within 2%nat 0 0%nat. repeat split; lia.
  - exists (EvStartExposure id ASI_FALSE ASI_SUCCESS
              :: wnew ++ EvKeepRunning true
              :: [EvGetDataAfterExp id size ASI_SUCCESS;
                  EvGetTimeOfDay tv; EvOpenFile (fullpath_of cfg tv ltm) false;
                  EvPrint Cerr [Text "Error opening file for writing: ";
                                Text (fullpath_of cfg tv ltm)]]).
    tidy_trace. split; [reflexivity |].
    rewrite since_shutdown_past_read by assumption.
    within 4%nat 0 0%nat. repeat split; lia.
  - destruct (pace _ _ _ _ _) as [[] t_p | |] eqn:P; try discriminate.
    injection R as <- <-.
    destruct (pace_after_signal _ _ _ _ _ _ P) as (pnew & -> & Pl & Ps & Pt & Pe).
    set (stored := [EvGetDataAfterExp id size ASI_SUCCESS;
                    EvGetTimeOfDay tv; EvOpenFile (fullpath_of cfg tv ltm) true;
                    EvWrite (fullpath_of cfg tv ltm) size;
                    EvCloseFile (fullpath_of cfg tv ltm);
                    saved_line (fullpath_of cfg tv ltm)]) in *.
    exists (EvStartExposure id ASI_FALSE ASI_SUCCESS
              :: wnew ++ EvKeepRunning true :: stored ++ pnew).
    split; [now rewrite <- !app_assoc |].
    rewrite <- app_assoc in F. cbn [app] in F.
    rewrite since_shutdown_past_read by assumption.
    rewrite since_shutdown_app.
    set (n := S (List.length (t ++ EvStartExposure id ASI_FALSE ASI_SUCCESS :: wnew))) in *.
    assert (N : List.length
                  (((t ++ [EvStartExposure id ASI_FALSE ASI_SUCCESS]) ++ wnew)
                     ++ EvKeepRunning true :: stored) = (n + List.length stored)%nat).
    { subst n. repeat (first [rewrite length_app | progress cbn [List.length app]]). lia. }
    rewrite N in Pl, Ps, Pe.
    pose proof (since_shutdown_count is_trigger env pnew (n + List.length stored)) as D.
    rewrite (count_none is_trigger pnew Pt) in D.
    rewrite !length_app, !sleep_time_app, !count_app.
    destruct (since_shutdown_within env n stored 6 0 0) as (B1 & B2 & B3);
      [repeat constructor; cbn; lia | cbn; lia | unfold sleep_time; cbn; lia
       | unfold count; cbn; lia |].
    destruct (since_shutdown env n stored) eqn:S0.
    + cbn [List.length]. change (sleep_time []) with 0.
      change (count is_trigger []) with 0%nat. repeat split; lia.
    + destruct Pe as (Pe1 & Pe2).
      { apply since_shutdown_entered. rewrite S0. discriminate. }
      rewrite (since_shutdown_set env (n + List.length stored) pnew)
        by (apply since_shutdown_entered; rewrite S0; discriminate).
      pose proof (count_none is_trigger pnew Pt).
      repeat split; lia.
Qed.

(** What remains of the loop once the flag is set. *)
Lemma capture_loop_after_signal (cfg : Config) (id size : Z) (env : Env) (fuel : nat) :
  forall t t',
    capture_loop fuel cfg id size env t = Ret tt t' ->
    exists new,
      t' = t ++ new /\
      (List.length (since_shutdown env (List.length t) new) <= 8)%nat /\
      sleep_time (since_shutdown env (List.length t) new) <= 100 /\
      (count is_trigger (since_shutdown env (List.length t) new) <= 1)%nat /\
      (shutdown_requested env (List.length t) = true -> new = [EvKeepRunning false]).
Proof.
  induction fuel as [|fuel IH]; intros t t' H; [discriminate |].
  cbn [capture_loop] in H. unfold keep_running in H. rewrite bind_act in H.
  destruct (shutdown_requested env (List.length t)) eqn:F; cbn [negb] in H.
  - injection H as <-. exists [EvKeepRunning false]. split; [reflexivity |].
    rewrite since_shutdown_set by assumption.
    unfold sleep_time, count. cbn. repeat split; lia.
  - unfold bind in H.
    destruct (capture_iteration fuel cfg id size env _) as [c t1 | |] eqn:E;
      try discriminate.
    apply capture_iteration_after_signal in E.
    destruct E as (inew & -> & Il & Is & Ic). rewrite snoc_length in Il, Is, Ic.
    destruct c.
    + injection H as <-. exists (EvKeepRunning true :: inew). tidy_trace.
      split; [reflexivity |]. cbn [since_shutdown]. rewrite F.
      repeat split; try lia; congruence.
    + apply IH in H. destruct H as (lnew & -> & Ll & Ls & Lc & Le).
      rewrite length_app, snoc_length in Ll, Ls, Lc, Le.
      exists (EvKeepRunning true :: inew ++ lnew). tidy_trace.
      split; [reflexivity |]. cbn [since_shutdown]. rewrite F.
      rewrite since_shutdown_app, !length_app, !sleep_time_app, !count_app.
      destruct (since_shutdown env (S (List.length t)) inew) eqn:S0.
      * cbn [List.length]. change (sleep_time []) with 0.
        change (count is_trigger []) with 0%nat. repeat split; try lia; congruence.
      * rewrite Le in * by (apply since_shutdown_entered; rewrite S0; discriminate).
        rewrite since_shutdown_set
          by (apply since_shutdown_entered; rewrite S0; discriminate).
        unfold sleep_time at 2, count at 2.
        cbn [List.length map fold_right filter is_trigger sleep_ms] in Il |- *.
        repeat split; try lia; congruence.
Qed.

Lemma main_returns_from_loop (fuel : nat) (args : list string) (env : Env) (cfg : Config)
  (code : Z) (t : Trace) :
  parse_args (env_stod env) (env_stoi env) default_config args = Some cfg ->
  handlers_installed env ->
  camera_ready env ->
  main fuel args env [] = Ret code t ->
  exists exposure_us new,
    capture_loop fuel cfg (CameraID (camera_info_of env)) (frame_size (camera_info_of env))
                 env (configured env cfg exposure_us)
    = Ret tt (configured env cfg exposure_us ++ new) /\
    t = configured env cfg exposure_us ++ new ++ closing (CameraID (camera_info_of env)).
Proof.
  intros Hp Hh Hready H.
  rewrite (main_startup fuel args env cfg Hp Hh) in H.
  destruct Hready as (Hn & Hprop & Hopen & Hinit).
  rewrite (proj2 (Z.ltb_ge _ _) Hn), Hprop, Hopen, Hinit in H. cbn [succeeded negb] in H.
  destruct (exposure_microseconds (exposure_seconds cfg)) as [us|]; [| discriminate].
  destruct (_ || _); [discriminate |].
  apply capture_and_close_ret in H. destruct H as (-> & new & Hloop & Hnew & ->).
  exists us, new. unfold configured. rewrite <- ?app_assoc in *. split; [exact Hloop | reflexivity].
Qed.

Lemma camera_ready_dec (env : Env) : camera_ready env \/ ~ camera_ready env.
Proof.
  unfold camera_ready.
  destruct (Z_le_dec 1 (cameras_found env)); [| tauto].
  destruct (property_result env); [| right; intros (_ & ? & _); discriminate].
  destruct (open_result env); [| right; intros (_ & _ & ? & _); discriminate].
  destruct (init_result env); [| right; intros (_ & _ & _ & ?); discriminate].
  left. auto.
Qed.

(** With the camera not ready, [main] stops within the first twelve
    actions, none of them a sleep or a trigger. *)
Lemma main_not_ready (fuel : nat) (args : list string) (env : Env) (cfg : Config)
  (code : Z) (t : Trace) :
  parse_args (env_stod env) (env_stoi env) default_config args = Some cfg ->
  handlers_installed env ->
  ~ camera_ready env ->
  main fuel args env [] = Ret code t ->
  (List.length t <= 12)%nat /\ Forall (fun e => sleep_ms e = 0) t /\
  existsb is_trigger t = false.
Proof.
  intros Hp Hh Hn H. rewrite (main_startup fuel args env cfg Hp Hh) in H.
  destruct (cameras_found env <? 1) eqn:C.
  { injection H as _ <-. unfold banner. cbn. repeat split; try lia. repeat constructor. }
  apply Z.ltb_ge in C.
  destruct (succeeded (property_result env)) eqn:P; cbn [negb] in H.
  2: { injection H as _ <-. unfold discovered, banner. cbn.
       repeat split; try lia. repeat constructor. }
  destruct (succeeded (open_result env)) eqn:O; cbn [negb] in H.
  2: { injection H as _ <-. unfold discovered, banner. cbn.
       repeat split; try lia. repeat constructor. }
  destruct (succeeded (init_result env)) eqn:I; cbn [negb] in H.
  2: { injection H as _ <-. unfold discovered, banner. cbn.
       repeat split; try lia. repeat constructor. }
  exfalso. apply Hn. apply succeeded_true in P, O, I. repeat split; assumption.
Qed.

(** X14: in a run of [main] that returns, the actions performed once
    [keep_running] was cleared sleep 100 ms at most in total and start at
    most one exposure; and when the flag is cleared only after the loop
    was entered (tick 14 is the last action before the loop), they are
    eleven at most, the closing of the camera among them. *)
Theorem shutdown_is_prompt
  (fuel : nat) (args : list string) (env : Env) (cfg : Config) (code : Z) (t : Trace) :
  parse_args (env_stod env) (env_stoi env) default_config args = Some cfg ->
  handlers_installed env ->
  main fuel args env [] = Ret code t ->
  sleep_time (since_shutdown env 0 t) <= 100 /\
  (count is_trigger (since_shutdown env 0 t) <= 1)%nat /\
  (shutdown_requested env 14 = false ->
   (List.length (since_shutdown env 0 t) <= 11)%nat).
Proof.
  intros Hp Hh H. destruct (camera_ready_dec env) as [R | R].
  - destruct (main_returns_from_loop fuel args env cfg code t Hp Hh R H)
      as (us & new & Hloop & ->).
    apply capture_loop_after_signal in Hloop.
    destruct Hloop as (new' & E & Ll & Ls & Lc & _).
    apply app_inv_head in E. subst new'.
    rewrite !since_shutdown_app, !sleep_time_app, !count_app, !length_app.
    change (List.length (configured env cfg us)) with 15%nat in *.
    change (0 + 15)%nat with 15%nat in *.
    destruct (since_shutdown_within env 0 (configured env cfg us) 15 0 0) as (B1 & B2 & B3);
      [ unfold configured, discovered, banner; repeat constructor; cbn; lia
      | cbn; lia | unfold sleep_time; cbn; lia | unfold count; cbn; lia | ].
    destruct (since_shutdown_within env (15 + List.length new)
                (closing (CameraID (camera_info_of env))) 3 0 0) as (C1 & C2 & C3);
      [ unfold closing; repeat constructor; cbn; lia
      | cbn; lia | unfold sleep_time; cbn; lia | unfold count; cbn; lia | ].
    split; [lia |]. split; [lia |].
    intros F. rewrite (since_shutdown_clear env 14 _ F) by (cbn; lia). cbn [List.length]. lia.
  - destruct (main_not_ready fuel args env cfg code t Hp Hh R H) as (L & S0 & T).
    pose proof (since_shutdown_each _ env t S0 0%nat) as S1.
    apply sleep_time_none in S1.
    pose proof (since_shutdown_count is_trigger env t 0) as T1.
    rewrite (count_none _ _ T) in T1.
    split; [lia |]. split; [lia |].
    intros F. rewrite (since_shutdown_clear env 14 _ F) by lia. cbn. lia.
Qed.

Lemma shutdown_is_prompt_witness :
  exists code t,
    main 5 [] (with_sigint 27 healthy_env) [] = Ret code t /\
    sleep_time (since_shutdown (with_sigint 27 healthy_env) 0 t) <= 100 /\
    (count is_trigger (since_shutdown (with_sigint 27 healthy_env) 0 t) <= 1)%nat /\
    (shutdown_requested (with_sigint 27 healthy_env) 14 = false ->
     (List.length (since_shutdown (with_sigint 27 healthy_env) 0 t) <= 11)%nat).
Proof.
  eexists. eexists. split.
  - vm_compute. reflexivity.
  - apply (shutdown_is_prompt 5 [] (with_sigint 27 healthy_env) default_config 0).
    + reflexivity.
    + split; reflexivity.
    + vm_compute. reflexivity.
Defined.

(** ** The length of the status poll *)

Lemma sleep_time_polling (id : Z) (n : nat) (status : ASI_EXPOSURE_STATUS) :
  status <> ASI_EXP_WORKING ->
  sleep_time (polling id n ++ last_poll id status) = 10 * (Z.of_nat n + 1).
Proof.
  intros Hs. induction n as [|n IH].
  - destruct status; try congruence; reflexivity.
  - cbn [polling app]. rewrite !sleep_time_cons, IH. cbn [sleep_ms]. lia.
Qed.

(** X12: with the flag clear, the status poll returns the first status
    that is not [ASI_EXP_WORKING]: after [n] polls that found the exposure
    under way it has polled [n + 1] times and slept [10 * (n + 1)] ms. *)
Theorem poll_returns_at_the_first_final_status
  (fuel : nat) (id : Z) (env : Env) (t : Trace) (n : nat) (status : ASI_EXPOSURE_STATUS) :
  (forall i, (i < n)%nat ->
             env_exp_status env (List.length t + 3 * i) = ASI_EXP_WORKING) ->
  env_exp_status env (List.length t + 3 * n) = status ->
  status <> ASI_EXP_WORKING ->
  shutdown_requested env (List.length t + 3 * n) = false ->
  (n < fuel)%nat ->
  wait_exposure fuel id env t = Ret status (t ++ polling id n ++ last_poll id status) /\
  sleep_time (polling id n ++ last_poll id status) = 10 * (Z.of_nat n + 1).
Proof.
  intros Hw Hs Hne Hc Hf. split; [| now apply sleep_time_polling].
  revert fuel t Hw Hs Hc Hf. induction n as [|n IH]; intros fuel t Hw Hs Hc Hf;
    (destruct fuel as [|fuel]; [lia |]); cbn [wait_exposure]; run_step.
  - rewrite Nat.mul_0_r, Nat.add_0_r in Hs. rewrite Hs.
    destruct status; try congruence; tidy_trace; reflexivity.
  - specialize (Hw 0%nat ltac:(lia)) as H0.
    replace (List.length t + 3 * 0)%nat with (List.length t) in H0 by lia.
    rewrite H0. tidy_trace.
    rewrite (shutdown_requested_later env (S (S (List.length t))) (List.length t + 3 * S n))
      by (lia || assumption).
    cbn [negb].
    rewrite (IH fuel (t ++ [EvGetExpStatus id ASI_EXP_WORKING; EvSleep 10; EvKeepRunning true])).
    + tidy_trace. reflexivity.
    + intros i Hi. rewrite length_app. cbn [List.length].
      replace (List.length t + 3 + 3 * i)%nat with (List.length t + 3 * S i)%nat by lia.
      apply Hw. lia.
    + rewrite length_app. cbn [List.length].
      replace (List.length t + 3 + 3 * n)%nat with (List.length t + 3 * S n)%nat by lia.
      exact Hs.
    + rewrite length_app. cbn [List.length].
      replace (List.length t + 3 + 3 * n)%nat with (List.length t + 3 * S n)%nat by lia.
      exact Hc.
    + lia.
Qed.

Lemma poll_returns_at_the_first_final_status_witness :
  wait_exposure 3 0 slow_exposure_env []
  = Ret ASI_EXP_SUCCESS ([] ++ polling 0 2 ++ last_poll 0 ASI_EXP_SUCCESS) /\
  sleep_time (polling 0 2 ++ last_poll 0 ASI_EXP_SUCCESS) = 10 * (Z.of_nat 2 + 1).
Proof.
  apply (poll_returns_at_the_first_final_status 3 0 slow_exposure_env [] 2 ASI_EXP_SUCCESS).
  - intros [|[|i]] Hi; [reflexivity | reflexivity | lia].
  - reflexivity.
  - discriminate.
  - reflexivity.
  - lia.
Defined.

(** ** The length of the pacing wait *)


Lemma bounded_canonical (m : positive) (e : Z) :
  bounded 53 1024 m e = true ->
  -1074 <= e <= 971 /\ Zpos m < 2 ^ 53 /\ (-1074 < e -> 2 ^ 52 <= Zpos m).
Proof.
  unfold bounded, canonical_mantissa, fexp, emin. intros H.
  apply andb_true_iff in H. destruct H as [C L].
  apply Z.eqb_eq in C. apply Z.leb_le in L.
  pose proof (digits2_pos_bounds m) as D.
  set (d := Zpos (digits2_pos m)) in *.
  change (Z.max (d + e - 53) (-1074) = e) in C. clearbody d.
  assert (Hd : d <= 53 /\ -1074 <= e /\ (-1074 < e -> d = 53)) by (clear D L; lia).
  destruct Hd as (Hd & He & Hn).
  split; [lia |]. split.
  - apply Z.lt_le_trans with (2 ^ d); [lia |]. apply Z.pow_le_mono_r; lia.
  - intros N. rewrite (Hn N) in D. exact (proj1 D).
Qed.

Lemma ticks_lt_exp (m1 m2 : positive) (e1 e2 : Z) :
  bounded 53 1024 m1 e1 = true -> bounded 53 1024 m2 e2 = true ->
  e1 < e2 -> ticks m1 e1 < ticks m2 e2.
Proof.
  intros B1 B2 L. unfold ticks.
  destruct (bounded_canonical m1 e1 B1) as (R1 & M1 & _).
  destruct (bounded_canonical m2 e2 B2) as (R2 & _ & M2).
  specialize (M2 ltac:(lia)).
  replace (e2 + 1074) with ((e1 + 1074) + (e2 - e1)) by lia.
  rewrite (Z.pow_add_r 2 (e1 + 1074) (e2 - e1)) by lia.
  assert (P : 0 < 2 ^ (e1 + 1074)) by (apply Z.pow_pos_nonneg; lia).
  assert (Q : 2 <= 2 ^ (e2 - e1)).
  { change 2 with (2 ^ 1) at 1. apply Z.pow_le_mono_r; lia. }
  set (A := 2 ^ (e1 + 1074)) in *. set (B := 2 ^ (e2 - e1)) in *.
  apply Z.lt_le_trans with (2 ^ 53 * A).
  - apply Z.mul_lt_mono_pos_r; assumption.
  - change (2 ^ 53) with (2 ^ 52 * 2). rewrite <- Z.mul_assoc, (Z.mul_comm 2 A).
    apply Z.mul_le_mono_nonneg; try lia.
    apply Z.mul_le_mono_nonneg_l; lia.
Qed.

Lemma SFcompare_ticks (m1 m2 : positive) (e1 e2 : Z) :
  bounded 53 1024 m1 e1 = true -> bounded 53 1024 m2 e2 = true ->
  SFcompare (S754_finite false m1 e1) (S754_finite false m2 e2)
  = Some (ticks m1 e1 ?= ticks m2 e2).
Proof.
  intros B1 B2. cbn [SFcompare]. f_equal.
  destruct (Z.compare_spec e1 e2) as [-> | L | G].
  - unfold ticks. destruct (bounded_canonical m2 e2 B2) as (R2 & _).
    rewrite <- Zmult_compare_compat_r by (apply Z.lt_gt, Z.pow_pos_nonneg; lia).
    reflexivity.
  - symmetry. apply Z.compare_lt_iff. now apply ticks_lt_exp.
  - symmetry. apply Z.compare_gt_iff. now apply ticks_lt_exp.
Qed.

Lemma Q_of_double_scaled (m : positive) (e : Z) (k : positive) :
  - Zpos k <= e ->
  (Q_of_double (S754_finite false m e) == (Zpos m * 2 ^ (e + Zpos k)) # (2 ^ k))%rational.
Proof.
  intros H. unfold Q_of_double, QArith_base.Qeq.
  destruct e as [|p|p]; cbn [QArith_base.Qnum QArith_base.Qden QArith_base.inject_Z].
  - rewrite Pos2Z.inj_pow. cbn [Z.add]. rewrite Z.pow_0_r. ring.
  - rewrite Pos2Z.inj_pow. rewrite (Z.pow_add_r 2 (Zpos p) (Zpos k)) by (clear; lia). ring.
  - rewrite !Pos2Z.inj_pow.
    replace (Zpos k) with ((Zneg p + Zpos k) + Zpos p) at 1 by lia.
    rewrite (Z.pow_add_r 2 (Zneg p + Zpos k) (Zpos p)) by lia. ring.
Qed.

(** The comparisons of the program on valid positive doubles are those of
    the exact values. *)
Lemma dlt_exact (m1 m2 : positive) (e1 e2 : Z) :
  bounded 53 1024 m1 e1 = true -> bounded 53 1024 m2 e2 = true ->
  (dlt (S754_finite false m1 e1) (S754_finite false m2 e2) = true ->
   Q_of_double (S754_finite false m1 e1) < Q_of_double (S754_finite false m2 e2))%rational /\
  (dlt (S754_finite false m1 e1) (S754_finite false m2 e2) = false ->
   Q_of_double (S754_finite false m2 e2) <= Q_of_double (S754_finite false m1 e1))%rational /\
  (dle (S754_finite false m1 e1) (S754_finite false m2 e2) = true ->
   Q_of_double (S754_finite false m1 e1) <= Q_of_double (S754_finite false m2 e2))%rational.
Proof.
  intros B1 B2. unfold dlt, dle, SFltb, SFleb. rewrite SFcompare_ticks by assumption.
  destruct (bounded_canonical m1 e1 B1) as (R1 & _).
  destruct (bounded_canonical m2 e2 B2) as (R2 & _).
  rewrite !(Q_of_double_scaled _ _ 1074) by lia.
  fold (ticks m1 e1). fold (ticks m2 e2).
  unfold QArith_base.Qlt, QArith_base.Qle. cbn [QArith_base.Qnum QArith_base.Qden].
  assert (P : 0 < Zpos (2 ^ 1074)) by lia.
  destruct (Z.compare_spec (ticks m1 e1) (ticks m2 e2)); repeat split; intros; 
    try discriminate; nia.
Qed.

Lemma Q_of_double_positive (m : positive) (e : Z) :
  bounded 53 1024 m e = true ->
  (0 # 1 < Q_of_double (S754_finite false m e))%rational.
Proof.
  intros B. destruct (bounded_canonical m e B) as (R & _).
  rewrite (Q_of_double_scaled _ _ 1074) by lia.
  unfold QArith_base.Qlt. cbn [QArith_base.Qnum QArith_base.Qden].
  assert (0 < 2 ^ (e + 1074)) by (apply Z.pow_pos_nonneg; lia). nia.
Qed.

(** A value of [waited] that passed the check is zero or a valid positive
    double, and lies within 10 ns of its count of tenths of a second. *)
Lemma accumulated_ok_exact (j : Z) (w : double) :
  accumulated_ok j w = true ->
  ((j # 10) - (1 # 100000000) <= Q_of_double w)%rational /\
  (Q_of_double w <= (j # 10) + (1 # 100000000))%rational /\
  ((w = S754_zero false /\ j = 0) \/
   exists m e, w = S754_finite false m e /\ bounded 53 1024 m e = true).
Proof.
  destruct w as [[] | | | [] m e]; cbn [accumulated_ok]; try discriminate.
  - intros H. apply Z.eqb_eq in H. subst j.
    unfold Q_of_double, QArith_base.Qle, QArith_base.Qplus, QArith_base.Qminus,
      QArith_base.Qopp. cbn. repeat split; try lia. now left.
  - intros H. apply andb_true_iff in H. destruct H as [H A].
    apply andb_true_iff in H. destruct H as [V E].
    apply Z.leb_le in A, E. cbn [is_double valid_binary] in V.
    split; [| split]; [| | right; eauto].
    + rewrite (Q_of_double_scaled _ _ 56) by lia.
      unfold QArith_base.Qle, QArith_base.Qplus, QArith_base.Qminus, QArith_base.Qopp.
      cbn [QArith_base.Qnum QArith_base.Qden].
      set (M := Zpos m * 2 ^ (e + 56)) in *. clearbody M.
      change (Zpos (2 ^ 56)) with (2 ^ 56).
      change (2 ^ 56) with 72057594037927936 in *.
      change (2 ^ 31) with 2147483648 in *. cbn. lia.
    + rewrite (Q_of_double_scaled _ _ 56) by lia.
      unfold QArith_base.Qle, QArith_base.Qplus, QArith_base.Qminus, QArith_base.Qopp.
      cbn [QArith_base.Qnum QArith_base.Qden].
      set (M := Zpos m * 2 ^ (e + 56)) in *. clearbody M.
      change (Zpos (2 ^ 56)) with (2 ^ 56).
      change (2 ^ 56) with 72057594037927936 in *.
      change (2 ^ 31) with 2147483648 in *. cbn. lia.
Qed.

Lemma accumulation_ok_each (n : nat) :
  forall j w,
    accumulation_ok n j w = true ->
    forall i, (i < n)%nat -> accumulated_ok (j + Z.of_nat i) (waited_after i w) = true.
Proof.
  induction n as [|n IH]; intros j w H i Hi; [lia |].
  cbn [accumulation_ok] in H. apply andb_true_iff in H. destruct H as [H0 H].
  destruct i as [|i].
  - cbn [waited_after Z.of_nat]. now rewrite Z.add_0_r.
  - cbn [waited_after]. replace (j + Z.of_nat (S i)) with (j + 1 + Z.of_nat i) by lia.
    apply IH; [assumption | lia].
Qed.

(** Every value [waited] takes in an hour of pacing passes the check. *)
Lemma accumulation_checked :
  accumulation_ok (S slices_in_an_hour) 0 d_0_0 = true.
Proof. vm_compute. reflexivity. Qed.

Lemma waited_ok (i : nat) :
  (i <= slices_in_an_hour)%nat ->
  accumulated_ok (Z.of_nat i) (waited_after i d_0_0) = true.
Proof.
  intros H. apply (accumulation_ok_each _ 0 d_0_0 accumulation_checked i). lia.
Qed.

(** Uninterrupted, the pacing wait ends at the first count of slices at
    which the accumulated wait is no longer below the interval. *)
Lemma pace_completes (interval : double) (env : Env) (n : nat) :
  forall fuel waited t,
    dlt (waited_after n waited) interval = false ->
    shutdown_requested env (List.length t + 2 * n) = false ->
    (n < fuel)%nat ->
    exists k,
      (k <= n)%nat /\
      pace fuel interval waited env t = Ret tt (t ++ pacing k) /\
      dlt (waited_after k waited) interval = false /\
      (forall i, (i < k)%nat -> dlt (waited_after i waited) interval = true).
Proof.
  induction n as [|n IH]; intros fuel waited t Hn Hs Hf;
    (destruct fuel as [|fuel]; [lia |]); cbn [pace];
    destruct (dlt waited interval) eqn:D.
  - cbn [waited_after] in Hn. congruence.
  - exists 0%nat. cbn [pacing]. rewrite app_nil_r.
    repeat split; try assumption; intros; lia.
  - run_step.
    rewrite (shutdown_requested_later env (List.length t) (List.length t + 2 * S n))
      by (lia || assumption).
    cbn [negb]. tidy_trace.
    destruct (IH fuel (dadd waited d_0_1) (t ++ [EvKeepRunning true; EvSleep 100]))
      as (k & Hk & -> & Hlast & Hbefore).
    + exact Hn.
    + rewrite length_app. cbn [List.length].
      replace (List.length t + 2 + 2 * n)%nat with (List.length t + 2 * S n)%nat by lia.
      exact Hs.
    + lia.
    + exists (S k). tidy_trace. repeat split; try assumption; [lia |].
      intros [|i] Hi; [exact D | apply Hbefore; lia].
  - exists 0%nat. cbn [pacing]. rewrite app_nil_r.
    repeat split; try assumption; [lia | intros; lia].
Qed.

Lemma dlt_waited_exact (i : nat) (m : positive) (e : Z) :
  (i <= slices_in_an_hour)%nat ->
  bounded 53 1024 m e = true ->
  (dlt (waited_after i d_0_0) (S754_finite false m e) = true ->
   Q_of_double (waited_after i d_0_0) < Q_of_double (S754_finite false m e))%rational /\
  (dlt (waited_after i d_0_0) (S754_finite false m e) = false ->
   Q_of_double (S754_finite false m e) <= Q_of_double (waited_after i d_0_0))%rational.
Proof.
  intros Hi B.
  destruct (accumulated_ok_exact _ _ (waited_ok i Hi)) as (_ & _ & [[-> _] | (m' & e' & -> & B')]).
  - split; [intros _; now apply Q_of_double_positive | discriminate].
  - destruct (dlt_exact m' m e' e B' B) as (L1 & L2 & _). now split.
Qed.

Lemma interval_within_the_hour (x : double) :
  is_double x = true -> dlt d_0_0 x = true -> dle x d_3600 = true ->
  exists m e, x = S754_finite false m e /\ bounded 53 1024 m e = true /\
              (Q_of_double x <= 3600 # 1)%rational.
Proof.
  intros V P U. destruct x as [[] | [] | | [] m e]; try discriminate.
  exists m, e. split; [reflexivity |]. split; [exact V |].
  assert (B : bounded 53 1024 7916483719987200 (-41) = true) by (vm_compute; reflexivity).
  destruct (dlt_exact m 7916483719987200 e (-41) V B) as (_ & _ & L).
  specialize (L U).
  assert (E : (Q_of_double d_3600 == 3600 # 1)%rational) by reflexivity.
  fold d_3600 in L. rewrite E in L. exact L.
Qed.

Lemma tenths_succ (j : Z) :
  ((j + 1) # 10 == (j # 10) + (1 # 10))%rational.
Proof. unfold QArith_base.Qeq, QArith_base.Qplus. cbn. lia. Qed.

Lemma pacing_sleep_time (k : nat) : sleep_time (pacing k) = 100 * Z.of_nat k.
Proof.
  induction k as [|k IH]; [reflexivity |].
  cbn [pacing]. rewrite !sleep_time_cons, IH. cbn [sleep_ms]. lia.
Qed.

(** An hour and a slice of pacing outlast every interval up to an hour. *)
Lemma pacing_ends_within_the_hour (m : positive) (e : Z) :
  bounded 53 1024 m e = true ->
  (Q_of_double (S754_finite false m e) <= 3600 # 1)%rational ->
  dlt (waited_after slices_in_an_hour d_0_0) (S754_finite false m e) = false.
Proof.
  intros B Hour.
  pose proof (dlt_waited_exact slices_in_an_hour m e (Nat.le_refl _) B) as (L & _).
  destruct (accumulated_ok_exact _ _ (waited_ok _ (Nat.le_refl _))) as (Lo & _ & _).
  revert L Lo. generalize (waited_after slices_in_an_hour d_0_0). intros w L Lo.
  destruct (dlt w (S754_finite false m e)); [exfalso | reflexivity].
  specialize (L eq_refl).
  assert (E : (Z.of_nat slices_in_an_hour # 10 == 36001 # 10)%rational) by reflexivity.
  rewrite E in Lo.
  revert L Lo Hour. generalize (Q_of_double w).
  generalize (Q_of_double (S754_finite false m e)). intros x q L Lo Hour. Lqa.lra.
Qed.

(** X13: for an interval above 0 and up to one hour, and with the flag
    clear, the pacing wait sleeps a whole number [k] of slices of 100 ms,
    and [k] tenths of a second is the interval or more and less than the
    interval plus one slice, both up to 10 ns: the rounding of the
    repeated [waited += 0.1] can move the end of the wait by one slice
    only when the interval is within 10 ns of a multiple of 0.1 s. *)
Theorem pacing_lasts_the_interval_within_one_slice
  (fuel : nat) (interval : double) (env : Env) (t : Trace) :
  is_double interval = true ->
  dlt d_0_0 interval = true ->
  dle interval d_3600 = true ->
  shutdown_requested env (List.length t + 2 * slices_in_an_hour) = false ->
  (slices_in_an_hour < fuel)%nat ->
  exists k,
    pace fuel interval d_0_0 env t = Ret tt (t ++ pacing k) /\
    sleep_time (pacing k) = 100 * Z.of_nat k /\
    (Q_of_double interval - (1 # 100000000) <= Z.of_nat k # 10)%rational /\
    (Z.of_nat k # 10 < Q_of_double interval + (1 # 10) + (1 # 100000000))%rational.
Proof.
  intros V P U F Hf.
  destruct (interval_within_the_hour interval V P U) as (m & e & -> & B & Hour).
  pose proof (pacing_ends_within_the_hour m e B Hour) as Last.
  destruct (pace_completes _ env _ fuel d_0_0 t Last F Hf) as (k & Hk & Hrun & Hend & Hbefore).
  exists k. split; [exact Hrun |]. split; [apply pacing_sleep_time |].
  destruct k as [|k]; [cbn [waited_after] in Hend; congruence |].
  assert (Hk' : (k <= slices_in_an_hour)%nat) by lia.
  apply (proj2 (dlt_waited_exact _ m e Hk B)) in Hend.
  specialize (Hbefore k (Nat.lt_succ_diag_r k)).
  apply (proj1 (dlt_waited_exact _ m e Hk' B)) in Hbefore.
  destruct (accumulated_ok_exact _ _ (waited_ok _ Hk)) as (_ & Hi & _).
  destruct (accumulated_ok_exact _ _ (waited_ok _ Hk')) as (Lo & _ & _).
  revert Hend Hbefore Hi Lo.
  generalize (waited_after (S k) d_0_0). generalize (waited_after k d_0_0).
  intros w w' Hend Hbefore Hi Lo.
  replace (Z.of_nat (S k)) with (Z.of_nat k + 1) in * by lia.
  rewrite tenths_succ in Hi |- *.
  revert Hend Hbefore Hi Lo.
  generalize (Q_of_double w'). generalize (Q_of_double w).
  generalize (Q_of_double (S754_finite false m e)).
  generalize (Z.of_nat k # 10)%rational.
  intros tenths x q q' Hend Hbefore Hi Lo. split; Lqa.lra.
Qed.

Lemma pacing_lasts_the_interval_within_one_slice_witness :
  exists k,
    pace (S slices_in_an_hour) d_1_5 d_0_0 healthy_env [] = Ret tt ([] ++ pacing k) /\
    sleep_time (pacing k) = 100 * Z.of_nat k /\
    (Q_of_double d_1_5 - (1 # 100000000) <= Z.of_nat k # 10)%rational /\
    (Z.of_nat k # 10 < Q_of_double d_1_5 + (1 # 10) + (1 # 100000000))%rational.
Proof.
  apply (pacing_lasts_the_interval_within_one_slice
           (S slices_in_an_hour) d_1_5 healthy_env []).
  - vm_compute. reflexivity.
  - reflexivity.
  - reflexivity.
  - reflexivity.
  - apply Nat.lt_succ_diag_r.
Defined.

(** ** Why the loop ends *)

Lemma capture_iteration_break
  (fuel : nat) (cfg : Config) (id size : Z) (env : Env) (t t1 : Trace) :
  capture_iteration fuel cfg id size env t = Ret Break t1 ->
  (exists pre, t1 = pre ++ [EvKeepRunning false] /\
               shutdown_requested env (List.length pre) = true) \/
  (exists r, t1 = t ++ [EvStartExposure id ASI_FALSE r;
                         EvPrint Cerr [Text "Error starting exposure"]] /\
             env_start_exposure env (List.length t) = r /\ succeeded r = false).
Proof.
  intros H. pose proof (capture_iteration_outcome fuel cfg id size env t) as O.
  rewrite H in O.
  inversion O as [ r S0 Hr | | status t_w W F | | | | | t_w tv ltm r W F P R ]; subst.
  - right. eauto.
  - left. eauto.
  - destruct (pace _ _ _ _ _) as [[] t_p | |]; discriminate.
Qed.

Lemma capture_loop_exit (cfg : Config) (id size : Z) (env : Env) (fuel : nat) :
  forall t t',
    capture_loop fuel cfg id size env t = Ret tt t' ->
    (exists pre, t' = pre ++ [EvKeepRunning false] /\
                 shutdown_requested env (List.length pre) = true) \/
    (exists pre r, t' = pre ++ [EvStartExposure id ASI_FALSE r;
                                EvPrint Cerr [Text "Error starting exposure"]] /\
                   env_start_exposure env (List.length pre) = r /\ succeeded r = false).
Proof.
  induction fuel as [|fuel IH]; intros t t' H; [discriminate |].
  cbn [capture_loop] in H. unfold keep_running in H. rewrite bind_act in H.
  destruct (shutdown_requested env (List.length t)) eqn:F; cbn [negb] in H.
  - injection H as <-. left. eauto.
  - unfold bind in H.
    destruct (capture_iteration fuel cfg id size env _) as [[] t1 | |] eqn:E;
      try discriminate.
    + injection H as <-. apply capture_iteration_break in E.
      destruct E as [E | (r & E)]; [left; exact E | right; eauto].
    + now apply IH in H.
Qed.

(** X15: [main] returns 0 in two cases only: after a read of
    [keep_running] that found it cleared by a signal, or after a call of
    [ASIStartExposure] that did not succeed; in both the camera is closed
    right after.  An exposure that fails, a frame that cannot be fetched
    and a file that cannot be opened never end the run. *)
Theorem main_returns_0_only_on_signal_or_failed_trigger
  (fuel : nat) (args : list string) (env : Env) (cfg : Config) (t : Trace) :
  parse_args (env_stod env) (env_stoi env) default_config args = Some cfg ->
  handlers_installed env ->
  main fuel args env [] = Ret 0 t ->
  (exists pre,
      t = pre ++ EvKeepRunning false :: closing (CameraID (camera_info_of env)) /\
      shutdown_requested env (List.length pre) = true) \/
  (exists pre r,
      t = pre ++ EvStartExposure (CameraID (camera_info_of env)) ASI_FALSE r
              :: EvPrint Cerr [Text "Error starting exposure"]
              :: closing (CameraID (camera_info_of env)) /\
      env_start_exposure env (List.length pre) = r /\ r <> ASI_SUCCESS).
Proof.
  intros Hp Hh H. rewrite (main_startup fuel args env cfg Hp Hh) in H.
  destruct (cameras_found env <? 1); [discriminate |].
  destruct (negb (succeeded (property_result env))); [discriminate |].
  destruct (negb (succeeded (open_result env))); [discriminate |].
  destruct (negb (succeeded (init_result env))); [discriminate |].
  destruct (exposure_microseconds (exposure_seconds cfg)) as [us|]; [| discriminate].
  destruct (_ || _); [discriminate |].
  apply capture_and_close_ret in H. destruct H as (_ & new & Hloop & _ & ->).
  apply capture_loop_exit in Hloop.
  destruct Hloop as [(pre & E & F) | (pre & r & E & S0 & Hr)]; rewrite app_assoc, E.
  - left. exists pre. split; [now rewrite <- app_assoc | exact F].
  - right. exists pre, r. split; [now rewrite <- app_assoc |]. split; [exact S0 |].
    now apply succeeded_false.
Qed.

Lemma main_returns_0_only_on_signal_or_failed_trigger_witness :
  exists t,
    main 5 [] (with_sigint 25 healthy_env) [] = Ret 0 t /\
    ((exists pre,
         t = pre ++ EvKeepRunning false :: closing 0 /\
         shutdown_requested (with_sigint 25 healthy_env) (List.length pre) = true) \/
     (exists pre r,
         t = pre ++ EvStartExposure 0 ASI_FALSE r
                 :: EvPrint Cerr [Text "Error starting exposure"]
                 :: closing 0 /\
         env_start_exposure (with_sigint 25 healthy_env) (List.length pre) = r /\
         r <> ASI_SUCCESS)).
Proof.
  eexists. split.
  - vm_compute. reflexivity.
  - apply (main_returns_0_only_on_signal_or_failed_trigger
             5 [] (with_sigint 25 healthy_env) default_config).
    + reflexivity.
    + split; reflexivity.
    + vm_compute. reflexivity.
Defined.

(** ** No abnormal end *)

Lemma capture_iteration_no_abort
  (fuel : nat) (cfg : Config) (id size : Z) (env : Env) (t t1 : Trace) (why : Abnormal) :
  (forall sec, env_localtime env sec <> None) ->
  capture_iteration fuel cfg id size env t <> Abort why t1.
Proof.
  intros L H. pose proof (capture_iteration_outcome fuel cfg id size env t) as O.
  rewrite H in O.
  inversion O as [ | | | | | t_w tv W F N | | t_w tv ltm r W F P R ]; subst.
  - now apply (L (tv_sec tv)).
  - destruct (pace _ _ _ _ _) as [[] t_p | why' t_p |] eqn:P; try discriminate.
    now apply pace_no_abort in P.
Qed.

Lemma capture_loop_no_abort (cfg : Config) (id size : Z) (env : Env) (fuel : nat) :
  (forall sec, env_localtime env sec <> None) ->
  forall t why t', capture_loop fuel cfg id size env t <> Abort why t'.
Proof.
  intros L. induction fuel as [|fuel IH]; intros t why t' H; [discriminate |].
  cbn [capture_loop] in H. unfold keep_running in H. rewrite bind_act in H.
  destruct (negb _); [| discriminate].
  unfold bind in H.
  destruct (capture_iteration fuel cfg id size env _) as [[] t1 | why1 t1 |] eqn:E;
    try discriminate.
  - now apply IH in H.
  - now apply capture_iteration_no_abort in E.
Qed.

(** X17: once the command line is parsed and the handlers are installed,
    and provided the exposure time converts to a [long], the frame buffer
    can be allocated and [localtime] answers, no run of [main] ends
    abnormally, whatever the camera and the file system answer: failed
    exposures, failed fetches and refused files are all survived. *)
Theorem no_answer_of_camera_or_file_system_ends_main_abnormally
  (fuel : nat) (args : list string) (env : Env) (cfg : Config) (why : Abnormal)
  (t : Trace) :
  parse_args (env_stod env) (env_stoi env) default_config args = Some cfg ->
  handlers_installed env ->
  runs_normally env cfg ->
  main fuel args env [] <> Abort why t.
Proof.
  intros Hp Hh (Hx & Hs & Hm & Hl) H.
  rewrite (main_startup fuel args env cfg Hp Hh) in H.
  destruct (cameras_found env <? 1); [discriminate |].
  destruct (negb (succeeded (property_result env))); [discriminate |].
  destruct (negb (succeeded (open_result env))); [discriminate |].
  destruct (negb (succeeded (init_result env))); [discriminate |].
  destruct (exposure_microseconds (exposure_seconds cfg)) as [us|]; [| congruence].
  rewrite Hm, (proj2 (Z.ltb_ge _ _) Hs) in H. cbn [negb orb] in H.
  unfold capture_and_close in H. unfold bind at 1 in H.
  destruct (capture_loop fuel cfg _ _ env _) as [[] t_l | why' t_l |] eqn:E.
  - unfold cout, print, ASICloseCamera in H. rewrite !bind_emit in H. discriminate.
  - now apply capture_loop_no_abort in E.
  - discriminate.
Qed.

Lemma no_answer_of_camera_or_file_system_ends_main_abnormally_witness :
  main 20 [] failing_exposures_env [] <> Abort Undefined_behaviour [].
Proof.
  apply (no_answer_of_camera_or_file_system_ends_main_abnormally
           20 [] failing_exposures_env default_config).
  - reflexivity.
  - split; reflexivity.
  - repeat split.
    + vm_compute. discriminate.
    + vm_compute. discriminate.
    + intros sec. discriminate.
Defined.

(** ** Frames and files, counted *)

Lemma count_polling (p : Event -> bool) (id : Z) (k : nat) :
  p (EvGetExpStatus id ASI_EXP_WORKING) = false -> p (EvSleep 10) = false ->
  p (EvKeepRunning true) = false -> count p (polling id k) = 0%nat.
Proof. intros. apply count_none. now apply existsb_polling. Qed.

Lemma count_pacing (p : Event -> bool) (k : nat) :
  p (EvKeepRunning true) = false -> p (EvSleep 100) = false -> count p (pacing k) = 0%nat.
Proof. intros. apply count_none. now apply existsb_pacing. Qed.

Lemma count_last_poll (p : Event -> bool) (id : Z) (status : ASI_EXPOSURE_STATUS) :
  (forall s, p (EvGetExpStatus id s) = false) -> p (EvSleep 10) = false ->
  p (EvKeepRunning false) = false -> count p (last_poll id status) = 0%nat.
Proof. intros. apply count_none. now apply existsb_last_poll. Qed.

Lemma count_cons (p : Event -> bool) (e : Event) (l : Trace) :
  count p (e :: l) = ((if p e then 1 else 0) + count p l)%nat.
Proof. unfold count. cbn [filter]. destruct (p e); reflexivity. Qed.

Ltac count_events :=
  unfold saved_line;
  repeat (rewrite count_cons || rewrite count_app);
  rewrite ?count_polling, ?count_pacing, ?count_last_poll by (intros; reflexivity);
  change (count is_trigger []) with 0%nat;
  change (count is_good_fetch []) with 0%nat;
  change (count is_write []) with 0%nat;
  change (count is_saved_line []) with 0%nat;
  cbn.

(** One run of the body: one trigger, at most one fetch that succeeded, and
    as many files opened with success, written, closed and acknowledged,
    at most one. *)
Lemma iteration_counts (cfg : Config) (id size : Z) (iteration : Trace) :
  iteration_events cfg id size iteration ->
  count is_trigger iteration = 1%nat /\
  (count is_good_fetch iteration <= 1)%nat /\
  (count is_write iteration <= count is_good_fetch iteration)%nat /\
  count is_saved_line iteration = count is_write iteration.
Proof.
  destruct 1 as [r Hr | k status | k status Hs | k r Hr | k tv | k tv ltm
                 | k tv ltm n cut_short];
    try destruct cut_short; count_events; try (destruct r; try discriminate);
    repeat split; cbn; lia.
Qed.

Lemma loop_counts (cfg : Config) (id size : Z) (new : Trace) :
  loop_events cfg id size new ->
  (count is_good_fetch new <= count is_trigger new)%nat /\
  (count is_write new <= count is_good_fetch new)%nat /\
  count is_saved_line new = count is_write new.
Proof.
  induction 1 as [| it Hit | it rest Hit _ IH].
  - count_events. repeat split; lia.
  - destruct (iteration_counts _ _ _ _ Hit) as (T & F & W & S).
    rewrite !count_cons. cbn [is_trigger is_good_fetch is_write is_saved_line].
    repeat split; lia.
  - destruct (iteration_counts _ _ _ _ Hit) as (T & F & W & S).
    destruct IH as (F' & W' & S').
    rewrite !count_cons, !count_app.
    cbn [is_trigger is_good_fetch is_write is_saved_line].
    repeat split; lia.
Qed.

(** X18: whatever way a run of [main] ends, it has fetched with success
    at most as many frames as it started exposures, it has written at most
    as many files as it fetched frames with success, and it has printed one
    "Saved" line for each file written: no frame is stored twice and no
    file is acknowledged that was not written. *)
Theorem each_trigger_gives_at_most_one_frame_and_each_frame_one_file
  (fuel : nat) (args : list string) (env : Env) (t : Trace) :
  trace_of (main fuel args env []) = Some t ->
  (count is_good_fetch t <= count is_trigger t)%nat /\
  (count is_write t <= count is_good_fetch t)%nat /\
  count is_saved_line t = count is_write t.
Proof.
  intros H. apply main_traces in H.
  destruct H as [-> | [-> | (cfg & _ & _ & H)]]; [cbn; lia | cbn; lia |].
  destruct H as [C | C P | C P O | C P O I | R U | us R U B | us new R U S L
                 | us new R U S L];
    unfold configured, discovered, opened, banner, closing;
    try (apply loop_counts in L; destruct L as (F & W & V));
    count_events; repeat split; lia.
Qed.

Lemma each_trigger_gives_at_most_one_frame_and_each_frame_one_file_witness :
  exists t,
    trace_of (main 5 [] (with_sigint 25 healthy_env) []) = Some t /\
    (count is_good_fetch t <= count is_trigger t)%nat /\
    (count is_write t <= count is_good_fetch t)%nat /\
    count is_saved_line t = count is_write t.
Proof.
  eexists. split; [vm_compute; reflexivity |].
  apply (each_trigger_gives_at_most_one_frame_and_each_frame_one_file
           5 [] (with_sigint 25 healthy_env)).
  vm_compute; reflexivity.
Defined.

(** ** The first actions *)

Lemma loop_installs_no_handler (cfg : Config) (id size : Z) (new : Trace) :
  loop_events cfg id size new -> count is_signal_call new = 0%nat.
Proof.
  intros H. apply loop_events_each in H. unfold count.
  rewrite filter_none; [reflexivity |].
  eapply Forall_impl; [| exact H].
  intros e He; destruct e; try reflexivity; destruct He.
Qed.

(** X19: once the command line is parsed and no signal arrives before
    the handlers are in place, every run of [main] begins in the same way:
    the handler of SIGINT, the handler of SIGTERM, the start line and the
    four lines that announce the directory, the exposure time, the gain and
    the interval that were parsed, and only then the first call to the
    camera driver, the count of the cameras; no handler is installed again
    later. *)
Theorem handlers_are_installed_first_and_settings_announced_before_the_camera
  (fuel : nat) (args : list string) (env : Env) (cfg : Config) (t : Trace) :
  parse_args (env_stod env) (env_stoi env) default_config args = Some cfg ->
  handlers_installed env ->
  trace_of (main fuel args env []) = Some t ->
  exists rest,
    t = [EvSignal SIGINT; EvSignal SIGTERM;
         EvPrint Cout [Text "Starting continuous ZWO ASICamera capture..."];
         EvPrint Cout [Text "Output directory: "; Text (output_dir cfg)];
         EvPrint Cout [Text "Exposure time: "; Real (exposure_seconds cfg); Text " s"];
         EvPrint Cout [Text "Gain: "; Int (gain_value cfg)];
         EvPrint Cout [Text "Interval: "; Real (interval_seconds cfg); Text " s"];
         EvGetNumOfConnectedCameras (cameras_found env)] ++ rest /\
    count is_signal_call rest = 0%nat.
Proof.
  intros Hp Hh H. apply (main_trace_installed fuel args env cfg t Hp Hh) in H.
  destruct H as [C | C P | C P O | C P O I | R U | us R U S | us new R U S L
                 | us new R U S L];
    unfold configured, discovered, opened, banner;
    repeat (rewrite <- app_assoc; cbn [app]);
    eexists; (split; [reflexivity |]);
    try reflexivity;
    apply loop_installs_no_handler in L; count_events; rewrite ?L; reflexivity.
Qed.

Lemma handlers_are_installed_first_and_settings_announced_before_the_camera_witness :
  handlers_installed (with_sigint 25 healthy_env) /\
  exists t,
    trace_of (main 5 ["--gain"; "7"] (with_sigint 25 healthy_env) []) = Some t /\
    exists rest,
      t = [EvSignal SIGINT; EvSignal SIGTERM;
           EvPrint Cout [Text "Starting continuous ZWO ASICamera capture..."];
           EvPrint Cout [Text "Output directory: "; Text "."];
           EvPrint Cout [Text "Exposure time: "; Real d_1_0; Text " s"];
           EvPrint Cout [Text "Gain: "; Int 7];
           EvPrint Cout [Text "Interval: "; Real d_1_5; Text " s"];
           EvGetNumOfConnectedCameras 1] ++ rest /\
      count is_signal_call rest = 0%nat.
Proof.
  split; [split; reflexivity |].
  eexists. split; [vm_compute; reflexivity |].
  apply (handlers_are_installed_first_and_settings_announced_before_the_camera
           5 ["--gain"; "7"] (with_sigint 25 healthy_env)
           (set_gain_value 7 default_config));
    [vm_compute; reflexivity | split; reflexivity | vm_compute; reflexivity].
Defined.
